(** * med_transcribe: the browser-side recorder, modal and exchange logic

    A shallow embedding of [static/transcriber/recorder.js] and
    [static/transcriber/modal.js], and the properties of the
    specification that concern them.

    Conventions.  JavaScript numbers that the scripts only ever use as
    integers (counters, date fields, the timezone offset) are [Z];
    strings are [string]; [undefined] is a constructor of [jsval], and
    an exception is the [Throw] case of [completion].  Objects used as
    maps (the global object, the document indexed by element id) are
    [gmap string _].  The audio samples are IEEE-754 values
    ([spec_float]). *)

From Stdlib Require Import ZArith List Bool Ascii String Lia Lqa.
From Stdlib Require Import DecimalString DecimalPos DecimalZ QArith Qround Qminmax Qpower.
From Stdlib Require Import SpecFloat.
From stdpp Require Import base option list gmap strings.

Import ListNotations.
Local Open Scope Z_scope.

(** ** JavaScript values and completions *)

Module JS.

(** The exceptions the scripts can raise. *)
Inductive error :=
| ReferenceError (name : string)      (* unresolvable identifier *)
| TypeError (what : string)           (* property access on undefined/null *)
| NotAllowedError                     (* getUserMedia refused *)
| NetworkError                        (* fetch rejected *)
| SyntaxError.                        (* response.json() on a non-JSON body *)

(** The result of running a piece of code: a value, or a thrown error. *)
Inductive completion (A : Type) :=
| Ok (a : A)
| Throw (e : error).
Arguments Ok {A} a.
Arguments Throw {A} e.

#[global] Instance completion_ret : MRet completion := fun A a => Ok a.

#[global] Instance completion_bind : MBind completion := fun A B k c =>
  match c with
  | Ok a => k a
  | Throw e => Throw e
  end.

Definition returns {A} (c : completion A) : Prop := exists a, c = Ok a.

(** [String(n)] for an integral number. *)
Definition Number_toString (n : Z) : string :=
  NilZero.string_of_int (Z.to_int n).

(** [s.padStart(n, c)] for a one-character filler [c]. *)
Fixpoint fill (c : ascii) (k : nat) (s : string) : string :=
  match k with
  | O => s
  | S k' => String c (fill c k' s)
  end.

Definition padStart (n : nat) (c : ascii) (s : string) : string :=
  fill c (n - String.length s) s.

(** [s.startsWith(p)]. *)
Definition startsWith (p s : string) : bool := String.prefix p s.

(** [s.split(sep)] for a non-empty separator: the pieces between the
    successive, non-overlapping occurrences of [sep], scanning from the
    left.  [skip] counts the characters of a matched separator still to
    be passed over and [cur] holds the piece being read, reversed. *)
Fixpoint split_go (sep : string) (skip : nat) (cur : list ascii) (s : string)
  : list string :=
  match s with
  | EmptyString => [string_of_list_ascii (rev cur)]
  | String c s' =>
      match skip with
      | S k => split_go sep k cur s'
      | O =>
          if String.prefix sep s
          then string_of_list_ascii (rev cur)
                 :: split_go sep (String.length sep - 1) [] s'
          else split_go sep 0 (c :: cur) s'
      end
  end.

Definition split (sep s : string) : list string := split_go sep 0 [] s.

(** [a.find(p)]: the first element satisfying [p], or undefined. *)
Fixpoint find {A} (p : A -> bool) (l : list A) : option A :=
  match l with
  | [] => None
  | x :: l' => if p x then Some x else find p l'
  end.

End JS.
Import JS.

(** ** The browser: document, audio graph, network *)

(** An element of the page, with the properties the scripts touch.
    [controls] are the named controls of a form ([form.elements.x] or
    [form.x]) with their values. *)
Record element := {
  disabled : bool;
  display : string;          (* style.display *)
  value : string;
  textContent : string;      (* also read and written as innerHTML *)
  src : string;
  href : string;
  download : string;
  controls : gmap string string;
}.

Definition with_disabled (b : bool) (e : element) : element :=
  Build_element b (display e) (value e) (textContent e) (src e) (href e)
    (download e) (controls e).
Definition with_display (d : string) (e : element) : element :=
  Build_element (disabled e) d (value e) (textContent e) (src e) (href e)
    (download e) (controls e).
Definition with_value (v : string) (e : element) : element :=
  Build_element (disabled e) (display e) v (textContent e) (src e) (href e)
    (download e) (controls e).
Definition with_textContent (t : string) (e : element) : element :=
  Build_element (disabled e) (display e) (value e) t (src e) (href e)
    (download e) (controls e).
Definition with_src (u : string) (e : element) : element :=
  Build_element (disabled e) (display e) (value e) (textContent e) u (href e)
    (download e) (controls e).
Definition with_href (u : string) (e : element) : element :=
  Build_element (disabled e) (display e) (value e) (textContent e) (src e) u
    (download e) (controls e).
Definition with_download (n : string) (e : element) : element :=
  Build_element (disabled e) (display e) (value e) (textContent e) (src e)
    (href e) n (controls e).
Definition with_controls (c : gmap string string) (e : element) : element :=
  Build_element (disabled e) (display e) (value e) (textContent e) (src e)
    (href e) (download e) c.

(** A [Blob]: its bytes and its media type. *)
Record blob := { blob_bytes : list Byte.byte; blob_type : string }.

Definition blob_size (b : blob) : nat := length (blob_bytes b).

(** [new Blob(parts, {type})]: the parts one after the other. *)
Definition Blob (parts : list (list Byte.byte)) (type : string) : blob :=
  {| blob_bytes := concat parts; blob_type := type |}.

(** An entry of a [FormData]: a name with a string, or with a file. *)
Inductive form_value :=
| FormString (s : string)
| FormFile (b : blob) (filename : string).

Definition FormData := list (string * form_value).

(** [formData.append(name, v)] puts the entry last. *)
Definition append (name : string) (v : form_value) (f : FormData) : FormData :=
  f ++ [(name, v)].

(** [formData.get(name)]: the first entry of that name. *)
Definition form_get (name : string) (f : FormData) : option form_value :=
  snd <$> List.find (fun e => String.eqb (fst e) name) f.

(** The form the stop handler builds. *)
Definition new_recording_form (b : blob) (formatted : string) (tz : Z) : FormData :=
  [("file", FormFile b (formatted +:+ ".mp3"));
   ("new_file", FormString "true");
   ("local_datetime", FormString formatted);
   ("timezone_offset", FormString (Number_toString tz))]%string.

(** The values an identifier of the global scope can hold. *)
Inductive jsval :=
| VUndefined
| VBool (b : bool)
| VNum (n : Z)
| VStr (s : string)
| VElement (id : string)
| VBlob (b : blob)
| VFormData (f : FormData).

(** What [fetch(url, init)] is called with. *)
Record request := {
  req_url : string;
  req_method : string;
  req_headers : list (string * jsval);
  req_body : jsval;
}.

(** The JSON the server answers with:
    [{ context: { transcription: { filename, transcript, formatted_text },
                  transcript } }], every level possibly absent. *)
Record transcription := {
  filename : string;
  transcript : string;
  formatted_text : string;
}.

Record context := {
  ctx_transcription : option transcription;
  ctx_transcript : option string;
}.

Record response_data := { data_context : option context }.

(** How a [fetch] settles: rejected, or answered with a body that is
    JSON ([Some]) or is not ([None]). *)
Inductive fetch_outcome :=
| Rejected
| Responded (body : option response_data).

(** The two capture flows, each with its own variables and callback. *)
Inductive flow := Primary | VoiceChat.

#[global] Instance flow_eq_dec : EqDecision flow.
Proof. solve_decision. Defined.

(** A [ScriptProcessorNode]: the closure installed as [onaudioprocess],
    whether a source was connected to it, and whether it is connected
    to the destination. *)
Record node := {
  onaudioprocess : option flow;
  fed : bool;
  connected : bool;
}.

(** The calls into the platform and into lamejs, in the order made. *)
Inductive call :=
| CallDisconnect (n : nat)
| CallTrackStop (s : nat)
| CallEncodeBuffer (f : flow)
| CallFlush (f : flow)
| CallFetch (f : flow) (r : request)
| CallConsoleError (e : error).

(** lamejs, as the scripts use it. *)
Class Lamejs (encoder : Type) := {
  Mp3Encoder : Z -> Z -> Z -> encoder;
  encodeBuffer : encoder -> list Z -> encoder * list Byte.byte;
  flush : encoder -> encoder * list Byte.byte;
}.

(** ** Numbers: IEEE-754 values *)

(** A JavaScript number is a binary64 value; an element of a
    [Float32Array] is a binary32 value.  Both are [spec_float]s, valid
    for their format. *)
Module Number.

Definition prec := 53.
Definition emax := 1024.

(** A well-formed element of a [Float32Array]. *)
Definition is_float32 (x : spec_float) : bool := valid_binary 24 128 x.

(** Reading [input[i]] from a [Float32Array]: the same value, as a
    binary64 number. *)
Definition of_float32 (x : spec_float) : spec_float :=
  match x with
  | S754_finite s m e => binary_round prec emax s m e
  | _ => x
  end.

(** An integer literal. *)
Definition of_Z (z : Z) : spec_float := binary_normalize prec emax z 0 false.

Definition mul : spec_float -> spec_float -> spec_float := SFmul prec emax.
Definition ltb : spec_float -> spec_float -> bool := SFltb.

(** [Math.min(a, b)] and [Math.max(a, b)]: NaN if either is NaN, and
    -0 counts as smaller than +0. *)
Definition Math_min (a b : spec_float) : spec_float :=
  match SFcompare a b with
  | None => S754_nan
  | Some Lt => a
  | Some Gt => b
  | Some Eq => match a with S754_zero true => a | _ => b end
  end.

Definition Math_max (a b : spec_float) : spec_float :=
  match SFcompare a b with
  | None => S754_nan
  | Some Lt => b
  | Some Gt => a
  | Some Eq => match a with S754_zero false => a | _ => b end
  end.

(** The integer part of a finite number (rounding toward zero). *)
Definition truncate (x : spec_float) : Z :=
  match x with
  | S754_finite s m e => cond_Zopp s (Z.shiftl (Zpos m) e)
  | _ => 0
  end.

(** Storing a number into an [Int16Array] (ToInt16): NaN, the zeros and
    the infinities become 0; any other number is truncated and reduced
    modulo 2^16 into [-2^15, 2^15). *)
Definition ToInt16 (x : spec_float) : Z :=
  let int16bit := truncate x mod 65536 in
  if 32768 <=? int16bit then int16bit - 65536 else int16bit.

(** The value of a zero or finite number, as a rational. *)
Definition to_Q (x : spec_float) : Q :=
  match x with
  | S754_finite s m e => (inject_Z (cond_Zopp s (Zpos m)) * 2 ^ e)%Q
  | _ => 0%Q
  end.

Definition is_finite (x : spec_float) : bool :=
  match x with
  | S754_finite _ _ _ | S754_zero _ => true
  | _ => false
  end.

End Number.

(** The integer part of a rational (rounding toward zero). *)
Definition Qtruncate (q : Q) : Z := Z.quot (Qnum q) (Zpos (Qden q)).

(** ** recorder.js: PCM conversion *)

(** The body of the loop of [floatTo16BitPCM] for one sample:
    [s = Math.max(-1, Math.min(1, input[i]))], then
    [output[i] = s < 0 ? s * 0x8000 : s * 0x7FFF]. *)
Definition clamp (x : spec_float) : spec_float :=
  Number.Math_max (Number.of_Z (-1)) (Number.Math_min (Number.of_Z 1) x).

Definition scale (s : spec_float) : spec_float :=
  if Number.ltb s (Number.of_Z 0)
  then Number.mul s (Number.of_Z 0x8000)
  else Number.mul s (Number.of_Z 0x7FFF).

Definition to16BitPCM (x : spec_float) : Z :=
  Number.ToInt16 (scale (clamp (Number.of_float32 x))).

(** [floatTo16BitPCM(input)]: an [Int16Array] as long as [input]. *)
Definition floatTo16BitPCM (input : list spec_float) : list Z :=
  map to16BitPCM input.

(** 2^52, the mantissa of 1 as a binary64 number. *)
Definition one : positive := 4503599627370496.

(** The magnitude [M * 2^E] of a number with a 53-bit mantissa [M] is
    above 1. *)
Definition over (M : positive) (E : Z) : bool :=
  (-52 <? E) || ((E =? -52) && (one <? M)%positive).

(** ** recorder.js: the timer text *)

(** [formatTime(sec)]: [Math.floor(sec / 60)] and [sec % 60], each
    printed and left-padded with zeros to width two. *)
Definition formatTime (sec : Z) : string :=
  let minutes := sec / 60 in
  let seconds := Z.rem sec 60 in
  padStart 2 "0" (Number_toString minutes) +:+ ":" +:+
  padStart 2 "0" (Number_toString seconds).

(** The decimal digit [d], and a number below 100 written with exactly
    two digits. *)
Definition digit (d : Z) : ascii := ascii_of_nat (48 + Z.to_nat d).

Definition two_digits (n : Z) : string :=
  String (digit (n / 10)) (String (digit (n mod 10)) EmptyString).

Definition is_digit (c : ascii) : bool :=
  (48 <=? nat_of_ascii c)%nat && (nat_of_ascii c <=? 57)%nat.

(** The shape [mm:ss]: two digits, a colon, two digits. *)
Definition is_mm_ss (s : string) : bool :=
  match list_ascii_of_string s with
  | [m1; m0; c; s1; s0] =>
      is_digit m1 && is_digit m0 && Ascii.eqb c ":" && is_digit s1 && is_digit s0
  | _ => false
  end.

(** The shape [YYYYMMDD_HHMMSS]. *)
Definition is_stamp (s : string) : bool :=
  match list_ascii_of_string s with
  | [y3; y2; y1; y0; m1; m0; d1; d0; u; h1; h0; n1; n0; s1; s0] =>
      forallb is_digit [y3; y2; y1; y0; m1; m0; d1; d0; h1; h0; n1; n0; s1; s0]
      && Ascii.eqb u "_"
  | _ => false
  end.

(** The character [c] does not occur in [s]. *)
Definition free_of (c : ascii) (s : string) : Prop :=
  ~ In c (list_ascii_of_string s).

(** Checking a property of the integers [0 .. k-1] by running it. *)
Definition all_below (k : nat) (P : Z -> bool) : bool :=
  forallb P (map Z.of_nat (seq 0 k)).

(** ** recorder.js: the CSRF cookie *)

(** A string-or-undefined is an [option string].  The method call
    [recv.split(sep)] throws a TypeError on an undefined receiver; the
    optional chain [recv?.rest] skips [rest] and yields undefined. *)
Definition call_split (recv : option string) (sep : string)
  : completion (list string) :=
  match recv with
  | None => Throw (TypeError "Cannot read properties of undefined (reading 'split')")
  | Some s => Ok (split sep s)
  end.

Definition optional_chain {A} (recv : option string)
    (rest : string -> completion (option A)) : completion (option A) :=
  match recv with
  | None => Ok None
  | Some s => rest s
  end.

(** [getCSRFToken()], as a function of [document.cookie]. *)
Definition getCSRFToken (cookie : string) : completion (option string) :=
  rows ← call_split (Some cookie) "; ";
  optional_chain (find (startsWith "csrftoken=") rows) (fun row =>
    parts ← call_split (Some row) "=";
    Ok (parts !! 1%nat)).


(** ** The state of the page *)

(** The variables of one capture flow ([audioContext], [micStream],
    [scriptProcessor], [mp3Encoder], [mp3Data], and their [chat]
    counterparts).  A variable declared without a value is undefined:
    [None].  [audioContext] holds the context's sample rate, the two
    handles index [streams] and [nodes]. *)
Record capture (encoder : Type) := {
  audioContext : option Z;
  micStream : option nat;
  scriptProcessor : option nat;
  mp3Encoder : option encoder;
  mp3Data : list (list Byte.byte);
}.
Arguments audioContext {encoder}.
Arguments micStream {encoder}.
Arguments scriptProcessor {encoder}.
Arguments mp3Encoder {encoder}.
Arguments mp3Data {encoder}.
Arguments Build_capture {encoder}.

Record page (encoder : Type) := {
  (* variables of recorder.js *)
  recorder : capture encoder;
  chat : capture encoder;
  timerInterval : option nat;
  seconds : Z;
  timezoneOffset : Z;
  (* the browser *)
  document : gmap string element;
  cookie : string;
  globals : gmap string jsval;
  nodes : list node;
  streams : list bool;             (* per stream: are its tracks live *)
  intervals : list bool;           (* per interval timer: is it active *)
  awaits : list (option flow);     (* per call of getUserMedia: the flow whose
                                      start handler is suspended on it, until
                                      it settles *)
  object_urls : list blob;         (* blobs registered by createObjectURL *)
  log : list call;
}.
Arguments recorder {encoder}.
Arguments chat {encoder}.
Arguments timerInterval {encoder}.
Arguments seconds {encoder}.
Arguments timezoneOffset {encoder}.
Arguments document {encoder}.
Arguments cookie {encoder}.
Arguments globals {encoder}.
Arguments nodes {encoder}.
Arguments streams {encoder}.
Arguments intervals {encoder}.
Arguments awaits {encoder}.
Arguments object_urls {encoder}.
Arguments log {encoder}.
Arguments Build_page {encoder}.

Section Page.
Context {encoder : Type}.

Definition with_recorder (c : capture encoder) (p : page encoder) :=
  Build_page c (chat p) (timerInterval p) (seconds p) (timezoneOffset p)
    (document p) (cookie p) (globals p) (nodes p) (streams p) (intervals p)
    (awaits p) (object_urls p) (log p).
Definition with_chat (c : capture encoder) (p : page encoder) :=
  Build_page (recorder p) c (timerInterval p) (seconds p) (timezoneOffset p)
    (document p) (cookie p) (globals p) (nodes p) (streams p) (intervals p)
    (awaits p) (object_urls p) (log p).
Definition with_timerInterval (t : option nat) (p : page encoder) :=
  Build_page (recorder p) (chat p) t (seconds p) (timezoneOffset p)
    (document p) (cookie p) (globals p) (nodes p) (streams p) (intervals p)
    (awaits p) (object_urls p) (log p).
Definition with_seconds (n : Z) (p : page encoder) :=
  Build_page (recorder p) (chat p) (timerInterval p) n (timezoneOffset p)
    (document p) (cookie p) (globals p) (nodes p) (streams p) (intervals p)
    (awaits p) (object_urls p) (log p).
Definition with_timezoneOffset (n : Z) (p : page encoder) :=
  Build_page (recorder p) (chat p) (timerInterval p) (seconds p) n
    (document p) (cookie p) (globals p) (nodes p) (streams p) (intervals p)
    (awaits p) (object_urls p) (log p).
Definition with_document (d : gmap string element) (p : page encoder) :=
  Build_page (recorder p) (chat p) (timerInterval p) (seconds p)
    (timezoneOffset p) d (cookie p) (globals p) (nodes p) (streams p)
    (intervals p) (awaits p) (object_urls p) (log p).
Definition with_globals (g : gmap string jsval) (p : page encoder) :=
  Build_page (recorder p) (chat p) (timerInterval p) (seconds p)
    (timezoneOffset p) (document p) (cookie p) g (nodes p) (streams p)
    (intervals p) (awaits p) (object_urls p) (log p).
Definition with_nodes (n : list node) (p : page encoder) :=
  Build_page (recorder p) (chat p) (timerInterval p) (seconds p)
    (timezoneOffset p) (document p) (cookie p) (globals p) n (streams p)
    (intervals p) (awaits p) (object_urls p) (log p).
Definition with_streams (l : list bool) (p : page encoder) :=
  Build_page (recorder p) (chat p) (timerInterval p) (seconds p)
    (timezoneOffset p) (document p) (cookie p) (globals p) (nodes p) l
    (intervals p) (awaits p) (object_urls p) (log p).
Definition with_intervals (l : list bool) (p : page encoder) :=
  Build_page (recorder p) (chat p) (timerInterval p) (seconds p)
    (timezoneOffset p) (document p) (cookie p) (globals p) (nodes p)
    (streams p) l (awaits p) (object_urls p) (log p).
Definition with_awaits (l : list (option flow)) (p : page encoder) :=
  Build_page (recorder p) (chat p) (timerInterval p) (seconds p)
    (timezoneOffset p) (document p) (cookie p) (globals p) (nodes p)
    (streams p) (intervals p) l (object_urls p) (log p).
Definition with_object_urls (l : list blob) (p : page encoder) :=
  Build_page (recorder p) (chat p) (timerInterval p) (seconds p)
    (timezoneOffset p) (document p) (cookie p) (globals p) (nodes p)
    (streams p) (intervals p) (awaits p) l (log p).
Definition with_log (l : list call) (p : page encoder) :=
  Build_page (recorder p) (chat p) (timerInterval p) (seconds p)
    (timezoneOffset p) (document p) (cookie p) (globals p) (nodes p)
    (streams p) (intervals p) (awaits p) (object_urls p) l.

(** The variables of a flow, and their update. *)
Definition vars (f : flow) (p : page encoder) : capture encoder :=
  match f with Primary => recorder p | VoiceChat => chat p end.

Definition with_vars (f : flow) (c : capture encoder) (p : page encoder) :=
  match f with Primary => with_recorder c p | VoiceChat => with_chat c p end.

(** *** Running code: a state and exception monad

    A handler runs to completion on the page.  It either finishes with
    a value or throws; either way the changes it made so far stay. *)
Inductive outcome (A : Type) :=
| Done (a : A) (p : page encoder)
| Raised (e : error) (p : page encoder).
Arguments Done {A} a p.
Arguments Raised {A} e p.

Definition action (A : Type) : Type := page encoder -> outcome A.

Definition ret {A} (a : A) : action A := fun p => Done a p.

Definition bind {A B} (m : action A) (k : A -> action B) : action B :=
  fun p =>
    match m p with
    | Done a p' => k a p'
    | Raised e p' => Raised e p'
    end.

Definition throw {A} (e : error) : action A := fun p => Raised e p.

(** [try { m } catch (e) { h e }]. *)
Definition catch {A} (m : action A) (h : error -> action A) : action A :=
  fun p =>
    match m p with
    | Done a p' => Done a p'
    | Raised e p' => h e p'
    end.

Definition get {A} (f : page encoder -> A) : action A := fun p => Done (f p) p.
Definition modify (f : page encoder -> page encoder) : action unit :=
  fun p => Done tt (f p).

(** Lifting a pure completion. *)
Definition lift {A} (c : completion A) : action A :=
  fun p => match c with Ok a => Done a p | Throw e => Raised e p end.

(** The page an outcome leaves behind. *)
Definition page_of {A} (o : outcome A) : page encoder :=
  match o with Done _ p => p | Raised _ p => p end.

End Page.

Arguments Done {encoder A} a p.
Arguments Raised {encoder A} e p.

Notation "x <- m ;; k" := (bind m (fun x => k))
  (at level 100, m at next level, right associativity,
   format "'[v' x  <-  m  ;;  '/' k ']'").
Notation "m ;;; k" := (bind m (fun _ => k))
  (at level 100, right associativity,
   format "'[v' m  ;;;  '/' k ']'").

(** What [new Date()] reports in local time. *)
Record local_date := {
  getFullYear : Z;
  getMonth : Z;          (* 0 .. 11 *)
  getDate : Z;
  getHours : Z;
  getMinutes : Z;
  getSeconds : Z;
}.

Section Scripts.
Context {encoder : Type} `{!Lamejs encoder}.

Abbreviation action := (@action encoder).

(** *** Document and platform primitives *)

(** [document.getElementById(id)]: the element, or null. *)
Definition getElementById (id : string) : action (option element) :=
  get (fun p => document p !! id).

(** Writing a property of the element [id] (through [f]): a TypeError
    when there is no such element. *)
Definition set_element (id : string) (f : element -> element) : action unit :=
  fun p =>
    match document p !! id with
    | Some e => Done tt (with_document (<[id := f e]> (document p)) p)
    | None => Raised (TypeError id) p
    end.

(** Reading a property of the element [id]. *)
Definition get_element (id : string) : action element :=
  fun p =>
    match document p !! id with
    | Some e => Done e p
    | None => Raised (TypeError id) p
    end.

(** Recording a call into the platform. *)
Definition record (c : call) : action unit :=
  modify (fun p => with_log (log p ++ [c]) p).

(** Resolving an identifier that no enclosing function declares: a
    property of the global object, else the element of that id (named
    access on [window]), else a ReferenceError. *)
Definition resolve (name : string) : action jsval :=
  fun p =>
    match globals p !! name with
    | Some v => Done v p
    | None =>
        match document p !! name with
        | Some _ => Done (VElement name) p
        | None => Raised (ReferenceError name) p
        end
    end.

(** Reading a variable of a flow that must hold an object. *)
Definition defined {A} (name : string) (v : option A) : action A :=
  match v with
  | Some a => ret a
  | None => throw (TypeError name)
  end.

Definition update_node (n : nat) (f : node -> node) : action unit :=
  modify (fun p => with_nodes (alter f n (nodes p)) p).

(** *** modal.js *)

(** The first descendant of the modal with class [modal-content] sits
    in the document under this key. *)
Definition modal_content : string := "modal .modal-content".

(** [textModal(content)].  The assignment to the undeclared [container]
    creates a global. *)
Definition textModal (content : string) : action unit :=
  set_element "modal" (with_display "block") ;;;
  c <- getElementById modal_content ;;
  modify (fun p => with_globals
    (<["container" := match c with
                      | Some _ => VElement modal_content
                      | None => VUndefined
                      end]> (globals p)) p) ;;;
  set_element modal_content (with_textContent content).

(** [staticModal()]. *)
Definition staticModal : action unit :=
  set_element "modal" (with_display "block").

(** [closeModal()]. *)
Definition closeModal : action unit :=
  set_element "modal" (with_display "none").

(** [window.onclick], for a click whose target is the element [target]. *)
Definition window_onclick (target : string) : action unit :=
  m <- resolve "modal" ;;
  match m with
  | VElement id =>
      if String.eqb target id
      then set_element id (with_display "none")
      else ret tt
  | _ => ret tt
  end.

(** *** recorder.js: page load *)

Definition undefined_capture : capture encoder :=
  Build_capture None None None None [].

(** The [DOMContentLoaded] listener, up to the installation of the four
    click handlers; [tz] is what [new Date().getTimezoneOffset()]
    returns. *)
Definition DOMContentLoaded (tz : Z) : action unit :=
  modify (with_recorder undefined_capture) ;;;
  modify (with_chat undefined_capture) ;;;
  modify (with_timerInterval None) ;;;
  modify (with_seconds 0) ;;;
  set_element "downloadLink" (with_display "none") ;;;
  modify (with_timezoneOffset tz) ;;;
  set_element "timezone_offset" (with_value (Number_toString (- tz))) ;;;
  _ <- get_element "startBtn" ;;
  _ <- get_element "stopBtn" ;;
  _ <- get_element "voiceChatStartBtn" ;;
  _ <- get_element "voiceChatStopBtn" ;;
  ret tt.

(** *** recorder.js: capture *)

(** The [onaudioprocess] callback of flow [f]. *)
Definition scriptProcessor_onaudioprocess (f : flow) (input : list spec_float)
  : action unit :=
  let int16 := floatTo16BitPCM input in
  enc <- (c <- get (vars f) ;; defined "mp3Encoder" (mp3Encoder c)) ;;
  record (CallEncodeBuffer f) ;;;
  let '(enc', mp3buf) := encodeBuffer enc int16 in
  modify (fun p =>
    let c := vars f p in
    with_vars f (Build_capture (audioContext c) (micStream c)
      (scriptProcessor c) (Some enc')
      (if (0 <? length mp3buf)%nat then mp3Data c ++ [mp3buf] else mp3Data c)) p).

(** The two start handlers are [async]: a click runs them up to their
    [await].  The first statement makes a new context, whose sample rate
    is [rate]; then [getUserMedia] is called and the handler is
    suspended on the promise it returns, with the start button as it
    was. *)
Definition start_click (f : flow) (rate : Z) : action unit :=
  modify (fun p =>
    let c := vars f p in
    with_vars f (Build_capture (Some rate) (micStream c) (scriptProcessor c)
      (mp3Encoder c) (mp3Data c)) p) ;;;
  modify (fun p => with_awaits (awaits p ++ [Some f]) p).

(** What the handlers do when the promise settles, up to the connection
    of the node.  A rejected promise is thrown by the [await].  Else the
    stream is assigned, and the variables of the flow are read as they
    are by then: [audioContext] for the source, the node and the sample
    rate of the encoder. *)
Definition start_capture (f : flow) (granted : bool) : action unit :=
  (if granted then ret tt else throw NotAllowedError) ;;;
  stream <- get (fun p => length (streams p)) ;;
  modify (fun p => with_streams (streams p ++ [true]) p) ;;;
  modify (fun p =>
    let c := vars f p in
    with_vars f (Build_capture (audioContext c) (Some stream) (scriptProcessor c)
      (mp3Encoder c) (mp3Data c)) p) ;;;
  rate <- (c <- get (vars f) ;; defined "audioContext" (audioContext c)) ;;
  n <- get (fun p => length (nodes p)) ;;
  modify (fun p => with_nodes (nodes p ++ [Build_node None false false]) p) ;;;
  modify (fun p =>
    let c := vars f p in
    with_vars f (Build_capture (audioContext c) (micStream c) (Some n)
      (Some (Mp3Encoder 1 rate 128)) []) p) ;;;
  update_node n (fun nd => Build_node (Some f) (fed nd) (connected nd)) ;;;
  update_node n (fun nd => Build_node (onaudioprocess nd) true (connected nd)) ;;;
  update_node n (fun nd => Build_node (onaudioprocess nd) (fed nd) true).

(** The callback given to [setInterval]. *)
Definition interval_callback : action unit :=
  modify (fun p => with_seconds (seconds p + 1) p) ;;;
  sec <- get seconds ;;
  set_element "timerDisplay"
    (with_textContent ("Recording: " +:+ formatTime sec)).

(** [startBtn.onclick], up to its [await]. *)
Definition startBtn_onclick (rate : Z) : action unit :=
  start_click Primary rate.

(** [startBtn.onclick], from its [await] on. *)
Definition startBtn_onclick_resumed (granted : bool) : action unit :=
  start_capture Primary granted ;;;
  set_element "startBtn" (with_disabled true) ;;;
  set_element "stopBtn" (with_disabled false) ;;;
  modify (with_seconds 0) ;;;
  set_element "timerDisplay" (with_textContent "Recording: 00:00") ;;;
  t <- get (fun p => length (intervals p)) ;;
  modify (fun p => with_intervals (intervals p ++ [true]) p) ;;;
  modify (with_timerInterval (Some t)).

(** [voiceChatStartBtn.onclick], up to its [await]. *)
Definition voiceChatStartBtn_onclick (rate : Z) : action unit :=
  start_click VoiceChat rate.

(** [voiceChatStartBtn.onclick], from its [await] on. *)
Definition voiceChatStartBtn_onclick_resumed (granted : bool) : action unit :=
  start_capture VoiceChat granted ;;;
  set_element "voiceChatStartBtn" (with_disabled true) ;;;
  set_element "voiceChatStartBtn" (with_display "none") ;;;
  set_element "voiceChatStopBtn" (with_disabled false) ;;;
  set_element "voiceChatStopBtn" (with_display "inline-flex").

(** The start handler of a flow, from its [await] on. *)
Definition resumed (f : flow) (granted : bool) : action unit :=
  match f with
  | Primary => startBtn_onclick_resumed granted
  | VoiceChat => voiceChatStartBtn_onclick_resumed granted
  end.

(** *** recorder.js: the exchange *)

(** [fetchTranscription(url)].  [formData] is not a parameter, and no
    enclosing function of [fetchTranscription] declares it: it is looked
    up in the global scope.  The members of the options object are
    evaluated in order: the header, then the body. *)
Definition fetchTranscription (url : string) : action unit :=
  token <- (c <- get cookie ;; lift (getCSRFToken c)) ;;
  formData <- resolve "formData" ;;
  record (CallFetch Primary
    {| req_url := url;
       req_method := "POST";
       req_headers :=
         [("X-CSRFToken",
           match token with Some t => VStr t | None => VUndefined end)];
       req_body := formData |}).

(** [response.json()] on a settled fetch. *)
Definition json (o : fetch_outcome) : action response_data :=
  match o with
  | Rejected => throw NetworkError
  | Responded None => throw SyntaxError
  | Responded (Some data) => ret data
  end.

(** [data.context.transcription]: a TypeError if [context] or
    [transcription] is missing. *)
Definition data_transcription (data : response_data) : action transcription :=
  c <- defined "context" (data_context data) ;;
  defined "transcription" (ctx_transcription c).

(** Writing the control [name] of the form [id]. *)
Definition set_control (id name : string) (f : string -> string) : action unit :=
  form <- get_element id ;;
  old <- defined name (controls form !! name) ;;
  set_element id (with_controls (<[name := f old]> (controls form))).

Definition submit_button (name : string) : string :=
  "button[name=" +:+ name +:+ "]".

Definition soap_iframe : string := "#soap-text-container iframe".

(** The second [then] of [fetchTranscription]: filling the page from
    the answer, then closing the modal. *)
Definition show_transcription (data : response_data) : action unit :=
  set_element "no-transcription-message" (with_display "none") ;;;
  formContainer <- getElementById "form-container" ;;
  form <- getElementById "reformat" ;;
  (match form with
   | Some _ => ret tt
   | None =>
       (* the form shown after an edit takes the id [reformat] *)
       edited <- get_element "reformat_edited" ;;
       modify (fun p => with_document
         (<["reformat" := edited]> (delete "reformat_edited" (document p))) p) ;;;
       button <- get_element (submit_button "reformat_edited") ;;
       modify (fun p => with_document
         (<[submit_button "reformat" := button]>
            (delete (submit_button "reformat_edited") (document p))) p)
   end) ;;;
  t <- data_transcription data ;;
  set_control "reformat" "filename" (fun _ => filename t) ;;;
  t <- data_transcription data ;;
  set_control "reformat" "transcript" (fun _ => transcript t) ;;;
  _ <- get_element "soap-text-container" ;;
  _ <- get_element soap_iframe ;;
  t <- data_transcription data ;;
  set_element soap_iframe (with_textContent (formatted_text t)) ;;;
  (match formContainer with
   | Some _ => set_element "form-container" (with_display "block")
   | None => ret tt
   end) ;;;
  closeModal.

(** The second [then] of the voice-instruction exchange:
    [form.input.value += ` ${data.context.transcript}`], then closing
    the modal. *)
Definition show_instruction (data : response_data) : action unit :=
  form <- get_element "edit_chat" ;;
  old <- defined "input" (controls form !! "input") ;;
  c <- defined "context" (data_context data) ;;
  let said := match ctx_transcript c with
              | Some t => t
              | None => "undefined"%string
              end in
  set_element "edit_chat"
    (with_controls (<["input" := old +:+ " " +:+ said]> (controls form))) ;;;
  closeModal.

(** [.catch((error) => console.error('Error:', error))]. *)
Definition log_error (e : error) : action unit :=
  record (CallConsoleError e).

(** The promise chain hung on the fetch of flow [f], run when the fetch
    settles as [o]: [.then(json).then(show).catch(log)]. *)
Definition fetch_settled (f : flow) (o : fetch_outcome) : action unit :=
  catch
    (data <- json o ;;
     match f with
     | Primary => show_transcription data
     | VoiceChat => show_instruction data
     end)
    log_error.

(** *** recorder.js: stopping *)

(** [URL.createObjectURL(blob)]: a fresh [blob:] URL. *)
Definition createObjectURL (b : blob) : action string :=
  k <- get (fun p => length (object_urls p)) ;;
  modify (fun p => with_object_urls (object_urls p ++ [b]) p) ;;;
  ret ("blob:" +:+ Number_toString (Z.of_nat k)).

(** The first lines of the two stop handlers, statement by statement.
    [scriptProcessor.disconnect()]: *)
Definition disconnect (f : flow) : action unit :=
  n <- (c <- get (vars f) ;; defined "scriptProcessor" (scriptProcessor c)) ;;
  record (CallDisconnect n) ;;;
  update_node n (fun nd => Build_node (onaudioprocess nd) (fed nd) false).

(** [micStream.getTracks().forEach(track => track.stop())]: *)
Definition stop_tracks (f : flow) : action unit :=
  stream <- (c <- get (vars f) ;; defined "micStream" (micStream c)) ;;
  record (CallTrackStop stream) ;;;
  modify (fun p => with_streams (<[stream := false]> (streams p)) p).

(** [mp3Encoder.flush()], the push of a non-empty result, and the
    [new Blob(mp3Data, ...)]: *)
Definition flush_encoder (f : flow) : action blob :=
  enc <- (c <- get (vars f) ;; defined "mp3Encoder" (mp3Encoder c)) ;;
  record (CallFlush f) ;;;
  let '(enc', mp3buf) := flush enc in
  modify (fun p =>
    let c := vars f p in
    with_vars f (Build_capture (audioContext c) (micStream c)
      (scriptProcessor c) (Some enc')
      (if (0 <? length mp3buf)%nat then mp3Data c ++ [mp3buf] else mp3Data c)) p) ;;;
  parts <- get (fun p => mp3Data (vars f p)) ;;
  ret (Blob parts "audio/mp3").

Definition finalize (f : flow) : action blob :=
  disconnect f ;;;
  stop_tracks f ;;;
  flush_encoder f.

(** [formattedDateTime] of [stopBtn.onclick]. *)
Definition formattedDateTime (currentDate : local_date) : string :=
  let year := getFullYear currentDate in
  let month := padStart 2 "0" (Number_toString (getMonth currentDate + 1)) in
  let day := padStart 2 "0" (Number_toString (getDate currentDate)) in
  let hours := padStart 2 "0" (Number_toString (getHours currentDate)) in
  let minutes := padStart 2 "0" (Number_toString (getMinutes currentDate)) in
  let seconds := padStart 2 "0" (Number_toString (getSeconds currentDate)) in
  Number_toString year +:+ month +:+ day +:+ hours +:+ minutes +:+ seconds.

(** [clearInterval(id)]; an undefined [id] clears nothing. *)
Definition clearInterval (id : option nat) : action unit :=
  match id with
  | Some t => modify (fun p => with_intervals (<[t := false]> (intervals p)) p)
  | None => ret tt
  end.

(** The constants local to a run of [stopBtn.onclick]. *)
Record stop_locals := {
  stop_blob : blob;
  stop_url : string;
  stop_formattedDateTime : string;
  stop_formData : FormData;
}.

(** [stopBtn.onclick], up to and including the loading modal;
    [currentDate] is what [new Date()] reports. *)
Definition stop_recording (currentDate : local_date) : action stop_locals :=
  blob <- finalize Primary ;;
  url <- createObjectURL blob ;;
  set_element "audioPlayback" (with_src url) ;;;
  set_element "downloadLink" (with_href url) ;;;
  set_element "startBtn" (with_disabled false) ;;;
  set_element "stopBtn" (with_disabled true) ;;;
  let formatted := formattedDateTime currentDate in
  set_element "downloadLink" (with_download (formatted +:+ ".mp3")) ;;;
  set_element "local_datetime" (with_value formatted) ;;;
  set_element "downloadLink" (with_display "block") ;;;
  t <- get timerInterval ;;
  clearInterval t ;;;
  set_element "timerDisplay"
    (fun e => with_textContent (textContent e +:+ " (Stopped)") e) ;;;
  tz <- get timezoneOffset ;;
  let formData :=
    append "timezone_offset" (FormString (Number_toString tz))
      (append "local_datetime" (FormString formatted)
         (append "new_file" (FormString "true")
            (append "file" (FormFile blob (formatted +:+ ".mp3")) []))) in
  textModal "Please wait for transcription to complete..." ;;;
  ret {| stop_blob := blob; stop_url := url;
         stop_formattedDateTime := formatted; stop_formData := formData |}.

(** [stopBtn.onclick]: the above, then the last statement,
    [fetchTranscription(url, token)].  Neither the handler nor an
    enclosing function declares [token]. *)
Definition stopBtn_onclick (currentDate : local_date) : action stop_locals :=
  l <- stop_recording currentDate ;;
  _ <- resolve "token" ;;
  fetchTranscription (stop_url l) ;;;
  ret l.

(** [voiceChatStopBtn.onclick].  The script is served as a static file,
    so the template tags in it reach the browser as written. *)
Definition voiceChatStopBtn_onclick : action FormData :=
  blob <- finalize VoiceChat ;;
  _ <- createObjectURL blob ;;
  set_element "voiceChatStartBtn" (with_disabled false) ;;;
  set_element "voiceChatStartBtn" (with_display "inline-flex") ;;;
  set_element "voiceChatStopBtn" (with_disabled true) ;;;
  set_element "voiceChatStopBtn" (with_display "none") ;;;
  let formData :=
    append "instruction_audio" (FormString "true")
      (append "file" (FormFile blob "instruction_audio.mp3") []) in
  _ <- getElementById "edit_chat" ;;
  textModal "Please wait for voice instruction transcription to complete..." ;;;
  record (CallFetch VoiceChat
    {| req_url := "{% url 'transcriber:api_basic_transcribe' %}";
       req_method := "POST";
       req_headers := [("X-CSRFToken", VStr "{{ csrf_token }}")];
       req_body := VFormData formData |}) ;;;
  ret formData.

(** *** Events *)

(** What the browser can deliver to the page once it is loaded.  A
    click on a start button comes with the sample rate of the context it
    makes; [UserMedia k granted] is the [k]-th call of [getUserMedia]
    settling, resolved with a new stream or rejected. *)
Inductive event :=
| ClickStart (rate : Z)
| ClickStop (currentDate : local_date)
| ClickVoiceStart (rate : Z)
| ClickVoiceStop
| AudioProcess (n : nat) (input : list spec_float)
| IntervalTick (t : nat)
| FetchSettled (f : flow) (o : fetch_outcome)
| WindowClick (target : string)
| UserMedia (k : nat) (granted : bool).

(** A button takes clicks when it exists and is not disabled. *)
Definition clickable (id : string) (p : page encoder) : bool :=
  match document p !! id with
  | Some e => negb (disabled e)
  | None => false
  end.

(** The flow whose callback is installed on the node [n].  The scripts
    never take a callback off a node. *)
Definition callback_of (n : nat) (p : page encoder) : option flow :=
  match nodes p !! n with
  | Some nd => onaudioprocess nd
  | None => None
  end.

(** The flow whose start handler is suspended on the [k]-th call of
    [getUserMedia]. *)
Definition awaited (k : nat) (p : page encoder) : option flow :=
  match awaits p !! k with
  | Some a => a
  | None => None
  end.

(** Delivering one event: the handler, if any, runs to completion (a
    start handler, to its [await] or from it); an error it throws is
    not caught by the page.  An [audioprocess] event runs the callback
    of its node; when the platform sends such events is left to it. *)
Definition dispatch (e : event) (p : page encoder) : page encoder :=
  match e with
  | ClickStart rate =>
      if clickable "startBtn" p
      then page_of (startBtn_onclick rate p) else p
  | ClickStop currentDate =>
      if clickable "stopBtn" p
      then page_of (stopBtn_onclick currentDate p) else p
  | ClickVoiceStart rate =>
      if clickable "voiceChatStartBtn" p
      then page_of (voiceChatStartBtn_onclick rate p) else p
  | ClickVoiceStop =>
      if clickable "voiceChatStopBtn" p
      then page_of (voiceChatStopBtn_onclick p) else p
  | AudioProcess n input =>
      match callback_of n p with
      | Some f => page_of (scriptProcessor_onaudioprocess f input p)
      | None => p
      end
  | IntervalTick t =>
      match intervals p !! t with
      | Some true => page_of (interval_callback p)
      | _ => p
      end
  | FetchSettled f o => page_of (fetch_settled f o p)
  | WindowClick target => page_of (window_onclick target p)
  | UserMedia k granted =>
      match awaited k p with
      | Some f =>
          page_of (resumed f granted
                     (with_awaits (<[k := None]> (awaits p)) p))
      | None => p
      end
  end.

(** Delivering a sequence of events, one after the other. *)
Definition run (es : list event) (p : page encoder) : page encoder :=
  fold_left (fun q e => dispatch e q) es p.

(** *** Relating the page before and after

    [keeps R m]: however [m] ends, the page it leaves is related by [R]
    to the page it started on. *)
Definition keeps {A} (R : page encoder -> page encoder -> Prop)
    (m : action A) : Prop :=
  forall p, R p (page_of (m p)).

(** The observation [g] has the same value before and after. *)
Definition same {X} (g : page encoder -> X) : page encoder -> page encoder -> Prop :=
  fun p q => g q = g p.

(** The chunk buffer of flow [f] only grows at its end. *)
Definition appended (f : flow) : page encoder -> page encoder -> Prop :=
  fun p q => mp3Data (vars f p) `prefix_of` mp3Data (vars f q).

(** The nodes that carry the callback of flow [f] are the same. *)
Definition carried (f : flow) : page encoder -> page encoder -> Prop :=
  fun p q => forall n, callback_of n q = Some f <-> callback_of n p = Some f.

(** No further start handler of flow [f] is suspended. *)
Definition suspended_le (f : flow) : page encoder -> page encoder -> Prop :=
  fun p q => forall k, awaited k q = Some f -> awaited k p = Some f.

(** The buttons and the click events of a flow. *)
Definition start_button (f : flow) : string :=
  match f with Primary => "startBtn" | VoiceChat => "voiceChatStartBtn" end.

Definition stop_button (f : flow) : string :=
  match f with Primary => "stopBtn" | VoiceChat => "voiceChatStopBtn" end.

Definition is_start (f : flow) (e : event) : bool :=
  match f, e with
  | Primary, ClickStart _ => true
  | VoiceChat, ClickVoiceStart _ => true
  | _, _ => false
  end.

Definition is_stop (f : flow) (e : event) : bool :=
  match f, e with
  | Primary, ClickStop _ => true
  | VoiceChat, ClickVoiceStop => true
  | _, _ => false
  end.

(** [el.disabled] of the element [id], when there is one. *)
Definition disabled_of (id : string) (p : page encoder) : option bool :=
  disabled <$> document p !! id.

(** What a session of flow [f] is observed by, from its start to its
    stop. *)
Definition session_view (f : flow) (p : page encoder) :=
  (vars f p, disabled_of (start_button f) p, disabled_of (stop_button f) p,
   nodes p, streams p, awaits p, object_urls p, log p).

(** The four buttons of the recorder. *)
Definition is_button (k : string) : Prop :=
  k = "startBtn"%string \/ k = "stopBtn"%string
  \/ k = "voiceChatStartBtn"%string \/ k = "voiceChatStopBtn"%string.

(** The click that starts, and the click that stops, flow [f]. *)
Definition start_event (f : flow) (rate : Z) : event :=
  match f with
  | Primary => ClickStart rate
  | VoiceChat => ClickVoiceStart rate
  end.

Definition stop_event (f : flow) (d : local_date) : event :=
  match f with
  | Primary => ClickStop d
  | VoiceChat => ClickVoiceStop
  end.

(** The elements a stop handler writes before it disables its button. *)
Definition stop_ready (f : flow) (p : page encoder) : Prop :=
  match f with
  | Primary =>
      is_Some (document p !! "audioPlayback")
      /\ is_Some (document p !! "downloadLink")
      /\ is_Some (document p !! "startBtn")
  | VoiceChat => is_Some (document p !! "voiceChatStartBtn")
  end.

(** The event resumes a start handler of [f] with the microphone
    granted: it starts a session of [f]. *)
Definition resumes (f : flow) (e : event) (p : page encoder) : bool :=
  match e with
  | UserMedia k granted => granted && bool_decide (awaited k p = Some f)
  | _ => false
  end.

(** A page on which no capture has been set up yet. *)
Definition pristine (p : page encoder) : Prop :=
  nodes p = [] /\ recorder p = undefined_capture /\ chat p = undefined_capture.

(** What the encoder puts out for a sequence of PCM blocks, block by
    block, and the encoder it becomes. *)
Fixpoint encode_all (enc : encoder) (blocks : list (list Z))
  : encoder * list (list Byte.byte) :=
  match blocks with
  | [] => (enc, [])
  | b :: bs =>
      let '(enc1, out) := encodeBuffer enc b in
      let '(enc2, outs) := encode_all enc1 bs in
      (enc2, out :: outs)
  end.

(** The chunks that reach the buffer: the non-empty ones. *)
Definition non_empty (c : list Byte.byte) : bool := (0 <? length c)%nat.

(** *** Observations *)

(** [modal.style.display], when there is a modal. *)
Definition modal_display (p : page encoder) : option string :=
  display <$> document p !! "modal".

(** The modal is hidden when its [display] is [none]. *)
Definition modal_hidden (p : page encoder) : Prop :=
  modal_display p = Some "none"%string.

(** The errors written to the console, oldest first. *)
Definition console (p : page encoder) : list error :=
  omap (fun c => match c with CallConsoleError e => Some e | _ => None end)
       (log p).

(** The requests given to [fetch], oldest first. *)
Definition fetched (p : page encoder) : list request :=
  omap (fun c => match c with CallFetch _ r => Some r | _ => None end)
       (log p).

End Scripts.

Arguments event : clear implicits.

(** ** A concrete page

    A stand-in for lamejs and a document with the elements the scripts
    look up, to run the handlers on. *)
Module Demo.

(** An encoder that buffers samples and emits one byte for every four
    of them; flushing emits one byte per sample still buffered. *)
#[global] Instance codec : Lamejs nat := {
  Mp3Encoder _ _ _ := 0%nat;
  encodeBuffer buffered pcm :=
    let total := (buffered + length pcm)%nat in
    ((total mod 4)%nat, repeat Byte.x4d (total / 4)%nat);
  flush buffered := (0%nat, repeat Byte.xff buffered);
}.

Definition blank : element := {|
  disabled := false; display := ""; value := ""; textContent := "";
  src := ""; href := ""; download := ""; controls := ∅;
|}.

Definition elements : gmap string element :=
  list_to_map [
    ("startBtn", blank);
    ("stopBtn", with_disabled true blank);
    ("audioPlayback", blank);
    ("downloadLink", blank);
    ("timerDisplay", blank);
    ("timezone_offset", blank);
    ("local_datetime", blank);
    ("voiceChatStartBtn", blank);
    ("voiceChatStopBtn", with_disabled true (with_display "none" blank));
    ("modal", with_display "none" blank);
    (modal_content, blank);
    ("no-transcription-message", blank);
    ("form-container", with_display "none" blank);
    ("reformat",
      with_controls (list_to_map [("filename", ""); ("transcript", "")]) blank);
    ("soap-text-container", blank);
    (soap_iframe, blank);
    ("edit_chat", with_controls (list_to_map [("input", "")]) blank)
  ]%string.

(** The page as the browser hands it to the scripts. *)
Definition served (c : string) (g : gmap string jsval) : page nat := {|
  recorder := undefined_capture; chat := undefined_capture;
  timerInterval := None; seconds := 0; timezoneOffset := 0;
  document := elements; cookie := c; globals := g;
  nodes := []; streams := []; intervals := []; awaits := [];
  object_urls := []; log := [];
|}.

(** The page once [DOMContentLoaded] has run, in a timezone where the
    platform reports [tz]. *)
Definition loaded (tz : Z) (c : string) (g : gmap string jsval) : page nat :=
  page_of (DOMContentLoaded tz (served c g)).

(** Half a second of silence and half a second of a full-scale square
    wave, in blocks of six samples. *)
Definition silence : list spec_float := repeat (S754_zero false) 6.
Definition square : list spec_float :=
  [S754_finite false 8388608 (-23); S754_finite true 8388608 (-23);
   S754_finite false 8388608 (-23); S754_finite true 8388608 (-23);
   S754_finite false 8388608 (-23); S754_finite true 8388608 (-23)].

(** 5 March 2024, 07:08:09 local time. *)
Definition march5 : local_date := {|
  getFullYear := 2024; getMonth := 2; getDate := 5;
  getHours := 7; getMinutes := 8; getSeconds := 9;
|}.

(** A recording in progress, and the same once stop was clicked. *)
Definition recording_on (g : gmap string jsval) : page nat :=
  run [ClickStart 44100; UserMedia 0 true; AudioProcess 0 square;
       IntervalTick 0; AudioProcess 0 silence; AudioProcess 0 square]
      (loaded (-60) "" g).

Definition recording : page nat := recording_on ∅.

(** Globals such as a template could define. *)
Definition template_globals : gmap string jsval :=
  <["token" := VStr "t"]> (<["formData" := VStr "stale"]> ∅).

Definition stopped : page nat := dispatch (ClickStop march5) recording.

End Demo.

(** ** More of the scripts, and what is observed of them *)

(** *** recorder.js: the rest of page load *)

Section LoadDefs.
Context {encoder : Type} `{!Lamejs encoder}.

(** The whole [DOMContentLoaded] listener of recorder.js: the part
    modelled as [DOMContentLoaded]; then the forms [edit_soap] and
    [edit_chat] and the spinner are looked up and the mutation observer
    is created and set to watch the document, none of which can throw;
    the observer is written to the console with [console.log], which
    the log of calls, keeping of the console only the errors written to
    it, does not record; and last a [submit] listener is added to each
    of the two forms.  [addEventListener] on a form that is not there is
    a TypeError. *)
Definition DOMContentLoaded_listener (tz : Z) : action (encoder := encoder) unit :=
  DOMContentLoaded tz ;;;
  _ <- get_element "edit_soap" ;;
  _ <- get_element "edit_chat" ;;
  ret tt.

End LoadDefs.

(** *** modal.js as a whole *)

Section ModalCalls.
Context {encoder : Type} `{!Lamejs encoder}.

(** The ways into modal.js: its three functions, and a click somewhere
    in the window. *)
Inductive modal_call :=
| TextModal (content : string)
| StaticModal
| CloseModal
| ClickOn (target : string).

Definition modal_action (c : modal_call) : action (encoder := encoder) unit :=
  match c with
  | TextModal content => textModal content
  | StaticModal => staticModal
  | CloseModal => closeModal
  | ClickOn target => window_onclick target
  end.

(** Calls made one after the other; the first that throws ends the
    sequence. *)
Fixpoint modal_calls (cs : list modal_call) : action (encoder := encoder) unit :=
  match cs with
  | [] => ret tt
  | c :: cs' => modal_action c ;;; modal_calls cs'
  end.

End ModalCalls.

(** The modal as a two-state machine: what [style.display] and the text
    of the content box are after a call, given what they were. *)
Definition display_step (c : modal_call) (d : string) : string :=
  match c with
  | TextModal _ | StaticModal => "block"
  | CloseModal => "none"
  | ClickOn target => if String.eqb target "modal" then "none" else d
  end.

Definition text_step (c : modal_call) (t : string) : string :=
  match c with
  | TextModal content => content
  | _ => t
  end.

(** *** Answers of the server *)

(** An answer of the transcription endpoint with all its parts, and an
    answer to a voice instruction. *)
Definition transcribed (t : transcription) : response_data :=
  {| data_context := Some {| ctx_transcription := Some t; ctx_transcript := None |} |}.

Definition heard (t : option string) : response_data :=
  {| data_context := Some {| ctx_transcription := None; ctx_transcript := t |} |}.

(** [`${v}`] for a string or undefined. *)
Definition template (v : option string) : string :=
  match v with Some s => s | None => "undefined" end.

(** A transcription, and a page on which the transcript form was
    edited: the form and its button carry the name [reformat_edited]. *)
Definition sample_note : transcription :=
  {| filename := "a.mp3"; transcript := "cough"; formatted_text := "S: cough" |}.


Definition edited_elements : gmap string element :=
  <[submit_button "reformat_edited" := Demo.blank]>
    (<["reformat_edited" :=
         with_controls (list_to_map [("filename", "old.mp3"); ("transcript", "old")])
           Demo.blank]>
       (delete "reformat" Demo.elements)).

(** The request of a voice instruction, for a given recording. *)
Definition instruction_request (artifact : blob) : request :=
  {| req_url := "{% url 'transcriber:api_basic_transcribe' %}";
     req_method := "POST";
     req_headers := [("X-CSRFToken"%string, VStr "{{ csrf_token }}")];
     req_body := VFormData [("file"%string, FormFile artifact "instruction_audio.mp3");
                            ("instruction_audio"%string, FormString "true")] |}.

(** *** Sessions *)

Section SessionDefs.
Context {encoder : Type} `{!Lamejs encoder}.

(** What changes in a page while only its timer ticks. *)
Definition ticked (p q : page encoder) : Prop :=
  recorder q = recorder p /\ chat q = chat p
  /\ timerInterval q = timerInterval p /\ intervals q = intervals p
  /\ nodes q = nodes p /\ streams q = streams p
  /\ object_urls q = object_urls p /\ log q = log p /\ globals q = globals p
  /\ forall k, k <> "timerDisplay"%string -> document q !! k = document p !! k.

(** The start and the stop button of a flow are not both enabled. *)
Definition exclusive (f : flow) (p : page encoder) : Prop :=
  clickable (start_button f) p = true -> clickable (stop_button f) p = false.

(** An event that belongs to the other flow or to none, on the page
    [p]: not a click on a button of [f], not the resumption of a start
    handler of [f], and not a callback of a node that carries the
    callback of [f]. *)
Definition apart (f : flow) (p : page encoder) (e : event) : Prop :=
  is_start f e = false /\ is_stop f e = false
  /\ resumes f e p = false
  /\ forall n input, e = AudioProcess n input -> callback_of n p <> Some f.

(** The blocks the callback of [f] is run on while the events [es] are
    delivered, the nodes that carry it being those of [p]. *)
Definition blocks_of (f : flow) (p : page encoder) (es : list event)
  : list (list spec_float) :=
  omap (fun e =>
          match e with
          | AudioProcess n input =>
              if decide (callback_of n p = Some f) then Some input else None
          | _ => None
          end) es.

End SessionDefs.

(** *** Requests and microphone streams *)

Section RequestDefs.
Context {encoder : Type} `{!Lamejs encoder}.

(** The requests of the transcription exchange, oldest first. *)
Definition transcription_requests (p : page encoder) : list request :=
  omap (fun c => match c with CallFetch Primary r => Some r | _ => None end)
       (log p).

(** Nothing is called [token]: no global, and no element for named
    access. *)
Definition no_token (p : page encoder) : Prop :=
  globals p !! "token" = None /\ document p !! "token" = None.

(** While nothing is called [token], nothing comes to be called so and
    no transcription is requested. *)
Definition unsent (p q : page encoder) : Prop :=
  no_token p -> no_token q /\ transcription_requests q = transcription_requests p.

(** A stream whose tracks are stopped stays so. *)
Definition released (p q : page encoder) : Prop :=
  forall s, streams p !! s = Some false -> streams q !! s = Some false.

End RequestDefs.

(** *** Dates, cookies and sample values *)

(** The fields of a date as [Date] reports them, in a year that is not
    negative. *)
Definition valid_date (d : local_date) : Prop :=
  0 <= getFullYear d
  /\ 0 <= getMonth d <= 11
  /\ 1 <= getDate d <= 31
  /\ 0 <= getHours d <= 23
  /\ 0 <= getMinutes d <= 59
  /\ 0 <= getSeconds d <= 59.

(** [document.cookie] of a page with the given cookies, each written
    [name=value]: the entries joined by a semicolon and a space. *)
Fixpoint cookie_of (rows : list string) : string :=
  match rows with
  | [] => ""
  | row :: rows' =>
      match rows' with
      | [] => row
      | _ :: _ => row +:+ "; " +:+ cookie_of rows'
      end
  end.

(** The value of a sample that is not NaN, clamped to [-1, 1]. *)
Definition clamped (x : spec_float) : Q :=
  match x with
  | S754_infinity true => -1
  | S754_infinity false => 1
  | _ => Qmax (-1) (Qmin 1 (Number.to_Q x))
  end.

(** The product of which the conversion keeps the integer part. *)
Definition scaled (s : Q) : Q :=
  if Qlt_le_dec s 0 then (s * 32768)%Q else (s * 32767)%Q.

(** * Properties *)

(** ** Reasoning about handlers *)

Section Logic.
Context {encoder : Type} `{!Lamejs encoder}.
Implicit Types p q : page encoder.

Lemma page_of_bind {A B} (m : action A) (k : A -> action B) p :
  page_of (bind m k p)
  = match m p with
    | Done a q => page_of (k a q)
    | Raised _ q => q
    end.
Proof. unfold bind. destruct (m p); reflexivity. Qed.

Lemma bind_Done {A B} (m : action A) (k : A -> action B) p b q :
  bind m k p = Done b q <-> exists a p1, m p = Done a p1 /\ k a p1 = Done b q.
Proof.
  unfold bind. split.
  - destruct (m p) as [a p1|e p1]; [eauto | discriminate].
  - intros (a & p1 & -> & Hk). exact Hk.
Qed.

Section Keeps.
Context (R : page encoder -> page encoder -> Prop) `{!PreOrder R}.

Lemma keeps_ret {A} (a : A) : keeps R (ret a).
Proof. intros p. reflexivity. Qed.

Lemma keeps_throw {A} e : keeps R (throw (A := A) e).
Proof. intros p. reflexivity. Qed.

Lemma keeps_get {A} (g : page encoder -> A) : keeps R (get g).
Proof. intros p. reflexivity. Qed.

Lemma keeps_lift {A} (c : completion A) : keeps R (lift c).
Proof. intros p. unfold lift. destruct c; reflexivity. Qed.

Lemma keeps_defined {A} name (v : option A) : keeps R (defined name v).
Proof. intros p. destruct v; reflexivity. Qed.

Lemma keeps_bind {A B} (m : action A) (k : A -> action B) :
  keeps R m -> (forall a, keeps R (k a)) -> keeps R (bind m k).
Proof.
  intros Hm Hk p. rewrite page_of_bind. specialize (Hm p).
  destruct (m p) as [a q|e q]; cbn in Hm; [|exact Hm].
  etransitivity; [exact Hm | apply Hk].
Qed.

Lemma keeps_catch {A} (m : action A) (h : error -> action A) :
  keeps R m -> (forall e, keeps R (h e)) -> keeps R (catch m h).
Proof.
  intros Hm Hh p. unfold catch. specialize (Hm p).
  destruct (m p) as [a q|e q]; cbn in Hm |- *; [exact Hm|].
  etransitivity; [exact Hm | apply Hh].
Qed.

Lemma keeps_modify (f : page encoder -> page encoder) :
  (forall p, R p (f p)) -> keeps R (modify f).
Proof. intros H p. apply H. Qed.

Lemma keeps_set_element id (f : element -> element) :
  (forall p e, document p !! id = Some e ->
               R p (with_document (<[id := f e]> (document p)) p)) ->
  keeps R (set_element id f).
Proof.
  intros H p. unfold set_element.
  destruct (document p !! id) as [e|] eqn:He; cbn; [apply H, He | reflexivity].
Qed.

Lemma keeps_get_element id : keeps R (get_element id).
Proof. intros p. unfold get_element. destruct (document p !! id); reflexivity. Qed.

Lemma keeps_resolve name : keeps R (resolve name).
Proof.
  intros p. unfold resolve.
  destruct (globals p !! name); [reflexivity|].
  destruct (document p !! name); reflexivity.
Qed.

End Keeps.

#[global] Instance same_preorder {X} (g : page encoder -> X) : PreOrder (@same encoder X g).
Proof. split; [intros p; reflexivity | intros p q r H1 H2; unfold same in *; congruence]. Qed.

#[global] Instance appended_preorder f : PreOrder (@appended encoder f).
Proof.
  split; [intros p; unfold appended; reflexivity|].
  intros p q r H1 H2. unfold appended in *. etransitivity; eauto.
Qed.

Lemma keeps_Done {A} R (m : action A) p a q :
  keeps R m -> m p = Done a q -> R p q.
Proof. intros H Hm. specialize (H p). rewrite Hm in H. exact H. Qed.

Lemma keeps_page_of {A} R (m : action A) p : keeps R m -> R p (page_of (m p)).
Proof. intros H. apply H. Qed.

End Logic.

(** Splitting a handler into its steps; [side] proves what is asked of
    each step that changes the page. *)
Create HintDb frames discriminated.

Ltac keeps_steps side :=
  repeat first
    [ solve [auto 2 with frames nocore]
    | apply keeps_ret; solve [typeclasses eauto]
    | apply keeps_throw; solve [typeclasses eauto]
    | apply keeps_get; solve [typeclasses eauto]
    | apply keeps_lift; solve [typeclasses eauto]
    | apply keeps_defined; solve [typeclasses eauto]
    | apply keeps_get_element; solve [typeclasses eauto]
    | apply keeps_resolve; solve [typeclasses eauto]
    | apply keeps_bind; [typeclasses eauto | | intros ?]
    | apply keeps_catch; [typeclasses eauto | | intros ?]
    | apply keeps_modify; solve [side]
    | apply keeps_set_element; [typeclasses eauto | solve [side]]
    | match goal with
      | |- keeps _ (match ?x with _ => _ end) => destruct x
      | |- keeps _ (let '(_, _) := ?x in _) => destruct x
      | |- keeps _ (if ?b then _ else _) => destruct b
      end ].


(** ** Strings and decimal numerals *)

Lemma all_below_spec k P :
  all_below k P = true -> forall n, 0 <= n < Z.of_nat k -> P n = true.
Proof.
  unfold all_below. rewrite forallb_forall. intros H n Hn.
  apply H. apply in_map_iff. exists (Z.to_nat n). split; [lia|].
  apply in_seq. lia.
Qed.

Lemma string_length_app (a b : string) :
  String.length (a +:+ b) = (String.length a + String.length b)%nat.
Proof.
  induction a as [|c a IH]; [reflexivity|].
  change (S (String.length (a +:+ b))
          = S (String.length a + String.length b)).
  now rewrite IH.
Qed.

Lemma padStart_long n c s : (n <= String.length s)%nat -> padStart n c s = s.
Proof.
  intros H. unfold padStart.
  replace (n - String.length s)%nat with 0%nat by lia. reflexivity.
Qed.

(** A number below 100, padded to width two, is its two digits. *)
Lemma padStart_two_digits n :
  0 <= n < 100 -> padStart 2 "0" (Number_toString n) = two_digits n.
Proof.
  intros Hn. apply String.eqb_eq.
  apply (all_below_spec 100
           (fun n => String.eqb (padStart 2 "0" (Number_toString n)) (two_digits n)));
    [vm_compute; reflexivity | lia].
Qed.

Lemma two_digits_shape n :
  0 <= n < 100 ->
  forallb is_digit (list_ascii_of_string (two_digits n)) = true
  /\ String.length (two_digits n) = 2%nat.
Proof.
  intros Hn. split; [|reflexivity].
  apply (all_below_spec 100
           (fun n => forallb is_digit (list_ascii_of_string (two_digits n))));
    [vm_compute; reflexivity | lia].
Qed.

(** The numeral of a number of three digits or more is that long. *)
Lemma of_uint_short u :
  (Decimal.nb_digits u <= 2)%nat -> (Pos.of_uint u < 100)%N.
Proof.
  intros H.
  destruct u as [|u|u|u|u|u|u|u|u|u|u]; cbn in H; try (vm_compute; reflexivity);
  destruct u as [|u|u|u|u|u|u|u|u|u|u]; cbn in H; try (vm_compute; reflexivity);
  destruct u; cbn in H; try lia; vm_compute; reflexivity.
Qed.

Lemma string_of_uint_length u :
  String.length (NilEmpty.string_of_uint u) = Decimal.nb_digits u.
Proof. induction u; cbn; congruence. Qed.

Lemma Number_toString_long n :
  100 <= n -> (3 <= String.length (Number_toString n))%nat.
Proof.
  intros Hn. unfold Number_toString.
  destruct n as [|q|q]; try lia.
  change (Z.to_int (Z.pos q)) with (Decimal.Pos (Pos.to_uint q)).
  cbn [NilZero.string_of_int]. unfold NilZero.string_of_uint.
  pose proof (DecimalPos.Unsigned.of_to q) as Hq.
  pose proof (of_uint_short (Pos.to_uint q)) as Hshort.
  pose proof (string_of_uint_length (Pos.to_uint q)) as Hlen.
  destruct (Pos.to_uint q) eqn:Hu;
    [ cbn in Hq; discriminate | .. ]; rewrite Hlen.
  all: destruct (le_lt_dec 3 (Decimal.nb_digits (Pos.to_uint q))) as [Hge|Hlt];
    rewrite Hu in *; [exact Hge|].
  all: assert (Hs : (Pos.of_uint (Pos.to_uint q) < 100)%N)
         by (rewrite Hu; apply Hshort; lia).
  all: rewrite DecimalPos.Unsigned.of_to in Hs; lia.
Qed.


(** The stamp of a date has no underscore. *)
Lemma free_of_app c a b : free_of c a -> free_of c b -> free_of c (a +:+ b).
Proof.
  unfold free_of. induction a as [|x a IH]; cbn; [tauto|].
  intros Ha Hb [Hx|Hin]; [tauto|]. apply IH; tauto.
Qed.

Lemma free_of_fill c x k s : x <> c -> free_of c s -> free_of c (fill x k s).
Proof.
  intros Hx Hs. induction k as [|k IH]; cbn; [exact Hs|].
  unfold free_of in *. cbn. tauto.
Qed.

Lemma free_of_uint u : free_of "_" (NilEmpty.string_of_uint u).
Proof.
  unfold free_of.
  induction u; cbn; try tauto; intros [H|H]; try discriminate; tauto.
Qed.

Lemma free_of_Number_toString z : free_of "_" (Number_toString z).
Proof.
  unfold Number_toString.
  destruct (Z.to_int z) as [u|u]; cbn [NilZero.string_of_int].
  - unfold NilZero.string_of_uint. destruct u; try apply free_of_uint.
    unfold free_of. cbn. intros [H|[]]. discriminate.
  - unfold free_of. cbn. intros [H|H]; [discriminate|].
    revert H. unfold NilZero.string_of_uint. destruct u; try apply free_of_uint.
    cbn. intros [H|[]]. discriminate.
Qed.

Lemma free_of_formattedDateTime d : free_of "_" (formattedDateTime d).
Proof.
  unfold formattedDateTime, padStart.
  repeat apply free_of_app;
    first [ apply free_of_Number_toString
          | apply free_of_fill; [discriminate | apply free_of_Number_toString] ].
Qed.

Lemma is_stamp_underscore s : is_stamp s = true -> In "_"%char (list_ascii_of_string s).
Proof.
  unfold is_stamp.
  destruct (list_ascii_of_string s) as [|y3 [|y2 [|y1 [|y0 [|m1 [|m0 [|d1 [|d0 [|u [|h1 [|h0 [|n1 [|n0 [|s1 [|s0 [|x l]]]]]]]]]]]]]]]];
    try discriminate.
  intros H. apply andb_prop in H as [_ Hu]. apply Ascii.eqb_eq in Hu. subst u.
  cbn. tauto.
Qed.

(** ** The timer text *)

Example formatTime_three_seconds : formatTime 3 = "00:03"%string.
Proof. reflexivity. Qed.

Example formatTime_754_seconds : formatTime 754 = "12:34"%string.
Proof. reflexivity. Qed.

Lemma is_mm_ss_length s : is_mm_ss s = true -> String.length s = 5%nat.
Proof.
  unfold is_mm_ss.
  destruct s as [|a [|b [|c [|d [|e [|f s]]]]]]; cbn; try discriminate.
  reflexivity.
Qed.

(** The seconds field always has exactly two digits. *)
Lemma formatTime_fields sec :
  0 <= sec ->
  formatTime sec
  = padStart 2 "0" (Number_toString (sec / 60)) +:+ ":" +:+
    two_digits (sec mod 60).
Proof.
  intros Hsec. unfold formatTime.
  rewrite Z.rem_mod_nonneg by lia.
  rewrite (padStart_two_digits (sec mod 60)); [reflexivity|].
  pose proof (Z.mod_pos_bound sec 60). lia.
Qed.

(** C9, as stated, fails once the count reaches 100 minutes: the
    minutes field of 6000 seconds has three digits. *)
Lemma formatTime_hundred_minutes :
  0 <= 6000
  /\ formatTime 6000 = "100:00"%string
  /\ is_mm_ss (formatTime 6000) = false.
Proof. repeat split; try reflexivity. lia. Qed.

(** C9, amended.  For a count of 0 to 5999 seconds the text is the
    two-digit minutes, a colon, and the two-digit seconds.  From 6000
    seconds on the seconds still take two digits, and the minutes are
    written in full, with three digits or more. *)
Theorem formatTime_mm_ss sec :
  0 <= sec ->
  (sec < 6000 ->
     formatTime sec = two_digits (sec / 60) +:+ ":" +:+ two_digits (sec mod 60)
     /\ is_mm_ss (formatTime sec) = true)
  /\ (6000 <= sec ->
        formatTime sec
        = Number_toString (sec / 60) +:+ ":" +:+ two_digits (sec mod 60)
        /\ (3 <= String.length (Number_toString (sec / 60)))%nat
        /\ is_mm_ss (formatTime sec) = false).
Proof.
  intros Hsec. rewrite (formatTime_fields sec Hsec). split; intros Hb.
  - assert (Hm : 0 <= sec / 60 < 100).
    { split; [apply Z.div_pos; lia | apply Z.div_lt_upper_bound; lia]. }
    assert (Hs : 0 <= sec mod 60 < 100).
    { pose proof (Z.mod_pos_bound sec 60). lia. }
    rewrite (padStart_two_digits _ Hm). split; [reflexivity|].
    destruct (two_digits_shape _ Hm) as [Hdm _].
    destruct (two_digits_shape _ Hs) as [Hds _].
    unfold two_digits in *.
    set (m1 := digit (sec / 60 / 10)) in *.
    set (m0 := digit ((sec / 60) mod 10)) in *.
    set (s1 := digit (sec mod 60 / 10)) in *.
    set (s0 := digit ((sec mod 60) mod 10)) in *.
    change (is_digit m1 && is_digit m0 && Ascii.eqb ":" ":"
            && is_digit s1 && is_digit s0 = true).
    change (is_digit m1 && (is_digit m0 && true) = true) in Hdm.
    change (is_digit s1 && (is_digit s0 && true) = true) in Hds.
    rewrite !andb_true_r in Hdm, Hds.
    apply andb_prop in Hdm as [-> ->]. apply andb_prop in Hds as [-> ->].
    reflexivity.
  - assert (Hm : 100 <= sec / 60) by (apply Z.div_le_lower_bound; lia).
    pose proof (Number_toString_long _ Hm) as Hlen.
    rewrite padStart_long by lia.
    repeat split; [exact Hlen|].
    apply not_true_is_false. intros Hshape%is_mm_ss_length.
    rewrite !string_length_app in Hshape. cbn in Hshape. lia.
Qed.

Lemma formatTime_mm_ss_holds :
  (0 <= 754
   /\ 754 < 6000
   /\ formatTime 754 = "12:34"%string
   /\ is_mm_ss (formatTime 754) = true)
  /\ (0 <= 6059
      /\ 6000 <= 6059
      /\ formatTime 6059 = "100:59"%string
      /\ (3 <= String.length (Number_toString (6059 / 60)))%nat
      /\ is_mm_ss (formatTime 6059) = false).
Proof.
  assert (H0 : 0 <= 754) by lia.
  assert (H1 : 754 < 6000) by lia.
  assert (H2 : 0 <= 6059) by lia.
  assert (H3 : 6000 <= 6059) by lia.
  destruct (formatTime_mm_ss 754 H0) as [Hlow _].
  destruct (formatTime_mm_ss 6059 H2) as [_ Hhigh].
  destruct (Hlow H1) as [Htext Hshape].
  destruct (Hhigh H3) as (Htext' & Hdigits & Hshape').
  exact (conj (conj H0 (conj H1 (conj Htext Hshape)))
              (conj H2 (conj H3 (conj Htext' (conj Hdigits Hshape'))))).
Defined.

(** ** The CSRF cookie *)

Example getCSRFToken_present :
  getCSRFToken "theme=dark; csrftoken=abc123; sid=9" = Ok (Some "abc123"%string).
Proof. reflexivity. Qed.

Example getCSRFToken_absent :
  getCSRFToken "theme=dark; sid=9" = Ok None.
Proof. reflexivity. Qed.

Example getCSRFToken_no_cookie : getCSRFToken "" = Ok None.
Proof. reflexivity. Qed.

(** Without the optional chain the second [split] would be called on
    undefined and throw. *)
Example split_of_undefined :
  exists e, call_split (find (startsWith "csrftoken=") (split "; " "sid=9")) "="
            = Throw e.
Proof. eexists. reflexivity. Qed.

Lemma find_none {A} (f : A -> bool) (l : list A) :
  (forall x, In x l -> f x = false) -> find f l = None.
Proof.
  induction l as [|x l IH]; intros H; [reflexivity|]. cbn.
  rewrite (H x) by (left; reflexivity).
  apply IH. intros y Hy. apply H. right. exact Hy.
Qed.

Lemma getCSRFToken_returns cookie : returns (getCSRFToken cookie).
Proof.
  unfold getCSRFToken, returns. cbn.
  destruct (find (startsWith "csrftoken=") (split "; " cookie)); cbn; eauto.
Qed.

Lemma getCSRFToken_undefined cookie :
  (forall row, In row (split "; " cookie) -> startsWith "csrftoken=" row = false) ->
  getCSRFToken cookie = Ok None.
Proof.
  intros H. unfold getCSRFToken. cbn. rewrite (find_none _ _ H). reflexivity.
Qed.

(** ** PCM conversion *)

(** *** Binary digits *)

Lemma digits2_pos_bounds p :
  2 ^ (Zpos (digits2_pos p) - 1) <= Zpos p < 2 ^ Zpos (digits2_pos p).
Proof.
  induction p as [p IH|p IH|]; cbn [digits2_pos].
  - rewrite Pos2Z.inj_succ.
    replace (Z.succ (Zpos (digits2_pos p)) - 1) with (Zpos (digits2_pos p)) by lia.
    rewrite Z.pow_succ_r by lia.
    assert (H : 2 ^ Zpos (digits2_pos p) = 2 * 2 ^ (Zpos (digits2_pos p) - 1)).
    { rewrite <- Z.pow_succ_r by lia. f_equal. lia. }
    lia.
  - rewrite Pos2Z.inj_succ.
    replace (Z.succ (Zpos (digits2_pos p)) - 1) with (Zpos (digits2_pos p)) by lia.
    rewrite Z.pow_succ_r by lia.
    assert (H : 2 ^ Zpos (digits2_pos p) = 2 * 2 ^ (Zpos (digits2_pos p) - 1)).
    { rewrite <- Z.pow_succ_r by lia. f_equal. lia. }
    lia.
  - cbn. lia.
Qed.

(** The number of digits is determined by the bounds. *)
Lemma digits2_pos_unique p d :
  2 ^ (Zpos d - 1) <= Zpos p < 2 ^ Zpos d -> digits2_pos p = d.
Proof.
  intros H. pose proof (digits2_pos_bounds p) as Hp.
  apply Pos2Z.inj.
  destruct (Z.lt_trichotomy (Zpos (digits2_pos p)) (Zpos d)) as [Hlt|[Heq|Hgt]];
    [|exact Heq|].
  - assert (2 ^ Zpos (digits2_pos p) <= 2 ^ (Zpos d - 1))
      by (apply Z.pow_le_mono_r; lia). lia.
  - assert (2 ^ Zpos d <= 2 ^ (Zpos (digits2_pos p) - 1))
      by (apply Z.pow_le_mono_r; lia). lia.
Qed.

Lemma iter_xO_Z p d : Zpos (Pos.iter xO p d) = Zpos p * 2 ^ Zpos d.
Proof.
  induction d as [|d IH] using Pos.peano_ind.
  - cbn. lia.
  - rewrite Pos.iter_succ, Pos2Z.inj_xO, IH, Pos2Z.inj_succ, Z.pow_succ_r by lia.
    lia.
Qed.

Lemma digits2_pos_iter_xO p d :
  digits2_pos (Pos.iter xO p d) = (digits2_pos p + d)%positive.
Proof.
  induction d as [|d IH] using Pos.peano_ind.
  - cbn. lia.
  - rewrite Pos.iter_succ. cbn [digits2_pos]. rewrite IH. lia.
Qed.

(** *** Shifting right *)

Lemma iter_pos_nat {A} (f : A -> A) k x :
  SpecFloat.iter_pos f k x = Nat.iter (Pos.to_nat k) f x.
Proof.
  revert x. induction k as [k IH|k IH|]; intros x; cbn [SpecFloat.iter_pos].
  - rewrite !IH, Pos2Nat.inj_xI. cbn [Nat.iter].
    rewrite <- Nat.iter_add. replace (Pos.to_nat k + Pos.to_nat k)%nat
      with (2 * Pos.to_nat k)%nat by lia.
    rewrite <- Nat.iter_succ_r. reflexivity.
  - rewrite !IH, Pos2Nat.inj_xO. rewrite <- Nat.iter_add.
    f_equal. lia.
  - reflexivity.
Qed.

Lemma shr_1_even z :
  0 < z ->
  shr_1 (Build_shr_record (2 * z) false false) = Build_shr_record z false false.
Proof. destruct z as [|p|p]; try lia. reflexivity. Qed.

Lemma shr_iter_exact k z :
  0 < z ->
  Nat.iter k shr_1 (Build_shr_record (z * 2 ^ Z.of_nat k) false false)
  = Build_shr_record z false false.
Proof.
  intros Hz. revert z Hz. induction k as [|k IH]; intros z Hz.
  - cbn. f_equal. lia.
  - rewrite Nat.iter_succ_r.
    replace (z * 2 ^ Z.of_nat (S k)) with (2 * (z * 2 ^ Z.of_nat k))
      by (rewrite Nat2Z.inj_succ, Z.pow_succ_r by lia; lia).
    rewrite shr_1_even by (apply Z.mul_pos_pos; [lia | apply Z.pow_pos_nonneg; lia]).
    apply IH, Hz.
Qed.

(** Rounding a mantissa with at most [shift] low bits to drop, all of
    them zero, is exact. *)
Lemma binary_round_aux_exact s p n e :
  let mx := Zpos p * 2 ^ n in
  let shift := Zpos (digits2_pos p) + n - 53 in
  0 <= n -> 0 <= shift <= n ->
  -1074 <= e + shift <= 971 ->
  binary_round_aux 53 1024 s mx e loc_Exact
  = S754_finite s (Z.to_pos (Zpos p * 2 ^ (n - shift))) (e + shift).
Proof.
  intros mx shift Hn Hshift He.
  assert (Hpow : 0 < 2 ^ n) by (apply Z.pow_pos_nonneg; lia).
  assert (Hmx : 0 < mx) by (subst mx; lia).
  destruct mx as [|q|q] eqn:Hq; try lia.
  assert (Hdig : Zpos (digits2_pos q) = Zpos (digits2_pos p) + n).
  { destruct (Z.eq_dec n 0) as [->|Hn0].
    - assert (q = p) by (apply Pos2Z.inj; rewrite <- Hq; subst mx; lia).
      subst q. lia.
    - assert (Hnp : n = Zpos (Z.to_pos n)) by (rewrite Z2Pos.id; lia).
      assert (q = Pos.iter xO p (Z.to_pos n)).
      { apply Pos2Z.inj. rewrite iter_xO_Z, <- Hnp, <- Hq. reflexivity. }
      subst q. rewrite digits2_pos_iter_xO. lia. }
  unfold binary_round_aux, shr_fexp, fexp, emin.
  cbn [Zdigits2 shr_record_of_loc]. rewrite Hdig.
  replace (Z.max (Zpos (digits2_pos p) + n + e - 53) (3 - 1024 - 53) - e)
    with shift by (subst shift; lia).
  assert (Hres : shr (Build_shr_record (Zpos q) false false) e shift
                 = (Build_shr_record (Zpos p * 2 ^ (n - shift)) false false, e + shift)).
  { unfold shr. destruct shift as [|k|k] eqn:Hk; try lia.
    - rewrite Z.sub_0_r, Z.add_0_r, <- Hq. reflexivity.
    - f_equal. rewrite iter_pos_nat, <- Hq. subst mx.
      replace (Zpos p * 2 ^ n)
        with ((Zpos p * 2 ^ (n - Zpos k)) * 2 ^ Z.of_nat (Pos.to_nat k)).
      + apply shr_iter_exact. apply Z.mul_pos_pos; [lia|].
        apply Z.pow_pos_nonneg; lia.
      + rewrite positive_nat_Z, <- Z.mul_assoc, <- Z.pow_add_r by lia.
        do 2 f_equal. lia. }
  rewrite Hres. cbn [shr_m loc_of_shr_record round_nearest_even].
  remember (Zpos p * 2 ^ (n - shift)) as m1 eqn:Hm1def.
  assert (Hm1 : 0 < m1).
  { subst m1. apply Z.mul_pos_pos; [lia|]. apply Z.pow_pos_nonneg; lia. }
  destruct m1 as [|r|r]; try lia.
  assert (Hdr : Zpos (digits2_pos r) = 53).
  { destruct (Z.eq_dec (n - shift) 0) as [H0|H0].
    - rewrite H0 in Hm1def. assert (r = p) by (apply Pos2Z.inj; lia). subst r.
      subst shift. lia.
    - assert (Hnp : n - shift = Zpos (Z.to_pos (n - shift))) by (rewrite Z2Pos.id; lia).
      assert (r = Pos.iter xO p (Z.to_pos (n - shift))).
      { apply Pos2Z.inj. rewrite iter_xO_Z, <- Hnp. lia. }
      subst r. rewrite digits2_pos_iter_xO. subst shift. lia. }
  cbn [Zdigits2 shr_record_of_loc]. rewrite Hdr.
  replace (Z.max (53 + (e + shift) - 53) (3 - 1024 - 53) - (e + shift)) with 0 by lia.
  cbn [shr shr_m].
  replace (e + shift <=? 1024 - 53) with true by (symmetry; apply Z.leb_le; lia).
  reflexivity.
Qed.

(** *** Powers of two as rationals *)

Section Dyadic.

Local Open Scope Q_scope.

Lemma Qpower_2_nonneg k : (0 <= k)%Z -> 2 ^ k == inject_Z (2 ^ k).
Proof. intros Hk. rewrite Zpower_Qpower by exact Hk. reflexivity. Qed.

Lemma Qpower_2_neg k : (k < 0)%Z -> 2 ^ k == 1 # Z.to_pos (2 ^ (- k)).
Proof.
  intros Hk.
  assert (Hpos : (0 < 2 ^ (- k))%Z) by (apply Z.pow_pos_nonneg; lia).
  replace k with (- - k)%Z at 1 by lia.
  rewrite Qpower_opp, Qpower_2_nonneg by lia.
  rewrite (Qmake_Qdiv 1). unfold Qdiv. rewrite Qmult_1_l.
  rewrite Z2Pos.id by exact Hpos. reflexivity.
Qed.

(** The number [z * 2^k], for a negative [k]. *)
Lemma dyadic_neg z k :
  (k < 0)%Z -> inject_Z z * 2 ^ k == z # Z.to_pos (2 ^ (- k)).
Proof.
  intros Hk. rewrite (Qpower_2_neg k Hk).
  unfold Qeq, Qmult, inject_Z. cbn. lia.
Qed.

Lemma dyadic_nonneg z k :
  (0 <= k)%Z -> inject_Z z * 2 ^ k == inject_Z (z * 2 ^ k).
Proof. intros Hk. rewrite (Qpower_2_nonneg k Hk), inject_Z_mult. reflexivity. Qed.

(** Shifting mantissa bits into the exponent keeps the value. *)
Lemma dyadic_shift z d k :
  (0 <= d)%Z -> inject_Z (z * 2 ^ d) * 2 ^ (k - d) == inject_Z z * 2 ^ k.
Proof.
  intros Hd. rewrite inject_Z_mult, <- (Qpower_2_nonneg d Hd).
  rewrite <- Qmult_assoc, <- Qpower_plus by discriminate.
  replace (d + (k - d))%Z with k by lia. reflexivity.
Qed.

(** *** Truncation *)

Lemma Qtruncate_comp q r : q == r -> Qtruncate q = Qtruncate r.
Proof.
  destruct q as [a b], r as [c d]. unfold Qeq, Qtruncate. cbn. intros H.
  transitivity (Z.quot (a * Zpos d) (Zpos b * Zpos d)).
  - symmetry. apply Z.quot_mul_cancel_r; lia.
  - rewrite H, (Z.mul_comm (Zpos b) (Zpos d)). apply Z.quot_mul_cancel_r; lia.
Qed.

Lemma Qtruncate_dyadic (sgn : bool) (a : Z) k :
  (0 <= a)%Z -> (k < 0)%Z ->
  Qtruncate (inject_Z (cond_Zopp sgn a) * 2 ^ k) = cond_Zopp sgn (Z.shiftl a k).
Proof.
  intros Ha Hk.
  assert (Hpos : (0 < 2 ^ (- k))%Z) by (apply Z.pow_pos_nonneg; lia).
  rewrite (Qtruncate_comp _ _ (dyadic_neg _ k Hk)).
  unfold Qtruncate. cbn [Qnum Qden]. rewrite Z2Pos.id by exact Hpos.
  rewrite Z.shiftl_div_pow2 by lia.
  destruct sgn; cbn [cond_Zopp].
  - rewrite Z.quot_opp_l by lia. rewrite Z.quot_div_nonneg by lia. reflexivity.
  - rewrite Z.quot_div_nonneg by lia. reflexivity.
Qed.

End Dyadic.

(** *** Samples as numbers *)

Lemma of_Z_0 : Number.of_Z 0 = S754_zero false.
Proof. reflexivity. Qed.

Lemma of_Z_1 : Number.of_Z 1 = S754_finite false one (-52).
Proof. vm_compute. reflexivity. Qed.

Lemma of_Z_m1 : Number.of_Z (-1) = S754_finite true one (-52).
Proof. vm_compute. reflexivity. Qed.

Lemma of_Z_8000 : Number.of_Z 0x8000 = S754_finite false one (-37).
Proof. vm_compute. reflexivity. Qed.

Lemma of_Z_7FFF :
  Number.of_Z 0x7FFF = S754_finite false (Z.to_pos (32767 * 2 ^ 38)) (-38).
Proof. vm_compute. reflexivity. Qed.

Lemma float32_bounds s m e :
  Number.is_float32 (S754_finite s m e) = true ->
  Zpos (digits2_pos m) <= 24 /\ -149 <= e <= 104.
Proof.
  unfold Number.is_float32, valid_binary, bounded, canonical_mantissa, fexp, emin.
  intros H. apply andb_prop in H as [H1 H2].
  apply Z.eqb_eq in H1. apply Z.leb_le in H2. lia.
Qed.

(** A binary32 sample read as a number: the mantissa is shifted up to
    53 digits. *)
Lemma of_float32_finite s m e :
  Number.is_float32 (S754_finite s m e) = true ->
  let d := 53 - Zpos (digits2_pos m) in
  Number.of_float32 (S754_finite s m e)
  = S754_finite s (Z.to_pos (Zpos m * 2 ^ d)) (e - d).
Proof.
  intros Hv d. destruct (float32_bounds s m e Hv) as [Hd He].
  unfold Number.of_float32, Number.prec, Number.emax, binary_round, shl_align, fexp, emin.
  replace (Z.max (Zpos (digits2_pos m) + e - 53) (3 - 1024 - 53))
    with (e - d) by (subst d; lia).
  replace (e - d - e) with (- d) by lia.
  destruct d as [|k|k] eqn:Hk; try lia.
  change (- Z.pos k) with (Z.neg k). cbv iota beta. rewrite iter_xO_Z.
  rewrite (binary_round_aux_exact s m (Zpos k) (e - Zpos k)) by lia.
  f_equal; [f_equal; f_equal; f_equal; lia | lia].
Qed.

(** The mantissa of such a number has 53 digits. *)
Lemma of_float32_mantissa m :
  Zpos (digits2_pos m) <= 24 ->
  let M := Zpos m * 2 ^ (53 - Zpos (digits2_pos m)) in
  2 ^ 52 <= M < 2 ^ 53.
Proof.
  intros Hd M. pose proof (digits2_pos_bounds m) as Hm.
  set (g := Zpos (digits2_pos m)) in *.
  assert (Hg : 0 < g) by (subst g; lia).
  assert (H52 : 2 ^ 52 = 2 ^ (g - 1) * 2 ^ (53 - g))
    by (rewrite <- Z.pow_add_r by lia; f_equal; lia).
  assert (H53 : 2 ^ 53 = 2 ^ g * 2 ^ (53 - g))
    by (rewrite <- Z.pow_add_r by lia; f_equal; lia).
  assert (Hp : 0 < 2 ^ (53 - g)) by (apply Z.pow_pos_nonneg; lia).
  rewrite H52, H53. subst M. nia.
Qed.

(** *** Clamping *)

Lemma clamp_finite s M E :
  clamp (S754_finite s M E)
  = if over M E then S754_finite s one (-52) else S754_finite s M E.
Proof.
  unfold clamp, over. rewrite of_Z_1, of_Z_m1.
  unfold Number.Math_max, Number.Math_min.
  destruct s; cbn [SFcompare].
  - (* negative: below 1; compared with -1 *)
    destruct (Z.compare_spec (-52) E) as [HE|HE|HE].
    + subst E. cbn [Z.ltb Z.compare Z.eqb orb andb].
      change (Pos.compare_cont Eq one M) with (Pos.compare one M).
      unfold Pos.ltb.
      destruct (Pos.compare one M); reflexivity.
    + replace (-52 <? E) with true by (symmetry; apply Z.ltb_lt; lia).
      reflexivity.
    + replace (-52 <? E) with false by (symmetry; apply Z.ltb_ge; lia).
      replace (E =? -52) with false by (symmetry; apply Z.eqb_neq; lia).
      reflexivity.
  - destruct (Z.compare_spec (-52) E) as [HE|HE|HE].
    + subst E. cbn [Z.ltb Z.compare Z.eqb orb andb].
      change (Pos.compare_cont Eq one M) with (Pos.compare one M).
      unfold Pos.ltb.
      destruct (Pos.compare one M); reflexivity.
    + replace (-52 <? E) with true by (symmetry; apply Z.ltb_lt; lia).
      reflexivity.
    + replace (-52 <? E) with false by (symmetry; apply Z.ltb_ge; lia).
      replace (E =? -52) with false by (symmetry; apply Z.eqb_neq; lia).
      reflexivity.
Qed.

(** *** Scaling *)

Lemma ltb_finite_0 s M E :
  Number.ltb (S754_finite s M E) (Number.of_Z 0) = s.
Proof. rewrite of_Z_0. destruct s; reflexivity. Qed.

(** The digits of a mantissa times 32767. *)
Lemma digits2_pos_7FFF m :
  let g := Zpos (digits2_pos m) in
  g + 14 <= Zpos (digits2_pos (m * 32767)) <= g + 15.
Proof.
  intros g. pose proof (digits2_pos_bounds m) as Hm. fold g in Hm.
  pose proof (digits2_pos_bounds (m * 32767)) as Hp.
  rewrite Pos2Z.inj_mul in Hp.
  set (h := Zpos (digits2_pos (m * 32767))) in *.
  assert (Hg : 0 < g) by (subst g; lia). assert (Hh : 0 < h) by (subst h; lia).
  assert (Hlo : 2 ^ (g + 13) <= Zpos m * 32767).
  { replace (g + 13) with ((g - 1) + 14) by lia. rewrite Z.pow_add_r by lia.
    change (2 ^ 14) with 16384. nia. }
  assert (Hhi : Zpos m * 32767 < 2 ^ (g + 15)).
  { rewrite Z.pow_add_r by lia. change (2 ^ 15) with 32768. nia. }
  split.
  - destruct (Z_lt_le_dec h (g + 14)) as [Hlt|]; [|assumption].
    assert (2 ^ h <= 2 ^ (g + 13)) by (apply Z.pow_le_mono_r; lia). lia.
  - destruct (Z_lt_le_dec (g + 15) h) as [Hlt|]; [|assumption].
    assert (2 ^ (g + 15) <= 2 ^ (h - 1)) by (apply Z.pow_le_mono_r; lia). lia.
Qed.

(** The integer part of a scaled number is that of the exact product. *)
Lemma truncate_scale s m d E :
  Zpos (digits2_pos m) + d = 53 -> 29 <= d -> -201 <= E <= -52 ->
  let M := Z.to_pos (Zpos m * 2 ^ d) in
  Number.truncate (scale (S754_finite s M E))
  = cond_Zopp s (Z.shiftl (Zpos M * (if s then 32768 else 32767)) E).
Proof.
  intros Hg Hd HE M.
  assert (Hp : 0 < 2 ^ d) by (apply Z.pow_pos_nonneg; lia).
  assert (HM : Zpos M = Zpos m * 2 ^ d) by (subst M; rewrite Z2Pos.id; lia).
  unfold scale. rewrite ltb_finite_0. destruct s.
  - rewrite of_Z_8000. unfold Number.mul, Number.prec, Number.emax.
    cbn [SFmul xorb]. rewrite Pos2Z.inj_mul, HM.
    change (Zpos one) with (2 ^ 52).
    rewrite <- Z.mul_assoc, <- Z.pow_add_r by lia.
    rewrite (binary_round_aux_exact true m (d + 52) (E + -37)) by lia.
    cbn [Number.truncate cond_Zopp]. f_equal.
    replace (d + 52 - (Zpos (digits2_pos m) + (d + 52) - 53)) with d by lia.
    rewrite <- HM, Pos2Z.id.
    replace (Zpos M * 32768) with (Z.shiftl (Zpos M) 15)
      by (rewrite Z.shiftl_mul_pow2 by lia; reflexivity).
    rewrite Z.shiftl_shiftl by lia. f_equal. lia.
  - rewrite of_Z_7FFF. unfold Number.mul, Number.prec, Number.emax.
    cbn [SFmul xorb]. rewrite Pos2Z.inj_mul, HM.
    rewrite Z2Pos.id by (vm_compute; reflexivity).
    replace (Zpos m * 2 ^ d * (32767 * 2 ^ 38))
      with (Zpos (m * 32767) * 2 ^ (d + 38))
      by (rewrite Pos2Z.inj_mul, Z.pow_add_r by lia; lia).
    pose proof (digits2_pos_7FFF m) as Hdig. cbn zeta in Hdig.
    rewrite (binary_round_aux_exact false (m * 32767) (d + 38) (E + -38)) by lia.
    cbn [Number.truncate cond_Zopp].
    set (shift := Zpos (digits2_pos (m * 32767)) + (d + 38) - 53) in *.
    assert (Hq : 0 < Zpos (m * 32767) * 2 ^ (d + 38 - shift)).
    { apply Z.mul_pos_pos; [lia|]. apply Z.pow_pos_nonneg; lia. }
    rewrite Z2Pos.id by exact Hq.
    rewrite <- Z.shiftl_mul_pow2 by lia.
    rewrite Z.shiftl_shiftl by lia.
    replace (Zpos m * 2 ^ d * 32767) with (Z.shiftl (Zpos (m * 32767)) d)
      by (rewrite Z.shiftl_mul_pow2, Pos2Z.inj_mul by lia; lia).
    rewrite Z.shiftl_shiftl by lia. f_equal. lia.
Qed.

(** The integer part of a product with a number of magnitude at most 1
    is at most the factor. *)
Lemma shiftl_scaled_range M c E :
  E < 0 -> 0 < c -> Zpos M <= 2 ^ (- E) ->
  0 <= Z.shiftl (Zpos M * c) E <= c.
Proof.
  intros HE Hc HM.
  assert (Hp : 0 < 2 ^ (- E)) by (apply Z.pow_pos_nonneg; lia).
  rewrite Z.shiftl_div_pow2 by lia. split.
  - apply Z.div_pos; nia.
  - apply Z.div_le_upper_bound; nia.
Qed.

(** *** One sample *)

(** A clamped finite sample: sign, mantissa and exponent of a number
    of magnitude at most 1, and its 16-bit value. *)
Lemma clamped_sample s m d E :
  Zpos (digits2_pos m) + d = 53 -> 29 <= d -> -201 <= E <= -52 ->
  let M := Z.to_pos (Zpos m * 2 ^ d) in
  Zpos M <= 2 ^ (- E) ->
  let v := S754_finite s M E in
  let factor := if Number.ltb v (Number.of_Z 0) then 32768%Q else 32767%Q in
  (-1 <= Number.to_Q v <= 1)%Q
  /\ (Number.ltb v (Number.of_Z 0) = true <-> (Number.to_Q v < 0)%Q)
  /\ Number.ToInt16 (scale v) = Qtruncate (Number.to_Q v * factor)
  /\ -32768 <= Number.ToInt16 (scale v) <= 32767.
Proof.
  intros Hg Hd HE M HM v factor. subst v factor.
  assert (Hp : 0 < 2 ^ (- E)) by (apply Z.pow_pos_nonneg; lia).
  assert (Hv : (Number.to_Q (S754_finite s M E) == cond_Zopp s (Zpos M) # Z.to_pos (2 ^ (- E)))%Q).
  { cbn [Number.to_Q]. apply dyadic_neg. lia. }
  pose proof (truncate_scale s m d E Hg Hd HE) as Htr. cbn zeta in Htr.
  fold M in Htr. rewrite (ltb_finite_0 s M E).
  assert (Hrange : 0 <= Z.shiftl (Zpos M * (if s then 32768 else 32767)) E
                   <= (if s then 32768 else 32767)).
  { apply shiftl_scaled_range; [lia | destruct s; lia | exact HM]. }
  assert (Hint : Number.ToInt16 (scale (S754_finite s M E))
                 = cond_Zopp s (Z.shiftl (Zpos M * (if s then 32768 else 32767)) E)).
  { unfold Number.ToInt16. rewrite Htr.
    set (T := Z.shiftl (Zpos M * (if s then 32768 else 32767)) E) in *.
    destruct s; cbn [cond_Zopp].
    - destruct (Z.eq_dec T 0) as [->|HT0]; [reflexivity|].
      replace (- T mod 65536) with (65536 - T)
        by (apply Z.mod_unique with (q := -1); lia).
      replace (32768 <=? 65536 - T) with true by (symmetry; apply Z.leb_le; lia).
      lia.
    - rewrite Z.mod_small by lia.
      replace (32768 <=? T) with false by (symmetry; apply Z.leb_gt; lia).
      reflexivity. }
  split; [|split; [|split]].
  - rewrite Hv. unfold Qle. cbn [Qnum Qden]. rewrite Z2Pos.id by exact Hp.
    destruct s; cbn [cond_Zopp]; lia.
  - rewrite Hv. unfold Qlt. cbn [Qnum Qden].
    destruct s; cbn [cond_Zopp]; split; intros H; try reflexivity; try lia.
  - rewrite Hint. symmetry.
    assert (Heq : (Number.to_Q (S754_finite s M E) * (if s then 32768 else 32767)
                   == inject_Z (cond_Zopp s (Zpos M * (if s then 32768 else 32767)))
                      * 2 ^ E)%Q).
    { cbn [Number.to_Q].
      assert (Hc : ((if s then 32768 else 32767)
                    == inject_Z (if s then 32768 else 32767))%Q)
        by (destruct s; reflexivity).
      rewrite Hc.
      replace (cond_Zopp s (Zpos M * (if s then 32768 else 32767)))
        with (cond_Zopp s (Zpos M) * (if s then 32768 else 32767))
        by (destruct s; cbn [cond_Zopp]; lia).
      rewrite inject_Z_mult. ring. }
    rewrite (Qtruncate_comp _ _ Heq).
    apply Qtruncate_dyadic; [destruct s; lia | lia].
  - rewrite Hint. destruct s; cbn [cond_Zopp]; lia.
Qed.

Lemma to_Q_of_float32 s m e :
  Number.is_float32 (S754_finite s m e) = true ->
  (Number.to_Q (Number.of_float32 (S754_finite s m e))
   == Number.to_Q (S754_finite s m e))%Q.
Proof.
  intros Hv. destruct (float32_bounds s m e Hv) as [Hd He].
  rewrite (of_float32_finite s m e Hv). cbn zeta. cbn [Number.to_Q].
  set (d := 53 - Zpos (digits2_pos m)).
  assert (Hp : 0 < 2 ^ d) by (apply Z.pow_pos_nonneg; lia).
  rewrite Z2Pos.id by lia.
  replace (cond_Zopp s (Zpos m * 2 ^ d)) with (cond_Zopp s (Zpos m) * 2 ^ d)
    by (destruct s; cbn [cond_Zopp]; lia).
  apply dyadic_shift. lia.
Qed.

(** A number above 1 in magnitude, as a rational. *)
Lemma over_to_Q s M E :
  2 ^ 52 <= Zpos M -> over M E = true ->
  (s = true -> Number.to_Q (S754_finite s M E) <= -1)%Q
  /\ (s = false -> 1 <= Number.to_Q (S754_finite s M E))%Q.
Proof.
  intros HM Hover. unfold over in Hover.
  assert (HE : -52 <= E).
  { apply orb_prop in Hover as [H|H]; [apply Z.ltb_lt in H; lia|].
    apply andb_prop in H as [H _]. apply Z.eqb_eq in H. lia. }
  cbn [Number.to_Q].
  destruct (Z_lt_le_dec E 0) as [Hneg|Hpos].
  - assert (Hp : 0 < 2 ^ (- E)) by (apply Z.pow_pos_nonneg; lia).
    assert (Hle : 2 ^ (- E) <= 2 ^ 52) by (apply Z.pow_le_mono_r; lia).
    rewrite (dyadic_neg _ E Hneg).
    split; intros ->; unfold Qle; cbn [Qnum Qden cond_Zopp];
      rewrite Z2Pos.id by exact Hp; lia.
  - assert (Hp : 1 <= 2 ^ E) by (apply (Z.pow_le_mono_r 2 0 E); lia).
    rewrite (dyadic_nonneg _ E Hpos).
    split; intros ->; unfold Qle, inject_Z; cbn [Qnum Qden cond_Zopp]; nia.
Qed.

(** C4, amended.  For every binary32 sample other than NaN: the clamped
    sample [s] is a number in [-1, 1], the nearest to the sample's
    value; a negative [s] is scaled by 32768 and any other by 32767;
    and what the [Int16Array] holds is the integer part of the product,
    which lies in [-32768, 32767]. *)
Theorem to16BitPCM_scales x :
  Number.is_float32 x = true -> x <> S754_nan ->
  let s := clamp (Number.of_float32 x) in
  let factor := if Number.ltb s (Number.of_Z 0) then 32768%Q else 32767%Q in
  Number.is_finite s = true
  /\ (-1 <= Number.to_Q s <= 1)%Q
  /\ (Number.to_Q s
      == match x with
         | S754_infinity true => -1
         | S754_infinity false => 1
         | _ => Qmax (-1) (Qmin 1 (Number.to_Q x))
         end)%Q
  /\ (Number.ltb s (Number.of_Z 0) = true <-> (Number.to_Q s < 0)%Q)
  /\ to16BitPCM x = Qtruncate (Number.to_Q s * factor)
  /\ -32768 <= to16BitPCM x <= 32767.
Proof.
  intros Hv Hnan. unfold to16BitPCM.
  destruct x as [b|b| |sg m e]; [| |congruence|].
  - (* the zeros *)
    destruct b; cbn zeta; (split; [|split; [|split; [|split; [|split]]]]);
      vm_compute; intuition congruence.
  - (* the infinities *)
    destruct b; cbn zeta; (split; [|split; [|split; [|split; [|split]]]]);
      vm_compute; intuition congruence.
  - (* finite samples *)
    destruct (float32_bounds sg m e Hv) as [Hd He].
    pose proof (to_Q_of_float32 sg m e Hv) as HQ.
    rewrite (of_float32_finite sg m e Hv) in *. cbn zeta in *.
    set (d := 53 - Zpos (digits2_pos m)) in *.
    pose proof (of_float32_mantissa m Hd) as HM. cbn zeta in HM. fold d in HM.
    set (M := Z.to_pos (Zpos m * 2 ^ d)) in *.
    assert (HMz : Zpos M = Zpos m * 2 ^ d)
      by (subst M; rewrite Z2Pos.id; lia).
    rewrite <- HMz in HM.
    rewrite clamp_finite.
    destruct (over M (e - d)) eqn:Hover.
    + (* clamped to 1 or to -1 *)
      destruct (over_to_Q sg M (e - d) ltac:(lia) Hover) as [Hneg Hpos].
      rewrite HQ in Hneg, Hpos.
      assert (Hone : Zpos (Z.to_pos (Zpos 1 * 2 ^ 52)) <= 2 ^ (- -52))
        by (vm_compute; discriminate).
      destruct (clamped_sample sg 1 52 (-52) eq_refl ltac:(lia) ltac:(lia) Hone)
        as (Hr & Hlt & Hint & Hrange).
      change (Z.to_pos (Zpos 1 * 2 ^ 52)) with one in *.
      split; [reflexivity|]. split; [exact Hr|].
      split; [|split; [exact Hlt | split; [exact Hint | exact Hrange]]].
      destruct sg.
      * specialize (Hneg eq_refl).
        rewrite (Q.min_r 1)
          by (apply Qle_trans with (-1)%Q; [exact Hneg | discriminate]).
        rewrite Q.max_l by exact Hneg. reflexivity.
      * specialize (Hpos eq_refl).
        rewrite (Q.min_l 1) by exact Hpos.
        rewrite Q.max_r by discriminate. reflexivity.
    + (* within [-1, 1] *)
      assert (HE : e - d <= -52 /\ Zpos M <= 2 ^ (- (e - d))).
      { unfold over in Hover. apply orb_false_elim in Hover as [H1 H2].
        apply Z.ltb_ge in H1. split; [exact H1|].
        destruct (Z.eq_dec (e - d) (-52)) as [Heq|Hne].
        - rewrite Heq in H2 |- *. cbn [Z.eqb andb] in H2.
          apply Pos.ltb_ge in H2. change (2 ^ (- -52)) with (Zpos one).
          apply Pos2Z.pos_le_pos. exact H2.
        - assert (2 ^ 53 <= 2 ^ (- (e - d))) by (apply Z.pow_le_mono_r; lia).
          lia. }
      destruct HE as [HE HMle].
      assert (Hd1 : 29 <= d) by (subst d; lia).
      assert (Hd2 : -201 <= e - d <= -52) by (subst d; lia).
      assert (Hd3 : Zpos (digits2_pos m) + d = 53) by (subst d; lia).
      pose proof (clamped_sample sg m d (e - d) Hd3 Hd1 Hd2) as HC.
      fold M in HC.
      destruct (HC HMle) as (Hr & Hlt & Hint & Hrange).
      split; [reflexivity|]. split; [exact Hr|].
      split; [|split; [exact Hlt | split; [exact Hint | exact Hrange]]].
      rewrite <- HQ. destruct Hr as [Hlo Hhi].
      rewrite (Q.min_r 1) by exact Hhi.
      rewrite Q.max_r by exact Hlo. reflexivity.
Qed.

(** *** Sample values *)

Example f32_minus_one : to16BitPCM (S754_finite true 8388608 (-23)) = -32768.
Proof. vm_compute. reflexivity. Qed.

Example f32_one : to16BitPCM (S754_finite false 8388608 (-23)) = 32767.
Proof. vm_compute. reflexivity. Qed.

(** One half: 0.5 * 32767 = 16383.5, of which 16383 is stored. *)
Example f32_half : to16BitPCM (S754_finite false 8388608 (-24)) = 16383.
Proof. vm_compute. reflexivity. Qed.

Example f32_minus_half : to16BitPCM (S754_finite true 8388608 (-24)) = -16384.
Proof. vm_compute. reflexivity. Qed.

(** Above the range: 2 is clamped to 1, -2 to -1. *)
Example f32_two : to16BitPCM (S754_finite false 8388608 (-22)) = 32767.
Proof. vm_compute. reflexivity. Qed.

Example f32_minus_two : to16BitPCM (S754_finite true 8388608 (-22)) = -32768.
Proof. vm_compute. reflexivity. Qed.

Example f32_infinities :
  to16BitPCM (S754_infinity false) = 32767
  /\ to16BitPCM (S754_infinity true) = -32768.
Proof. vm_compute. split; reflexivity. Qed.

(** C4, as stated, fails for one element a [Float32Array] can hold: NaN
    is a binary32 value, [Math.min(1, NaN)] and [Math.max(-1, NaN)] are
    NaN, so the clamped sample is NaN and not a number of [-1, 1];
    [NaN < 0] is false, the product with 32767 is NaN, and the
    [Int16Array] holds 0. *)
Lemma to16BitPCM_nan_not_clamped :
  Number.is_float32 S754_nan = true
  /\ clamp (Number.of_float32 S754_nan) = S754_nan
  /\ Number.is_finite (clamp (Number.of_float32 S754_nan)) = false
  /\ scale (clamp (Number.of_float32 S754_nan)) = S754_nan
  /\ to16BitPCM S754_nan = 0.
Proof. vm_compute. repeat split. Qed.

(** ** The modal *)

Section ModalFacts.
Context {encoder : Type} `{!Lamejs encoder}.
Implicit Types p : page encoder.

Lemma with_document_same p : with_document (document p) p = p.
Proof. destruct p; reflexivity. Qed.

Lemma with_display_same e : with_display (display e) e = e.
Proof. destruct e; reflexivity. Qed.

Lemma closeModal_hides p e :
  document p !! "modal" = Some e ->
  closeModal p
  = Done tt (with_document (<["modal" := with_display "none" e]> (document p)) p).
Proof. intros He. unfold closeModal, set_element. rewrite He. reflexivity. Qed.

Lemma textModal_keeps_modal p x e :
  document p !! "modal" = Some e ->
  document (page_of (textModal x p)) !! "modal" = Some (with_display "block" e).
Proof.
  intros He. unfold textModal, bind, set_element, getElementById, get, modify.
  rewrite He. cbn.
  destruct (<["modal":=with_display "block" e]> (document p) !! modal_content)
    as [c|] eqn:Hc; cbn.
  - rewrite lookup_insert_ne by (unfold modal_content; discriminate).
    apply lookup_insert_eq.
  - apply lookup_insert_eq.
Qed.

(** C8.  On a page with a modal, [textModal("x")] followed by
    [closeModal()] leaves the modal hidden; and [closeModal()] on a
    hidden modal finishes without an error and leaves the page as it
    was. *)
Theorem modal_text_close_hidden p x :
  (is_Some (document p !! "modal") ->
   exists p', closeModal (page_of (textModal x p)) = Done tt p'
              /\ modal_hidden p')
  /\ (modal_hidden p -> closeModal p = Done tt p).
Proof.
  split.
  - intros [e He].
    pose proof (textModal_keeps_modal p x e He) as Hm.
    eexists. split.
    + apply closeModal_hides, Hm.
    + unfold modal_hidden, modal_display. cbn.
      rewrite lookup_insert_eq. reflexivity.
  - unfold modal_hidden, modal_display. intros Hh.
    destruct (document p !! "modal") as [e|] eqn:He; [|discriminate].
    injection Hh as Hd.
    rewrite (closeModal_hides p e He). f_equal.
    rewrite <- Hd, with_display_same, insert_id by exact He.
    apply with_document_same.
Qed.

End ModalFacts.

Lemma modal_text_close_hidden_holds :
  is_Some (document (Demo.served "" ∅) !! "modal")
  /\ (exists p', closeModal (page_of (textModal "x" (Demo.served "" ∅))) = Done tt p'
                 /\ modal_hidden p')
  /\ modal_hidden (Demo.served "" ∅)
  /\ closeModal (Demo.served "" ∅) = Done tt (Demo.served "" ∅).
Proof.
  assert (H1 : is_Some (document (Demo.served "" ∅) !! "modal"))
    by (vm_compute; eauto).
  assert (H2 : modal_hidden (Demo.served "" ∅)) by (vm_compute; reflexivity).
  destruct (modal_text_close_hidden (Demo.served "" ∅) "x") as [Ha Hb].
  split; [exact H1|]. split; [exact (Ha H1)|]. split; [exact H2|exact (Hb H2)].
Defined.

(** ** Capture sessions *)

Ltac psimpl :=
  cbn [page_of bind ret throw get modify lift record catch defined
       recorder chat timerInterval seconds timezoneOffset document cookie
       globals nodes streams intervals awaits object_urls log
       with_recorder with_chat with_timerInterval with_seconds
       with_timezoneOffset with_document with_globals with_nodes
       with_streams with_intervals with_awaits with_object_urls with_log
       vars with_vars audioContext micStream scriptProcessor mp3Encoder mp3Data
       stop_blob stop_url stop_formattedDateTime stop_formData] in *.

Section Capture.
Context {encoder : Type} `{!Lamejs encoder}.
Implicit Types p q : page encoder.

Lemma clickable_Some id p :
  clickable id p = true -> exists e, document p !! id = Some e /\ disabled e = false.
Proof.
  unfold clickable. destruct (document p !! id) as [e|]; [|discriminate].
  intros H. exists e. split; [reflexivity|]. now destruct (disabled e).
Qed.

Lemma alter_last {A} (g : A -> A) (l : list A) (x : A) :
  alter g (length l) (l ++ [x]) = l ++ [g x].
Proof.
  replace (length l) with (length l + 0)%nat by lia.
  rewrite alter_app_r. reflexivity.
Qed.

(** A start handler up to its [await]. *)
Lemma start_click_Done f rate p :
  start_click f rate p
  = Done tt
      (with_awaits (awaits p ++ [Some f])
         (with_vars f
            (Build_capture (Some rate) (micStream (vars f p))
               (scriptProcessor (vars f p)) (mp3Encoder (vars f p))
               (mp3Data (vars f p))) p)).
Proof. destruct f; reflexivity. Qed.

(** Setting up the graph: when the microphone is refused, when it is
    granted and [audioContext] is undefined, and when it is granted and
    [audioContext] holds a context. *)
Lemma start_capture_denied f p :
  start_capture f false p = Raised NotAllowedError p.
Proof. reflexivity. Qed.

Lemma start_capture_undefined f p :
  audioContext (vars f p) = None ->
  start_capture f true p
  = Raised (TypeError "audioContext")
      (with_vars f
         (Build_capture None (Some (length (streams p)))
            (scriptProcessor (vars f p)) (mp3Encoder (vars f p))
            (mp3Data (vars f p)))
         (with_streams (streams p ++ [true]) p)).
Proof.
  intros Hctx. unfold start_capture, bind, modify, get, ret, defined, throw.
  destruct f; cbn in Hctx |- *; rewrite Hctx; reflexivity.
Qed.

Lemma start_capture_granted f rate p :
  audioContext (vars f p) = Some rate ->
  start_capture f true p
  = Done tt
      (with_nodes (nodes p ++ [Build_node (Some f) true true])
         (with_vars f
            (Build_capture (Some rate) (Some (length (streams p)))
               (Some (length (nodes p))) (Some (Mp3Encoder 1 rate 128)) [])
            (with_streams (streams p ++ [true]) p))).
Proof.
  intros Hctx.
  unfold start_capture, update_node, bind, modify, get, ret, defined.
  destruct f; cbn in Hctx |- *; rewrite Hctx; cbn;
    repeat (rewrite alter_last; cbn); reflexivity.
Qed.

(** One run of the callback of [f], when its encoder is set. *)
Lemma onaudioprocess_Done f input p enc :
  mp3Encoder (vars f p) = Some enc ->
  scriptProcessor_onaudioprocess f input p
  = let '(enc', mp3buf) := encodeBuffer enc (floatTo16BitPCM input) in
    let c := vars f p in
    Done tt
      (with_vars f
         (Build_capture (audioContext c) (micStream c) (scriptProcessor c)
            (Some enc')
            (if non_empty mp3buf then mp3Data c ++ [mp3buf] else mp3Data c))
         (with_log (log p ++ [CallEncodeBuffer f]) p)).
Proof.
  intros Henc.
  unfold scriptProcessor_onaudioprocess, bind, get, defined, record, modify.
  rewrite Henc. cbn.
  destruct (encodeBuffer enc (floatTo16BitPCM input)) as [enc' mp3buf].
  destruct f; reflexivity.
Qed.

(** The callbacks of a session, one block after the other. *)
Lemma audio_blocks f n inputs : forall p enc,
  callback_of n p = Some f ->
  mp3Encoder (vars f p) = Some enc ->
  let q := run (map (AudioProcess n) inputs) p in
  let '(enc', chunks) := encode_all enc (map floatTo16BitPCM inputs) in
  mp3Encoder (vars f q) = Some enc'
  /\ mp3Data (vars f q) = mp3Data (vars f p) ++ List.filter non_empty chunks
  /\ micStream (vars f q) = micStream (vars f p)
  /\ scriptProcessor (vars f q) = scriptProcessor (vars f p)
  /\ document q = document p
  /\ nodes q = nodes p
  /\ object_urls q = object_urls p.
Proof.
  induction inputs as [|input inputs IH]; intros p enc Hfire Henc; cbn.
  - rewrite app_nil_r. auto 10.
  - unfold run in *. cbn [map fold_left dispatch]. rewrite Hfire.
    rewrite (onaudioprocess_Done f input p enc Henc).
    destruct (encodeBuffer enc (floatTo16BitPCM input)) as [enc1 out] eqn:Hout.
    cbn [page_of].
    set (p1 := with_vars f _ _).
    assert (Hfire1 : callback_of n p1 = Some f) by (subst p1; destruct f; exact Hfire).
    assert (Henc1 : mp3Encoder (vars f p1) = Some enc1) by (subst p1; destruct f; reflexivity).
    specialize (IH p1 enc1 Hfire1 Henc1).
    destruct (encode_all enc1 (map floatTo16BitPCM inputs)) as [enc2 outs].
    destruct IH as (H1 & H2 & H3 & H4 & H5 & H6 & H7).
    assert (Hd : mp3Data (vars f p1) = if non_empty out then mp3Data (vars f p) ++ [out] else mp3Data (vars f p)) by (subst p1; destruct f; reflexivity).
    repeat split.
    + exact H1.
    + rewrite H2, Hd. cbn [List.filter].
      destruct (non_empty out); [rewrite <- app_assoc|]; reflexivity.
    + rewrite H3. subst p1; destruct f; reflexivity.
    + rewrite H4. subst p1; destruct f; reflexivity.
    + rewrite H5. subst p1; destruct f; reflexivity.
    + rewrite H6. subst p1; destruct f; reflexivity.
    + rewrite H7. subst p1; destruct f; reflexivity.
Qed.

End Capture.

Section Stop.
Context {encoder : Type} `{!Lamejs encoder}.
Implicit Types p q : page encoder.

(** Finalizing a flow whose handles are set. *)
Lemma finalize_Done f p n s enc :
  scriptProcessor (vars f p) = Some n ->
  micStream (vars f p) = Some s ->
  mp3Encoder (vars f p) = Some enc ->
  let parts := mp3Data (vars f p) ++ List.filter non_empty [snd (flush enc)] in
  finalize f p
  = Done (Blob parts "audio/mp3")
      (with_vars f
         (Build_capture (audioContext (vars f p)) (Some s) (Some n)
            (Some (fst (flush enc))) parts)
         (with_log (log p ++ [CallDisconnect n; CallTrackStop s; CallFlush f])
            (with_streams (<[s := false]> (streams p))
               (with_nodes
                  (alter (fun nd => Build_node (onaudioprocess nd) (fed nd) false)
                         n (nodes p)) p)))).
Proof.
  intros Hn Hs Henc parts. subst parts.
  unfold finalize, disconnect, stop_tracks, flush_encoder, update_node, bind,
    get, defined, record, modify, ret.
  destruct p as [r c ? ? ? ? ? ? ? ? ? ? ? ?].
  destruct f; [destruct r | destruct c]; cbn in Hn, Hs, Henc; subst; cbn;
    destruct (flush enc) as [enc' [|b mp3buf]]; cbn;
    rewrite <- ?app_assoc, ?app_nil_r; reflexivity.
Qed.

Lemma createObjectURL_Done b p :
  createObjectURL b p
  = Done ("blob:" +:+ Number_toString (Z.of_nat (length (object_urls p))))
      (with_object_urls (object_urls p ++ [b]) p).
Proof. reflexivity. Qed.

Lemma page_of_bind_Done {A B} (m : action A) (k : A -> action B) p a q :
  m p = Done a q -> page_of (bind m k p) = page_of (k a q).
Proof. intros H. rewrite page_of_bind, H. reflexivity. Qed.

Lemma set_element_Done id (g : element -> element) p e :
  document p !! id = Some e ->
  set_element id g p = Done tt (with_document (<[id := g e]> (document p)) p).
Proof. intros He. unfold set_element. rewrite He. reflexivity. Qed.

Lemma page_of_after {A B} R `{!PreOrder R} (m : action A) (k : A -> action B) p :
  (forall a, keeps R (k a)) -> R (page_of (m p)) (page_of (bind m k p)).
Proof.
  intros Hk. rewrite page_of_bind.
  destruct (m p) as [a q|e q]; cbn [page_of]; [apply Hk | reflexivity].
Qed.

(** The blob a stop click registers, whatever happens afterwards. *)
Lemma stopBtn_onclick_blob d p n s enc :
  scriptProcessor (recorder p) = Some n ->
  micStream (recorder p) = Some s ->
  mp3Encoder (recorder p) = Some enc ->
  object_urls (page_of (stopBtn_onclick d p))
  = object_urls p
    ++ [Blob (mp3Data (recorder p) ++ List.filter non_empty [snd (flush enc)])
             "audio/mp3"].
Proof.
  intros Hn Hs Henc.
  pose proof (finalize_Done Primary p n s enc Hn Hs Henc) as Hfin.
  cbn zeta in Hfin.
  unfold stopBtn_onclick.
  transitivity (object_urls (page_of (stop_recording d p))).
  { rewrite page_of_bind. destruct (stop_recording d p) as [l q|e q]; [|reflexivity].
    cbn [page_of].
    apply (keeps_page_of (same object_urls)).
    unfold fetchTranscription, record.
    keeps_steps ltac:(intros; reflexivity). }
  unfold stop_recording.
  rewrite (page_of_bind_Done _ _ _ _ _ Hfin).
  rewrite (page_of_bind_Done _ _ _ _ _ (createObjectURL_Done _ _)).
  etransitivity.
  { apply (keeps_page_of (same object_urls)).
    unfold textModal, clearInterval, getElementById.
    keeps_steps ltac:(intros; reflexivity). }
  destruct p; reflexivity.
Qed.

End Stop.

(** ** Sessions: what the events change *)

Section Frames.
Context {encoder : Type} `{!Lamejs encoder}.
Implicit Types p q : page encoder.

(** *** What a step leaves alone *)

Lemma vars_with_vars_ne f f' c p : f <> f' -> vars f (with_vars f' c p) = vars f p.
Proof. destruct f, f'; intros Hne; try congruence; reflexivity. Qed.

Lemma vars_with_vars f c p : vars f (with_vars f c p) = c.
Proof. destruct f; reflexivity. Qed.

Lemma nodes_with_vars f c p : nodes (with_vars f c p) = nodes p.
Proof. destruct f; reflexivity. Qed.

Lemma document_with_vars f c p : document (with_vars f c p) = document p.
Proof. destruct f; reflexivity. Qed.

Lemma log_with_vars f c p : log (with_vars f c p) = log p.
Proof. destruct f; reflexivity. Qed.

Lemma awaits_with_vars f c p : awaits (with_vars f c p) = awaits p.
Proof. destruct f; reflexivity. Qed.

Lemma disabled_of_set k id (g : element -> element) p e :
  document p !! id = Some e ->
  id <> k \/ disabled (g e) = disabled e ->
  disabled_of k (with_document (<[id := g e]> (document p)) p) = disabled_of k p.
Proof.
  intros He Hor. unfold disabled_of. cbn [document with_document].
  destruct (decide (id = k)) as [->|Hne].
  - rewrite lookup_insert_eq, He. cbn. destruct Hor as [Hne|Hd]; congruence.
  - rewrite lookup_insert_ne by exact Hne. reflexivity.
Qed.

Lemma clickable_disabled_of id p :
  clickable id p = match disabled_of id p with Some false => true | _ => false end.
Proof.
  unfold clickable, disabled_of.
  destruct (document p !! id) as [e|]; cbn; [destruct (disabled e)|]; reflexivity.
Qed.

(** A node keeps its callback when its connections change. *)
Lemma callback_of_alter (g : node -> node) n m p :
  (forall nd, onaudioprocess (g nd) = onaudioprocess nd) ->
  callback_of n (with_nodes (alter g m (nodes p)) p) = callback_of n p.
Proof.
  intros Hg. unfold callback_of. cbn [nodes with_nodes].
  destruct (decide (n = m)) as [->|Hne].
  - rewrite list_lookup_alter_eq. destruct (nodes p !! m) as [nd|]; cbn; auto.
  - rewrite list_lookup_alter_ne by congruence. reflexivity.
Qed.

Lemma callback_of_new_node n nd p :
  callback_of n (with_nodes (nodes p ++ [nd]) p)
  = if decide (n = length (nodes p)) then onaudioprocess nd else callback_of n p.
Proof.
  unfold callback_of. cbn [nodes with_nodes].
  destruct (decide (n = length (nodes p))) as [->|Hne].
  - rewrite lookup_app_r by lia. rewrite Nat.sub_diag. reflexivity.
  - destruct (decide (n < length (nodes p))%nat).
    + rewrite lookup_app_l by lia. reflexivity.
    + rewrite !lookup_ge_None_2; [reflexivity | lia | rewrite length_app; cbn; lia].
Qed.

(** The suspended handlers, when a call settles and when one is made. *)
Lemma awaited_settle k k' p :
  awaited k' (with_awaits (<[k := None]> (awaits p)) p)
  = if decide (k' = k) then None else awaited k' p.
Proof.
  unfold awaited. cbn [awaits with_awaits].
  destruct (decide (k' = k)) as [->|Hne].
  - destruct (decide (k < length (awaits p))%nat).
    + rewrite list_lookup_insert_eq by assumption. reflexivity.
    + rewrite lookup_ge_None_2; [reflexivity | rewrite length_insert; lia].
  - rewrite list_lookup_insert_ne by congruence. reflexivity.
Qed.

Lemma awaited_new k a p :
  awaited k (with_awaits (awaits p ++ [a]) p)
  = if decide (k = length (awaits p)) then a else awaited k p.
Proof.
  unfold awaited. cbn [awaits with_awaits].
  destruct (decide (k = length (awaits p))) as [->|Hne].
  - rewrite lookup_app_r by lia. rewrite Nat.sub_diag. reflexivity.
  - destruct (decide (k < length (awaits p))%nat).
    + rewrite lookup_app_l by lia. reflexivity.
    + rewrite !lookup_ge_None_2; [reflexivity | lia | rewrite length_app; cbn; lia].
Qed.

End Frames.

Ltac splits := repeat match goal with |- _ /\ _ => split end.

Section Orders.
Context {encoder : Type}.

#[global] Instance carried_preorder f : PreOrder (@carried encoder f).
Proof.
  split.
  - intros p n. reflexivity.
  - intros p q r H1 H2 n. rewrite (H2 n). apply H1.
Qed.

#[global] Instance suspended_le_preorder f : PreOrder (@suspended_le encoder f).
Proof. split; [intros p k H; exact H | intros p q r H1 H2 k H; auto]. Qed.

End Orders.

(** Side conditions of the steps, for the observations used below. *)
Ltac frame_side :=
  intros;
  first
    [ reflexivity
    | match goal with
      | He : document _ !! _ = Some _ |- same (disabled_of _) _ _ =>
          apply (disabled_of_set _ _ _ _ _ He);
          first [left; discriminate | right; reflexivity]
      end
    | unfold same, disabled_of; psimpl;
      rewrite ?lookup_insert_ne, ?lookup_delete_ne by discriminate; reflexivity
    | unfold appended; psimpl;
      repeat match goal with |- context [if ?b then _ else _] => destruct b end;
      first [reflexivity | apply prefix_app_r; reflexivity]
    | unfold carried; intros ?n; rewrite ?callback_of_alter by reflexivity;
      reflexivity
    | unfold suspended_le; intros ?k ?Hk; exact Hk ].

Ltac frames :=
  keeps_steps ltac:(first [frame_side | solve [auto with frames]]).

(** Unfolding the handlers, and running them step by step. *)
Ltac open_handlers :=
  unfold interval_callback, fetch_settled, show_transcription, show_instruction,
    log_error, json, data_transcription, set_control, window_onclick,
    fetchTranscription, closeModal, textModal, staticModal, clearInterval,
    createObjectURL, update_node, record, getElementById.

Ltac open_capture :=
  unfold scriptProcessor_onaudioprocess, finalize, disconnect, stop_tracks,
    flush_encoder, update_node, record.

Ltac open_stop :=
  unfold stopBtn_onclick, stop_recording, voiceChatStopBtn_onclick;
  open_handlers.

Ltac open_start :=
  unfold resumed, startBtn_onclick_resumed, voiceChatStartBtn_onclick_resumed.

Ltac peel H := rewrite (page_of_bind_Done _ _ _ _ _ H).

Ltac peel_set id :=
  match goal with
  | |- context [bind (set_element id ?g) ?k ?q] =>
      let e := fresh "e" in
      let He := fresh "He" in
      assert (exists e, document q !! id = Some e) as [e He]
        by (psimpl; rewrite ?lookup_insert_ne by discriminate;
            first [eassumption | eexists; eassumption | eexists; apply lookup_insert_eq]);
      peel (set_element_Done id g q e He)
  end.

Ltac peel_url :=
  match goal with
  | |- context [bind (createObjectURL ?b) ?k ?q] =>
      peel (createObjectURL_Done b q)
  end.

Ltac view_side :=
  intros; unfold same, session_view; psimpl;
  repeat match goal with |- (_, _) = (_, _) => f_equal end;
  first
    [ reflexivity
    | match goal with
      | He : document _ !! _ = Some _ |- _ =>
          apply (disabled_of_set _ _ _ _ _ He);
          first [left; discriminate | right; reflexivity]
      end ].

Section Sessions.
Context {encoder : Type} `{!Lamejs encoder}.
Implicit Types p q : page encoder.

(** *** Finalizing *)

Lemma finalize_disabled k f' : keeps (same (disabled_of k)) (finalize f').
Proof. destruct f'; open_capture; frames. Qed.

Lemma finalize_vars f f' : f <> f' -> keeps (same (vars f)) (finalize f').
Proof. intros Hne. destruct f, f'; try congruence; open_capture; frames. Qed.

Lemma finalize_appended f f' : keeps (appended f) (finalize f').
Proof. destruct f, f'; open_capture; frames. Qed.

Lemma finalize_carried f f' : keeps (carried f) (finalize f').
Proof. destruct f'; open_capture; frames. Qed.

Lemma finalize_awaits f' : keeps (same awaits) (finalize f').
Proof. destruct f'; open_capture; frames. Qed.

#[local] Hint Resolve finalize_disabled finalize_appended
  finalize_carried finalize_awaits : frames.
#[local] Hint Extern 1 (keeps (same (vars _)) (finalize _)) =>
  apply finalize_vars; discriminate : frames.

(** *** The start handlers *)

Lemma start_click_vars f f' rate :
  f <> f' -> keeps (encoder := encoder) (same (vars f)) (start_click f' rate).
Proof. intros Hne. destruct f, f'; try congruence; unfold start_click; frames. Qed.

Lemma start_click_disabled k f' rate :
  keeps (encoder := encoder) (same (disabled_of k)) (start_click f' rate).
Proof. destruct f'; unfold start_click; frames. Qed.

Lemma start_click_suspended f f' rate :
  f <> f' -> keeps (encoder := encoder) (suspended_le f) (start_click f' rate).
Proof.
  intros Hne p k. rewrite start_click_Done. cbn [page_of].
  change (awaited k (with_awaits (awaits p ++ [Some f']) p) = Some f
          -> awaited k p = Some f).
  rewrite awaited_new. case_decide; [congruence | tauto].
Qed.

Lemma start_capture_vars f f' granted :
  f <> f' -> keeps (same (vars f)) (start_capture f' granted).
Proof.
  intros Hne. destruct f, f'; try congruence;
    unfold start_capture, update_node; frames.
Qed.

Lemma start_capture_disabled k f' granted :
  keeps (same (disabled_of k)) (start_capture f' granted).
Proof. destruct f'; unfold start_capture, update_node; frames. Qed.

Lemma start_capture_awaits f' granted :
  keeps (same awaits) (start_capture f' granted).
Proof. destruct f'; unfold start_capture, update_node; frames. Qed.

Lemma start_capture_carried f f' granted :
  f <> f' -> keeps (carried f) (start_capture f' granted).
Proof.
  intros Hne p n. destruct granted; [|rewrite start_capture_denied; reflexivity].
  destruct (audioContext (vars f' p)) as [rate|] eqn:Hctx.
  - rewrite (start_capture_granted f' rate p Hctx). cbn [page_of].
    replace (callback_of n (with_nodes _ _))
      with (callback_of n (with_nodes (nodes p ++ [Build_node (Some f') true true]) p))
      by (destruct f'; reflexivity).
    rewrite callback_of_new_node. case_decide; [|reflexivity].
    subst n. unfold callback_of. rewrite lookup_ge_None_2 by lia. cbn.
    split; congruence.
  - rewrite (start_capture_undefined f' p Hctx). cbn [page_of].
    destruct f'; reflexivity.
Qed.

#[local] Hint Resolve start_capture_disabled start_capture_awaits : frames.
#[local] Hint Extern 1 (keeps (same (vars _)) (start_capture _ _)) =>
  apply start_capture_vars; discriminate : frames.
#[local] Hint Extern 1 (keeps (carried _) (start_capture _ _)) =>
  apply start_capture_carried; discriminate : frames.

Lemma resumed_vars f f' granted :
  f <> f' -> keeps (same (vars f)) (resumed f' granted).
Proof. intros Hne. destruct f, f'; try congruence; open_start; frames. Qed.

Lemma resumed_disabled f f' k granted :
  f <> f' -> k = start_button f \/ k = stop_button f ->
  keeps (same (disabled_of k)) (resumed f' granted).
Proof.
  intros Hne Hk.
  destruct f, f'; try congruence; destruct Hk as [-> | ->]; open_start; frames.
Qed.

Lemma resumed_carried f f' granted :
  f <> f' -> keeps (carried f) (resumed f' granted).
Proof. intros Hne. destruct f, f'; try congruence; open_start; frames. Qed.

Lemma resumed_awaits f' granted : keeps (same awaits) (resumed f' granted).
Proof. destruct f'; open_start; frames. Qed.

Lemma resumed_appended f f' granted :
  f <> f' -> keeps (appended f) (resumed f' granted).
Proof.
  intros Hne p. pose proof (resumed_vars f f' granted Hne p) as Hv.
  unfold same, appended in *. rewrite Hv. reflexivity.
Qed.

(** *** One event *)

Lemma resumes_other f k p f' :
  resumes f (UserMedia k true) p = false -> awaited k p = Some f' -> f <> f'.
Proof.
  cbn [resumes andb]. intros Hr Hk. rewrite Hk in Hr.
  apply bool_decide_eq_false in Hr. congruence.
Qed.

(** A start handler that is refused the microphone throws at its
    [await]. *)
Lemma resumed_refused f p : resumed f false p = Raised NotAllowedError p.
Proof. destruct f; reflexivity. Qed.

Lemma button_of_flow f k :
  k = start_button f \/ k = stop_button f -> is_button k.
Proof. unfold is_button. destruct f; cbn; intros [-> | ->]; auto. Qed.

Lemma start_not_taken f rate p :
  clickable (start_button f) p = false -> dispatch (start_event f rate) p = p.
Proof. destruct f; cbn [start_event dispatch start_button]; intros ->; reflexivity. Qed.

Lemma stop_not_taken f d p :
  clickable (stop_button f) p = false -> dispatch (stop_event f d) p = p.
Proof. destruct f; cbn [stop_event dispatch stop_button]; intros ->; reflexivity. Qed.

(** The variables of a flow are changed by clicks on its buttons, by
    the resumption of its start handler and by its callback only. *)
Lemma dispatch_vars f e p :
  is_start f e = false -> is_stop f e = false -> resumes f e p = false ->
  (forall n input, e = AudioProcess n input -> callback_of n p <> Some f) ->
  vars f (dispatch e p) = vars f p.
Proof.
  intros Hstart Hstop Hres Haudio.
  destruct e as [rate|d|rate| |n input|t|f' o|target|k granted]; cbn [dispatch].
  - destruct f; [discriminate|].
    destruct (clickable "startBtn" p); [|reflexivity].
    apply (keeps_page_of (same (vars VoiceChat))).
    apply start_click_vars. discriminate.
  - destruct f; [discriminate|].
    destruct (clickable "stopBtn" p); [|reflexivity].
    apply (keeps_page_of (same (vars VoiceChat))). open_stop. frames.
  - destruct f; [|discriminate].
    destruct (clickable "voiceChatStartBtn" p); [|reflexivity].
    apply (keeps_page_of (same (vars Primary))).
    apply start_click_vars. discriminate.
  - destruct f; [|discriminate].
    destruct (clickable "voiceChatStopBtn" p); [|reflexivity].
    apply (keeps_page_of (same (vars Primary))). open_stop. frames.
  - specialize (Haudio n input eq_refl).
    destruct (callback_of n p) as [f'|]; [|reflexivity].
    apply (keeps_page_of (same (vars f))).
    destruct f, f'; try congruence; open_capture; frames.
  - destruct (intervals p !! t) as [[]|]; try reflexivity.
    apply (keeps_page_of (same (vars f))). destruct f; open_handlers; frames.
  - apply (keeps_page_of (same (vars f))). destruct f, f'; open_handlers; frames.
  - apply (keeps_page_of (same (vars f))). destruct f; open_handlers; frames.
  - destruct (awaited k p) as [f'|] eqn:Hk; [|reflexivity].
    destruct granted; [|rewrite resumed_refused; destruct f; reflexivity].
    rewrite (resumed_vars f f' true (resumes_other f k p f' Hres Hk)).
    destruct f; reflexivity.
Qed.

(** The buttons of a flow are written by its stop handler and by the
    resumption of its start handler only. *)
Lemma dispatch_disabled f k e p :
  is_stop f e = false -> resumes f e p = false ->
  k = start_button f \/ k = stop_button f ->
  disabled_of k (dispatch e p) = disabled_of k p.
Proof.
  intros Hstop Hres Hk. pose proof (button_of_flow f k Hk) as Hb.
  destruct e as [rate|d|rate| |n input|t|f' o|target|k' granted]; cbn [dispatch].
  - destruct (clickable "startBtn" p); [|reflexivity].
    apply (keeps_page_of (same (disabled_of k))), start_click_disabled.
  - destruct f; [discriminate|].
    destruct (clickable "stopBtn" p); [|reflexivity].
    apply (keeps_page_of (same (disabled_of k))).
    destruct Hk as [-> | ->]; open_stop; frames.
  - destruct (clickable "voiceChatStartBtn" p); [|reflexivity].
    apply (keeps_page_of (same (disabled_of k))), start_click_disabled.
  - destruct f; [|discriminate].
    destruct (clickable "voiceChatStopBtn" p); [|reflexivity].
    apply (keeps_page_of (same (disabled_of k))).
    destruct Hk as [-> | ->]; open_stop; frames.
  - destruct (callback_of n p) as [f'|]; [|reflexivity].
    apply (keeps_page_of (same (disabled_of k))).
    destruct f'; open_capture; frames.
  - destruct (intervals p !! t) as [[]|]; try reflexivity.
    apply (keeps_page_of (same (disabled_of k))).
    destruct Hb as [->|[->|[->| ->]]]; open_handlers; frames.
  - apply (keeps_page_of (same (disabled_of k))).
    destruct Hb as [->|[->|[->| ->]]]; destruct f'; open_handlers; frames.
  - apply (keeps_page_of (same (disabled_of k))). open_handlers; frames.
  - destruct (awaited k' p) as [f'|] eqn:Hk'; [|reflexivity].
    destruct granted; [|rewrite resumed_refused; reflexivity].
    rewrite (resumed_disabled f f' k true
               (resumes_other f k' p f' Hres Hk') Hk).
    reflexivity.
Qed.

(** A node comes to carry the callback of a flow by the resumption of
    the start handler of the flow only, and no node ever loses it. *)
Lemma dispatch_carried f e p :
  resumes f e p = false -> carried f p (dispatch e p).
Proof.
  intros Hres.
  destruct e as [rate|d|rate| |n input|t|f' o|target|k granted]; cbn [dispatch].
  - destruct (clickable "startBtn" p); [|reflexivity].
    apply (keeps_page_of (carried f)). unfold startBtn_onclick, start_click. frames.
  - destruct (clickable "stopBtn" p); [|reflexivity].
    apply (keeps_page_of (carried f)). open_stop. frames.
  - destruct (clickable "voiceChatStartBtn" p); [|reflexivity].
    apply (keeps_page_of (carried f)).
    unfold voiceChatStartBtn_onclick, start_click. frames.
  - destruct (clickable "voiceChatStopBtn" p); [|reflexivity].
    apply (keeps_page_of (carried f)). open_stop. frames.
  - destruct (callback_of n p) as [f'|]; [|reflexivity].
    apply (keeps_page_of (carried f)). destruct f'; open_capture; frames.
  - destruct (intervals p !! t) as [[]|]; try reflexivity.
    apply (keeps_page_of (carried f)). open_handlers; frames.
  - apply (keeps_page_of (carried f)). destruct f'; open_handlers; frames.
  - apply (keeps_page_of (carried f)). open_handlers; frames.
  - destruct (awaited k p) as [f'|] eqn:Hk; [|reflexivity].
    destruct granted; [|rewrite resumed_refused; intros n; reflexivity].
    pose proof (resumed_carried f f' true
                  (resumes_other f k p f' Hres Hk)
                  (with_awaits (<[k := None]> (awaits p)) p)) as Hc.
    intros n. rewrite (Hc n). reflexivity.
Qed.

(** A start handler of a flow comes to be suspended by a click on the
    start button of the flow only. *)
Lemma dispatch_suspended f e p :
  is_start f e = false -> suspended_le f p (dispatch e p).
Proof.
  intros Hstart.
  assert (Hsame : forall q, same awaits p q -> suspended_le f p q).
  { intros q Hq k. unfold awaited. rewrite Hq. tauto. }
  destruct e as [rate|d|rate| |n input|t|f' o|target|k granted]; cbn [dispatch].
  - destruct f; [discriminate|].
    destruct (clickable "startBtn" p); [|reflexivity].
    apply (keeps_page_of (suspended_le VoiceChat)).
    apply start_click_suspended. discriminate.
  - destruct (clickable "stopBtn" p); [|reflexivity].
    apply Hsame, (keeps_page_of (same awaits)). open_stop. frames.
  - destruct f; [|discriminate].
    destruct (clickable "voiceChatStartBtn" p); [|reflexivity].
    apply (keeps_page_of (suspended_le Primary)).
    apply start_click_suspended. discriminate.
  - destruct (clickable "voiceChatStopBtn" p); [|reflexivity].
    apply Hsame, (keeps_page_of (same awaits)). open_stop. frames.
  - destruct (callback_of n p) as [f'|]; [|reflexivity].
    apply Hsame, (keeps_page_of (same awaits)). destruct f'; open_capture; frames.
  - destruct (intervals p !! t) as [[]|]; try reflexivity.
    apply Hsame, (keeps_page_of (same awaits)). open_handlers; frames.
  - apply Hsame, (keeps_page_of (same awaits)). destruct f'; open_handlers; frames.
  - apply Hsame, (keeps_page_of (same awaits)). open_handlers; frames.
  - destruct (awaited k p) as [f'|] eqn:Hk; [|reflexivity].
    intros k' Hk'. unfold awaited in Hk'.
    rewrite (resumed_awaits f' granted) in Hk'.
    change (awaited k' (with_awaits (<[k := None]> (awaits p)) p) = Some f) in Hk'.
    rewrite awaited_settle in Hk'. case_decide; [discriminate | exact Hk'].
Qed.

(** Apart from the resumption of its start handler, which empties the
    chunk buffer of a flow, no event takes anything out of the buffer
    or changes what is in it. *)
Lemma dispatch_appended f e p :
  resumes f e p = false -> appended f p (dispatch e p).
Proof.
  intros Hres.
  destruct e as [rate|d|rate| |n input|t|f' o|target|k granted]; cbn [dispatch].
  - destruct (clickable "startBtn" p); [|reflexivity].
    apply (keeps_page_of (appended f)).
    destruct f; unfold startBtn_onclick, start_click; frames.
  - destruct (clickable "stopBtn" p); [|reflexivity].
    apply (keeps_page_of (appended f)). destruct f; open_stop; frames.
  - destruct (clickable "voiceChatStartBtn" p); [|reflexivity].
    apply (keeps_page_of (appended f)).
    destruct f; unfold voiceChatStartBtn_onclick, start_click; frames.
  - destruct (clickable "voiceChatStopBtn" p); [|reflexivity].
    apply (keeps_page_of (appended f)). destruct f; open_stop; frames.
  - destruct (callback_of n p) as [f'|]; [|reflexivity].
    apply (keeps_page_of (appended f)). destruct f, f'; open_capture; frames.
  - destruct (intervals p !! t) as [[]|]; try reflexivity.
    apply (keeps_page_of (appended f)). destruct f; open_handlers; frames.
  - apply (keeps_page_of (appended f)). destruct f, f'; open_handlers; frames.
  - apply (keeps_page_of (appended f)). destruct f; open_handlers; frames.
  - destruct (awaited k p) as [f'|] eqn:Hk; [|reflexivity].
    destruct granted;
      [|rewrite resumed_refused; unfold appended; destruct f; cbn; reflexivity].
    pose proof (resumed_appended f f' true
                  (resumes_other f k p f' Hres Hk)
                  (with_awaits (<[k := None]> (awaits p)) p)) as Ha.
    unfold appended in *. destruct f; exact Ha.
Qed.

(** *** A session from its start *)

(** The resumption of a start handler that is granted the microphone,
    on a page that has the two buttons of the flow. *)
Lemma resumed_granted f rate p e1 e2 :
  audioContext (vars f p) = Some rate ->
  document p !! start_button f = Some e1 ->
  document p !! stop_button f = Some e2 ->
  let q := page_of (resumed f true p) in
  vars f q
  = Build_capture (Some rate) (Some (length (streams p)))
      (Some (length (nodes p))) (Some (Mp3Encoder 1 rate 128)) []
  /\ disabled_of (start_button f) q = Some true
  /\ disabled_of (stop_button f) q = Some false
  /\ nodes q = nodes p ++ [Build_node (Some f) true true]
  /\ streams q = streams p ++ [true]
  /\ awaits q = awaits p
  /\ object_urls q = object_urls p
  /\ log q = log p.
Proof.
  intros Hctx H1 H2 q.
  enough (Hv : session_view f q
               = (Build_capture (Some rate) (Some (length (streams p)))
                    (Some (length (nodes p))) (Some (Mp3Encoder 1 rate 128)) [],
                  Some true, Some false,
                  nodes p ++ [Build_node (Some f) true true],
                  streams p ++ [true], awaits p, object_urls p, log p)).
  { unfold session_view in Hv.
    injection Hv as -> -> -> -> -> -> -> ->. splits; reflexivity. }
  subst q. pose proof (start_capture_granted f rate p Hctx) as Hcap.
  destruct f; cbn [resumed start_button stop_button] in *; open_start.
  - peel Hcap. peel_set "startBtn"%string. peel_set "stopBtn"%string.
    match goal with |- session_view _ (page_of (?m ?q)) = _ =>
      transitivity (session_view Primary q);
        [ apply (keeps_page_of (same (session_view Primary)) m q);
          keeps_steps view_side |]
    end.
    psimpl.
    repeat match goal with
           | H : <[?k := _]> _ !! ?k = Some _ |- _ =>
               rewrite lookup_insert_eq in H; injection H as <-
           end.
    unfold session_view, disabled_of. psimpl.
    repeat first [rewrite lookup_insert_eq
                 | rewrite lookup_insert_ne by discriminate].
    reflexivity.
  - peel Hcap. peel_set "voiceChatStartBtn"%string.
    peel_set "voiceChatStartBtn"%string. peel_set "voiceChatStopBtn"%string.
    match goal with |- session_view _ (page_of (?m ?q)) = _ =>
      transitivity (session_view VoiceChat q);
        [ apply (keeps_page_of (same (session_view VoiceChat)) m q);
          keeps_steps view_side |]
    end.
    psimpl.
    repeat match goal with
           | H : <[?k := _]> _ !! ?k = Some _ |- _ =>
               rewrite lookup_insert_eq in H; injection H as <-
           end.
    unfold session_view, disabled_of. psimpl.
    repeat first [rewrite lookup_insert_eq
                 | rewrite lookup_insert_ne by discriminate].
    reflexivity.
Qed.

(** *** A session from its start to its stop *)

Lemma run_cons e es p : run (e :: es) p = run es (dispatch e p).
Proof. reflexivity. Qed.

Lemma run_app es es' p : run (es ++ es') p = run es' (run es p).
Proof. unfold run. apply fold_left_app. Qed.

Lemma blocks_of_carried f p q es :
  carried f p q -> blocks_of f q es = blocks_of f p es.
Proof.
  intros Hc. unfold blocks_of.
  induction es as [|e es IH]; [reflexivity|].
  cbn [omap list_omap]. rewrite IH.
  destruct e; try reflexivity.
  repeat case_decide; try reflexivity; exfalso;
    match goal with H : _ <> _ |- _ => apply H end; apply Hc; assumption.
Qed.

Lemma resumes_le f e p q :
  suspended_le f p q -> resumes f e p = false -> resumes f e q = false.
Proof.
  intros Hle. destruct e; try reflexivity. cbn [resumes].
  destruct granted; [|reflexivity]. cbn [andb].
  rewrite !bool_decide_eq_false. intros Hp Hq. exact (Hp (Hle _ Hq)).
Qed.

Lemma is_start_event f e :
  is_start f e = true -> exists rate, e = start_event f rate.
Proof. destruct f, e; try discriminate; eauto. Qed.

(** While the start button of a flow is disabled, what the events that
    are neither a stop click nor a resumption of the flow do to its
    variables: its callbacks feed the encoder and append the chunks
    that are not empty, and nothing else touches them. *)
Lemma session_blocks f p0 es : forall p enc,
  mp3Encoder (vars f p) = Some enc ->
  suspended_le f p0 p ->
  carried f p0 p ->
  clickable (start_button f) p = false ->
  Forall (fun e => is_stop f e = false /\ resumes f e p0 = false) es ->
  let q := run es p in
  let '(enc', chunks) :=
    encode_all enc (map floatTo16BitPCM (blocks_of f p0 es)) in
  mp3Encoder (vars f q) = Some enc'
  /\ mp3Data (vars f q) = mp3Data (vars f p) ++ List.filter non_empty chunks
  /\ micStream (vars f q) = micStream (vars f p)
  /\ scriptProcessor (vars f q) = scriptProcessor (vars f p)
  /\ disabled_of (stop_button f) q = disabled_of (stop_button f) p.
Proof.
  induction es as [|e es IH]; intros p enc Henc Hsus Hcar Hoff Hes; cbn zeta.
  { cbn. rewrite app_nil_r. auto. }
  inversion Hes as [|? ? [Hstop Hres0] Hes']; subst.
  pose proof (resumes_le f e p0 p Hsus Hres0) as Hres.
  rewrite run_cons.
  assert (Hoff1 : clickable (start_button f) (dispatch e p) = false).
  { rewrite clickable_disabled_of,
      (dispatch_disabled f _ e p Hstop Hres (or_introl eq_refl)),
      <- clickable_disabled_of. exact Hoff. }
  assert (Hstop1 : disabled_of (stop_button f) (dispatch e p)
                   = disabled_of (stop_button f) p)
    by exact (dispatch_disabled f _ e p Hstop Hres (or_intror eq_refl)).
  assert (Hcar1 : carried f p0 (dispatch e p))
    by (etransitivity; [exact Hcar | exact (dispatch_carried f e p Hres)]).
  assert (Hsus1 : suspended_le f p0 (dispatch e p)).
  { destruct (is_start f e) eqn:Hstart.
    - destruct (is_start_event f e Hstart) as [rate ->].
      rewrite (start_not_taken f rate p Hoff). exact Hsus.
    - etransitivity; [exact Hsus | exact (dispatch_suspended f e p Hstart)]. }
  assert (Hcases :
    (exists n input, e = AudioProcess n input /\ callback_of n p = Some f)
    \/ (blocks_of f p0 (e :: es) = blocks_of f p0 es
        /\ vars f (dispatch e p) = vars f p)).
  { destruct (is_start f e) eqn:Hstart.
    { destruct (is_start_event f e Hstart) as [rate ->].
      right. rewrite (start_not_taken f rate p Hoff).
      split; [destruct f|]; reflexivity. }
    destruct e as [rate|d|rate| |n input|t|f' o|target|k granted];
      try (right; split;
           [reflexivity
           | apply dispatch_vars; try assumption; intros ? ? [=]]).
    destruct (decide (callback_of n p = Some f)) as [Hcb|Hcb]; [left; eauto|].
    right. split.
    - unfold blocks_of. cbn [omap list_omap].
      case_decide as Hcb0; [|reflexivity].
      destruct Hcb. apply Hcar, Hcb0.
    - apply dispatch_vars; try assumption. intros ? ? [= <- <-]. exact Hcb. }
  destruct Hcases as [(n & input & -> & Hcb) | [Hblocks Hvars]].
  - assert (Hcb0 : callback_of n p0 = Some f) by (apply Hcar, Hcb).
    unfold blocks_of. cbn [omap list_omap]. rewrite decide_True by exact Hcb0.
    fold (blocks_of f p0 es). cbn [map encode_all].
    cbn [dispatch] in *. rewrite Hcb in *.
    rewrite (onaudioprocess_Done f input p enc Henc) in *.
    destruct (encodeBuffer enc (floatTo16BitPCM input)) as [enc1 out].
    cbn [page_of] in *.
    set (p1 := with_vars f _ _) in *.
    assert (Hv1 : vars f p1
                  = Build_capture (audioContext (vars f p)) (micStream (vars f p))
                      (scriptProcessor (vars f p)) (Some enc1)
                      (if non_empty out then mp3Data (vars f p) ++ [out]
                       else mp3Data (vars f p)))
      by (subst p1; apply vars_with_vars).
    assert (Henc1 : mp3Encoder (vars f p1) = Some enc1) by (rewrite Hv1; reflexivity).
    specialize (IH p1 enc1 Henc1 Hsus1 Hcar1 Hoff1 Hes'). cbn zeta in IH.
    destruct (encode_all enc1 (map floatTo16BitPCM (blocks_of f p0 es)))
      as [enc2 outs].
    destruct IH as (I1 & I2 & I3 & I4 & I5).
    rewrite Hv1 in I2, I3, I4. cbn [mp3Data micStream scriptProcessor] in I2, I3, I4.
    splits; try assumption.
    + rewrite I2. cbn [List.filter].
      destruct (non_empty out); [rewrite <- app_assoc|]; reflexivity.
    + rewrite I5. exact Hstop1.
  - rewrite Hblocks.
    assert (Henc1 : mp3Encoder (vars f (dispatch e p)) = Some enc)
      by (rewrite Hvars; exact Henc).
    specialize (IH (dispatch e p) enc Henc1 Hsus1 Hcar1 Hoff1 Hes'). cbn zeta in IH.
    destruct (encode_all enc (map floatTo16BitPCM (blocks_of f p0 es)))
      as [enc2 outs].
    destruct IH as (I1 & I2 & I3 & I4 & I5).
    rewrite Hvars in I2, I3, I4.
    splits; try assumption. rewrite I5. exact Hstop1.
Qed.

(** C5.  A session of the recorder starts when its start handler
    resumes with the microphone granted, on a page that has the two
    buttons: that is where the handler makes the encoder and empties
    the buffer.  It is stopped by the next click on stop.  [es] are the
    events in between: any events but a click on stop and the start of
    another session of the recorder, so ticks of the timer, clicks,
    callbacks of any node and the events of the other flow are all
    among them.  [inputs] are the blocks on which the callback of the
    recorder is run by these events.  With [chunks] what the encoder
    put out block by block and [final] what its flush puts out: the
    buffer holds the non-empty chunks (all of them, if none is empty),
    and the blob registered by the stop handler is the chunks followed
    by [final], so that its size is the sum of their lengths plus the
    length of [final]. *)
Theorem artifact_length rate k es d p :
  awaited k p = Some Primary ->
  audioContext (recorder p) = Some rate ->
  is_Some (document p !! "startBtn") ->
  is_Some (document p !! "stopBtn") ->
  let started := dispatch (UserMedia k true) p in
  Forall (fun e => is_stop Primary e = false
                   /\ resumes Primary e started = false) es ->
  let recording := run es started in
  let stopped := dispatch (ClickStop d) recording in
  let inputs := blocks_of Primary started es in
  let chunks := snd (encode_all (Mp3Encoder 1 rate 128)
                       (map floatTo16BitPCM inputs)) in
  let final := snd (flush (fst (encode_all (Mp3Encoder 1 rate 128)
                                   (map floatTo16BitPCM inputs)))) in
  mp3Data (recorder recording) = List.filter non_empty chunks
  /\ (Forall (fun c => non_empty c = true) chunks ->
      mp3Data (recorder recording) = chunks)
  /\ exists artifact,
       object_urls stopped = object_urls recording ++ [artifact]
       /\ blob_bytes artifact = concat chunks ++ final
       /\ blob_size artifact
          = (list_sum (map (@length Byte.byte) chunks) + length final)%nat.
Proof.
  intros Hk Hctx [e1 H1] [e2 H2] started Hes recording stopped inputs chunks final.
  set (p1 := with_awaits (<[k := None]> (awaits p)) p).
  assert (Hstarted : started = page_of (resumed Primary true p1)).
  { subst started. cbn [dispatch]. rewrite Hk. reflexivity. }
  destruct (resumed_granted Primary rate p1 e1 e2 Hctx H1 H2)
    as (Hrec & Hd1 & Hd2 & _).
  cbn zeta in Hrec, Hd1, Hd2. rewrite <- Hstarted in Hrec, Hd1, Hd2.
  cbn [vars start_button stop_button] in Hrec, Hd1, Hd2.
  assert (Hoff : clickable (start_button Primary) started = false)
    by (rewrite clickable_disabled_of; cbn [start_button]; rewrite Hd1; reflexivity).
  pose proof (session_blocks Primary started es started (Mp3Encoder 1 rate 128)) as Hblocks.
  cbn [vars] in Hblocks. rewrite Hrec in Hblocks.
  specialize (Hblocks eq_refl ltac:(reflexivity) ltac:(reflexivity) Hoff Hes).
  cbn zeta in Hblocks. fold recording inputs in Hblocks.
  subst chunks final.
  destruct (encode_all (Mp3Encoder 1 rate 128) (map floatTo16BitPCM inputs))
    as [enc chunks].
  cbn [fst snd].
  destruct Hblocks as (Henc & Hdata & Hmic & Hsp & Hdis).
  cbn [mp3Data micStream scriptProcessor app stop_button] in Hdata, Hmic, Hsp, Hdis.
  split; [exact Hdata|]. split.
  { intros Hall. rewrite Hdata. clear -Hall.
    induction Hall as [|c cs Hc _ IH]; [reflexivity|].
    cbn [List.filter]. rewrite Hc, IH. reflexivity. }
  eexists. split.
  - subst stopped. cbn [dispatch].
    replace (clickable "stopBtn" recording) with true
      by (rewrite clickable_disabled_of, Hdis, Hd2; reflexivity).
    rewrite (stopBtn_onclick_blob d recording _ _ _ Hsp Hmic Henc).
    reflexivity.
  - assert (Hcat : concat (mp3Data (recorder recording)
                           ++ List.filter non_empty [snd (flush enc)])
                   = concat chunks ++ snd (flush enc)).
    { rewrite concat_app, Hdata. f_equal.
      - clear. induction chunks as [|c cs IH]; [reflexivity|].
        cbn. destruct c; cbn; rewrite IH; reflexivity.
      - destruct (snd (flush enc)); cbn; rewrite ?app_nil_r; reflexivity. }
    split; [exact Hcat|].
    unfold blob_size. cbn [Blob blob_bytes]. rewrite Hcat.
    rewrite length_app. f_equal.
    clear. induction chunks as [|c cs IH]; [reflexivity|].
    cbn. rewrite length_app, IH. reflexivity.
Qed.

(** *** The stop handlers *)

(** A stop click that finalizes leaves the stop button disabled. *)
Lemma stopBtn_onclick_disables d p n s enc :
  scriptProcessor (recorder p) = Some n ->
  micStream (recorder p) = Some s ->
  mp3Encoder (recorder p) = Some enc ->
  is_Some (document p !! "stopBtn") ->
  stop_ready Primary p ->
  disabled_of "stopBtn" (page_of (stopBtn_onclick d p)) = Some true.
Proof.
  intros Hn Hs Henc [e4 H4] ([e1 H1] & [e2 H2] & [e3 H3]).
  pose proof (finalize_Done Primary p n s enc Hn Hs Henc) as Hfin.
  cbn zeta in Hfin.
  transitivity (disabled_of "stopBtn" (page_of (stop_recording d p))).
  { unfold stopBtn_onclick.
    apply (page_of_after (same (disabled_of "stopBtn"))).
    intros l. open_stop. frames. }
  unfold stop_recording.
  peel Hfin. peel_url.
  peel_set "audioPlayback"%string.
  peel_set "downloadLink"%string.
  peel_set "startBtn"%string.
  peel_set "stopBtn"%string.
  match goal with |- disabled_of _ (page_of (?m ?q)) = _ =>
    transitivity (disabled_of "stopBtn" q);
      [ apply (keeps_page_of (same (disabled_of "stopBtn")) m q); open_stop; frames |]
  end.
  unfold disabled_of. psimpl. rewrite lookup_insert_eq. reflexivity.
Qed.

Lemma voiceChatStopBtn_onclick_disables p n s enc :
  scriptProcessor (chat p) = Some n ->
  micStream (chat p) = Some s ->
  mp3Encoder (chat p) = Some enc ->
  is_Some (document p !! "voiceChatStopBtn") ->
  stop_ready VoiceChat p ->
  disabled_of "voiceChatStopBtn" (page_of (voiceChatStopBtn_onclick p)) = Some true.
Proof.
  intros Hn Hs Henc [e2 H2] [e1 H1].
  pose proof (finalize_Done VoiceChat p n s enc Hn Hs Henc) as Hfin.
  cbn zeta in Hfin.
  unfold voiceChatStopBtn_onclick.
  peel Hfin. peel_url.
  peel_set "voiceChatStartBtn"%string.
  peel_set "voiceChatStartBtn"%string.
  peel_set "voiceChatStopBtn"%string.
  match goal with |- disabled_of _ (page_of (?m ?q)) = _ =>
    transitivity (disabled_of "voiceChatStopBtn" q);
      [ apply (keeps_page_of (same (disabled_of "voiceChatStopBtn")) m q);
        open_stop; frames |]
  end.
  unfold disabled_of. psimpl. rewrite lookup_insert_eq. reflexivity.
Qed.

(** A stop click on a capture in progress, on a page that has the
    elements the handler writes up to its button, leaves the stop
    button disabled. *)
Lemma stop_disables f d p n s enc :
  scriptProcessor (vars f p) = Some n ->
  micStream (vars f p) = Some s ->
  mp3Encoder (vars f p) = Some enc ->
  clickable (stop_button f) p = true ->
  stop_ready f p ->
  clickable (stop_button f) (dispatch (stop_event f d) p) = false.
Proof.
  intros Hn Hs Henc Hc Hready.
  destruct (clickable_Some _ _ Hc) as (e & Hel & _).
  rewrite clickable_disabled_of.
  destruct f; cbn [stop_event dispatch stop_button vars] in *; rewrite Hc.
  - rewrite (stopBtn_onclick_disables d p n s enc); eauto.
  - rewrite (voiceChatStopBtn_onclick_disables p n s enc); eauto.
Qed.

(** A stop click on a flow whose [scriptProcessor] is undefined throws
    at once and leaves the page as it was. *)
Lemma stop_undefined f d p :
  scriptProcessor (vars f p) = None -> dispatch (stop_event f d) p = p.
Proof.
  intros Hsp.
  destruct f; cbn [stop_event dispatch vars] in *.
  - destruct (clickable "stopBtn" p); [|reflexivity].
    unfold stopBtn_onclick, stop_recording, finalize, disconnect, bind,
      get, defined, throw. cbn [vars]. rewrite Hsp. reflexivity.
  - destruct (clickable "voiceChatStopBtn" p); [|reflexivity].
    unfold voiceChatStopBtn_onclick, finalize, disconnect, bind,
      get, defined, throw. cbn [vars]. rewrite Hsp. reflexivity.
Qed.

End Sessions.

(** C6.  Two clicks on start before the microphone is granted.  The
    start button is disabled when the handler resumes, not when it is
    clicked, so the second click is taken as well.  Both handlers
    resume: each makes a stream and a node that carries the callback of
    the recorder, and the variables keep the second of each.  The click
    on stop then disconnects the second node, stops the second stream
    and flushes the encoder; the first node stays connected and the
    first stream live.  Its callback goes on running, and the chunks it
    produces are appended to the buffer after the recording was
    finalized: they are missing from the blob that was registered. *)
Theorem double_start_appends_after_stop :
  let p := Demo.loaded (-60) "" ∅ in
  let clicked := dispatch (ClickStart 44100) p in
  let started :=
    run [ClickStart 44100; UserMedia 0 true; UserMedia 1 true;
         AudioProcess 0 Demo.square; AudioProcess 1 Demo.square] clicked in
  let stopped := dispatch (ClickStop Demo.march5) started in
  let later := run [AudioProcess 0 Demo.square; AudioProcess 0 Demo.square]
                   stopped in
  clickable "startBtn" clicked = true
  /\ scriptProcessor (recorder started) = Some 1%nat
  /\ micStream (recorder started) = Some 1%nat
  /\ log stopped
     = log started ++ [CallDisconnect 1; CallTrackStop 1; CallFlush Primary]
  /\ nodes stopped
     = [Build_node (Some Primary) true true; Build_node (Some Primary) true false]
  /\ streams stopped = [true; false]
  /\ mp3Data (recorder stopped) = [[Byte.x4d]; [Byte.x4d; Byte.x4d]]
  /\ object_urls stopped = [Blob (mp3Data (recorder stopped)) "audio/mp3"]
  /\ mp3Data (recorder later)
     = mp3Data (recorder stopped) ++ [[Byte.x4d]; [Byte.x4d; Byte.x4d]].
Proof. vm_compute. repeat split; reflexivity. Qed.

(** ** What stop builds and posts *)

Section StopFacts.
Context {encoder : Type} `{!Lamejs encoder}.
Implicit Types p q : page encoder.

Ltac inv_bind H :=
  let a := fresh "a" in
  let p1 := fresh "p" in
  let H1 := fresh "Hstep" in
  apply bind_Done in H; destruct H as (a & p1 & H1 & H).

Lemma attribute_set {X} (g : element -> X) k id (h : element -> element) p e :
  document p !! id = Some e ->
  id <> k \/ g (h e) = g e ->
  same (fun p => g <$> document p !! k) p
    (with_document (<[id := h e]> (document p)) p).
Proof.
  intros He Hor. unfold same. cbn [document with_document].
  destruct (decide (id = k)) as [->|Hne].
  - rewrite lookup_insert_eq, He. cbn. destruct Hor as [Hne|Hd]; congruence.
  - rewrite lookup_insert_ne by exact Hne. reflexivity.
Qed.

Ltac attribute_side :=
  intros;
  first
    [ reflexivity
    | unfold same; reflexivity
    | match goal with
      | He : document _ !! _ = Some _ |- _ =>
          apply (attribute_set _ _ _ _ _ _ He);
          first [left; discriminate | right; reflexivity]
      end ].

Ltac attributes := keeps_steps attribute_side.

(** A step that finished relates the page before and after. *)
Ltac carry R Hstep :=
  match type of Hstep with
  | ?m ?p = Done ?a ?q =>
      let Hc := fresh "Hcarry" in
      assert (Hc : R p q)
        by (apply (keeps_Done R m p a q);
            [ unfold textModal, clearInterval, getElementById; attributes
            | exact Hstep ]);
      unfold same in Hc
  end.

Lemma startsWith_app (a b : string) : startsWith a (a +:+ b) = true.
Proof.
  unfold startsWith. induction a as [|c a IH].
  - destruct b; reflexivity.
  - change (String c a +:+ b) with (String c (a +:+ b)).
    cbn [String.prefix]. destruct (ascii_dec c c); [exact IH | congruence].
Qed.

Lemma set_element_inv id (g : element -> element) p u q :
  set_element id g p = Done u q ->
  exists e, document p !! id = Some e
            /\ q = with_document (<[id := g e]> (document p)) p.
Proof.
  unfold set_element. destruct (document p !! id) as [e|]; [|discriminate].
  intros H. injection H as _ <-. eauto.
Qed.

Lemma textModal_Done s p u q :
  textModal s p = Done u q -> modal_display q = Some "block"%string.
Proof.
  intros H. pose proof H as H0.
  unfold textModal in H. inv_bind H. apply set_element_inv in Hstep as (e & He & _).
  pose proof (textModal_keeps_modal p s e He) as Hm. rewrite H0 in Hm.
  unfold modal_display. cbn [page_of] in Hm. rewrite Hm. reflexivity.
Qed.

Lemma stop_recording_tz d : keeps (same timezoneOffset) (stop_recording d).
Proof.
  unfold stop_recording, textModal, clearInterval, createObjectURL,
    getElementById. frames.
Qed.

(** What the locals of a completed [stop_recording] are, and what it
    leaves in the page. *)
Lemma stop_recording_locals d p l q :
  stop_recording d p = Done l q ->
  stop_formattedDateTime l = formattedDateTime d
  /\ stop_formData l
     = new_recording_form (stop_blob l) (formattedDateTime d) (timezoneOffset p)
  /\ startsWith "blob:" (stop_url l) = true
  /\ download <$> document q !! "downloadLink"
     = Some (formattedDateTime d +:+ ".mp3")
  /\ value <$> document q !! "local_datetime" = Some (formattedDateTime d)
  /\ modal_display q = Some "block"%string.
Proof.
  intros H.
  pose proof (keeps_Done _ _ _ _ _ (stop_recording_tz d) H) as Htz.
  unfold same in Htz.
  unfold stop_recording in H.
  inv_bind H. inv_bind H.
  rewrite createObjectURL_Done in Hstep0. injection Hstep0 as <- <-.
  do 12 inv_bind H.
  injection H as <- <-. cbn [stop_formattedDateTime stop_formData stop_url stop_blob].
  unfold get in Hstep7, Hstep10.
  injection Hstep7 as <- <-. injection Hstep10 as <- <-.
  splits.
  - reflexivity.
  - carry (same (encoder := encoder) timezoneOffset) Hstep11.
    unfold new_recording_form, append. cbn [app].
    rewrite <- Hcarry, Htz. reflexivity.
  - apply startsWith_app.
  - apply set_element_inv in Hstep4 as (e & He & Hp5).
    carry (same (encoder := encoder) (fun p => download <$> document p !! "downloadLink")) Hstep5.
    carry (same (encoder := encoder) (fun p => download <$> document p !! "downloadLink")) Hstep6.
    carry (same (encoder := encoder) (fun p => download <$> document p !! "downloadLink")) Hstep8.
    carry (same (encoder := encoder) (fun p => download <$> document p !! "downloadLink")) Hstep9.
    carry (same (encoder := encoder) (fun p => download <$> document p !! "downloadLink")) Hstep11.
    rewrite Hcarry3, Hcarry2, Hcarry1, Hcarry0, Hcarry, Hp5.
    cbn [document with_document]. rewrite lookup_insert_eq. reflexivity.
  - apply set_element_inv in Hstep5 as (e & He & Hp6).
    carry (same (encoder := encoder) (fun p => value <$> document p !! "local_datetime")) Hstep6.
    carry (same (encoder := encoder) (fun p => value <$> document p !! "local_datetime")) Hstep8.
    carry (same (encoder := encoder) (fun p => value <$> document p !! "local_datetime")) Hstep9.
    carry (same (encoder := encoder) (fun p => value <$> document p !! "local_datetime")) Hstep11.
    rewrite Hcarry2, Hcarry1, Hcarry0, Hcarry, Hp6.
    cbn [document with_document]. rewrite lookup_insert_eq. reflexivity.
  - exact (textModal_Done _ _ _ _ Hstep11).
Qed.

(** A completed [fetchTranscription(url)] has called [fetch] with that
    URL, and with the [formData] of the global scope as the body. *)
Lemma fetchTranscription_Done url p u q :
  fetchTranscription url p = Done u q ->
  exists token body,
    resolve "formData" p = Done body p
    /\ q = with_log (log p ++ [CallFetch Primary
             {| req_url := url; req_method := "POST";
                req_headers := [("X-CSRFToken"%string, token)];
                req_body := body |}]) p.
Proof.
  unfold fetchTranscription. intros H.
  inv_bind H. inv_bind H. inv_bind Hstep.
  unfold get in Hstep1. injection Hstep1 as <- <-.
  assert (p0 = p) as ->.
  { unfold lift in Hstep. destruct (getCSRFToken (cookie p)); [|discriminate].
    injection Hstep as _ <-. reflexivity. }
  assert (p1 = p) as ->.
  { unfold resolve in Hstep0.
    destruct (globals p !! "formData"); [injection Hstep0 as _ <-; reflexivity|].
    destruct (document p !! "formData"); [injection Hstep0 as _ <-; reflexivity|].
    discriminate. }
  unfold record, modify in H. injection H as <-.
  eauto.
Qed.

(** C1, in general: when the stop handler gets as far as [fetch], the
    URL it posts to is the object URL of the blob, and the body is
    whatever the global scope holds under [formData]. *)
Lemma stopBtn_onclick_Done d p l q :
  stopBtn_onclick d p = Done l q ->
  exists q1 token body,
    stop_recording d p = Done l q1
    /\ resolve "formData" q1 = Done body q1
    /\ startsWith "blob:" (stop_url l) = true
    /\ log q = log q1 ++ [CallFetch Primary
         {| req_url := stop_url l; req_method := "POST";
            req_headers := [("X-CSRFToken"%string, token)];
            req_body := body |}].
Proof.
  unfold stopBtn_onclick. intros H.
  inv_bind H. inv_bind H. inv_bind H.
  unfold ret in H. injection H as <- <-.
  assert (p1 = p0) as ->.
  { unfold resolve in Hstep0.
    destruct (globals p0 !! "token"); [injection Hstep0 as _ <-; reflexivity|].
    destruct (document p0 !! "token"); [injection Hstep0 as _ <-; reflexivity|].
    discriminate. }
  apply fetchTranscription_Done in Hstep1 as (token & body & Hbody & ->).
  destruct (stop_recording_locals d p a p0 Hstep) as (_ & _ & Hurl & _).
  exists p0, token, body. splits; try assumption. reflexivity.
Qed.

(** At page load the hidden input gets the offset with its sign
    flipped, and the variable keeps the offset as the platform gave
    it. *)
Lemma DOMContentLoaded_Done tz p u q :
  DOMContentLoaded tz p = Done u q ->
  timezoneOffset q = tz
  /\ value <$> document q !! "timezone_offset" = Some (Number_toString (- tz)).
Proof.
  unfold DOMContentLoaded. intros H.
  do 11 inv_bind H. unfold ret in H. injection H as _ <-.
  unfold modify in *.
  repeat match goal with
         | Hm : Done _ _ = Done _ _ |- _ => injection Hm as ? ?; subst
         end.
  apply set_element_inv in Hstep3 as (e1 & He1 & ->).
  apply set_element_inv in Hstep5 as (e2 & He2 & ->).
  unfold get_element in *.
  repeat match goal with
         | Hg : match ?x with Some _ => _ | None => _ end = Done _ _ |- _ =>
             destruct x; [injection Hg as ? ?; subst | discriminate]
         end.
  split; [reflexivity|].
  cbn [document with_document with_timezoneOffset].
  rewrite lookup_insert_eq. reflexivity.
Qed.

End StopFacts.

(** C3.  The name given to the download is the digits of the date and
    time run together: for no date has it the shape [YYYYMMDD_HHMMSS],
    because it has no underscore at all.  For 5 March 2024, 07:08:09
    the download is named 20240305070809.mp3; the hidden
    [local_datetime] input holds 20240305070809. *)
Theorem download_name_never_stamped :
  (forall d, is_stamp (formattedDateTime d) = false)
  /\ formattedDateTime Demo.march5 = "20240305070809"%string
  /\ String.length (formattedDateTime Demo.march5) = 14%nat
  /\ download <$> document Demo.stopped !! "downloadLink"
     = Some "20240305070809.mp3"%string
  /\ value <$> document Demo.stopped !! "local_datetime"
     = Some "20240305070809"%string.
Proof.
  split.
  - intros d. apply not_true_is_false. intros Hs.
    exact (free_of_formattedDateTime d (is_stamp_underscore _ Hs)).
  - repeat split; vm_compute; reflexivity.
Qed.

(** C2.  Where the platform reports -60 (an hour ahead of UTC), the
    hidden input gets 60, but the form built when stop is clicked
    carries -60: the offset as reported, not negated. *)
Theorem submitted_offset_not_negated :
  timezoneOffset (Demo.loaded (-60) "" ∅) = -60
  /\ value <$> document (Demo.loaded (-60) "" ∅) !! "timezone_offset"
     = Some "60"%string
  /\ exists l q,
       stop_recording Demo.march5 Demo.recording = Done l q
       /\ form_get "timezone_offset" (stop_formData l)
          = Some (FormString "-60")
       /\ form_get "timezone_offset" (stop_formData l)
          <> Some (FormString (Number_toString (- -60))).
Proof.
  split; [vm_compute; reflexivity|].
  split; [vm_compute; reflexivity|].
  destruct (stop_recording Demo.march5 Demo.recording) as [l q|e q] eqn:Hstop.
  - exists l, q. split; [reflexivity|].
    destruct (stop_recording_locals _ _ _ _ Hstop) as (_ & -> & _).
    split; [vm_compute; reflexivity | vm_compute; discriminate].
  - exfalso. revert Hstop. vm_compute. discriminate.
Qed.

(** C1.  On the page as the scripts leave it, a click on stop builds the
    form and shows the modal, then throws at [token] and posts nothing.
    Where globals [token] and [formData] exist, it posts to the object
    URL of the blob, with the global [formData] as the body; the form
    it built is not what it posts. *)
Theorem stop_click_posts_no_form :
  (exists q,
     stopBtn_onclick Demo.march5 Demo.recording
     = Raised (ReferenceError "token") q
     /\ fetched q = []
     /\ modal_display q = Some "block"%string)
  /\ (exists l q,
        stopBtn_onclick Demo.march5 (Demo.recording_on Demo.template_globals)
        = Done l q
        /\ fetched q
           = [{| req_url := "blob:0"; req_method := "POST";
                 req_headers := [("X-CSRFToken"%string, VUndefined)];
                 req_body := VStr "stale" |}]
        /\ stop_formData l
           = new_recording_form (stop_blob l) "20240305070809" (-60)
        /\ blob_size (stop_blob l) = 6%nat).
Proof.
  split.
  - destruct (stopBtn_onclick Demo.march5 Demo.recording) as [l q|e q] eqn:Hstop.
    + exfalso. revert Hstop. vm_compute. discriminate.
    + exists q. assert (He : e = ReferenceError "token").
      { revert Hstop. vm_compute. intros H. injection H as <- _. reflexivity. }
      subst e. split; [reflexivity|].
      assert (Hq : q = page_of (stopBtn_onclick Demo.march5 Demo.recording))
        by (rewrite Hstop; reflexivity).
      rewrite Hq. split; vm_compute; reflexivity.
  - destruct (stopBtn_onclick Demo.march5 (Demo.recording_on Demo.template_globals))
      as [l q|e q] eqn:Hstop.
    + exists l, q. split; [reflexivity|].
      assert (Hq : q = page_of (stopBtn_onclick Demo.march5
                                  (Demo.recording_on Demo.template_globals)))
        by (rewrite Hstop; reflexivity).
      assert (Hl : Some l
                   = match stopBtn_onclick Demo.march5
                           (Demo.recording_on Demo.template_globals) with
                     | Done l _ => Some l
                     | Raised _ _ => None
                     end)
        by (rewrite Hstop; reflexivity).
      split; [rewrite Hq; vm_compute; reflexivity|].
      revert Hl. vm_compute. intros Hl. injection Hl as ->.
      split; reflexivity.
    + exfalso. revert Hstop. vm_compute. discriminate.
Qed.

(** ** The exchange *)

Section ExchangeFacts.
Context {encoder : Type} `{!Lamejs encoder}.
Implicit Types p : page encoder.

(** C10.  [getCSRFToken] returns for every cookie string.  When no
    entry of the cookie starts with [csrftoken=] it returns undefined,
    and the request [fetchTranscription] then builds carries undefined
    as its [X-CSRFToken] header. *)
Theorem getCSRFToken_never_throws (c : string) :
  returns (getCSRFToken c)
  /\ ((forall row, In row (split "; " c) -> startsWith "csrftoken=" row = false) ->
      getCSRFToken c = Ok None
      /\ forall p url body,
           cookie p = c ->
           resolve "formData" p = Done body p ->
           fetchTranscription url p
           = Done tt (with_log (log p ++ [CallFetch Primary
                {| req_url := url; req_method := "POST";
                   req_headers := [("X-CSRFToken"%string, VUndefined)];
                   req_body := body |}]) p)).
Proof.
  split; [apply getCSRFToken_returns|].
  intros Hrows. pose proof (getCSRFToken_undefined c Hrows) as Hundef.
  split; [exact Hundef|].
  intros p url body Hc Hbody.
  unfold fetchTranscription, bind, get, lift, record, modify.
  rewrite Hc, Hundef, Hbody. reflexivity.
Qed.

(** The chain of a failed exchange. *)
Lemma fetch_settled_failed f o p :
  o = Rejected \/ o = Responded None ->
  fetch_settled f o p
  = Done tt (with_log (log p ++ [CallConsoleError
       (match o with Rejected => NetworkError | _ => SyntaxError end)]) p).
Proof. intros [-> | ->]; reflexivity. Qed.

(** C7.  When the fetch is rejected, or answered with a body that is
    not JSON, the chain catches the error and writes it to the console,
    and changes nothing else on the page: a modal shown before the
    request is still shown. *)
Theorem failed_exchange_keeps_modal f o p :
  o = Rejected \/ o = Responded None ->
  exists e,
    fetch_settled f o p = Done tt (with_log (log p ++ [CallConsoleError e]) p)
    /\ console (page_of (fetch_settled f o p)) = console p ++ [e]
    /\ document (page_of (fetch_settled f o p)) = document p
    /\ modal_display (page_of (fetch_settled f o p)) = modal_display p
    /\ (modal_display p = Some "block"%string ->
        ~ modal_hidden (page_of (fetch_settled f o p))).
Proof.
  intros Ho. rewrite (fetch_settled_failed f o p Ho).
  eexists. split; [reflexivity|]. cbn.
  split; [|split; [reflexivity|split; [reflexivity|]]].
  - unfold console. cbn. rewrite omap_app. reflexivity.
  - unfold modal_hidden, modal_display. cbn. intros ->. discriminate.
Qed.

End ExchangeFacts.

Lemma getCSRFToken_never_throws_holds :
  let c := "theme=dark; sid=9"%string in
  let p := Demo.served c {["formData" := VStr "stale"]} in
  (forall row, In row (split "; " c) -> startsWith "csrftoken=" row = false)
  /\ cookie p = c
  /\ resolve "formData" p = Done (VStr "stale") p
  /\ getCSRFToken c = Ok None
  /\ fetchTranscription "blob:0" p
     = Done tt (with_log (log p ++ [CallFetch Primary
          {| req_url := "blob:0"; req_method := "POST";
             req_headers := [("X-CSRFToken"%string, VUndefined)];
             req_body := VStr "stale" |}]) p).
Proof.
  intros c p.
  assert (Hrows : forall row, In row (split "; " c) ->
                              startsWith "csrftoken=" row = false).
  { intros row [<- | [<- | []]]; reflexivity. }
  assert (Hc : cookie p = c) by reflexivity.
  assert (Hb : resolve "formData" p = Done (VStr "stale") p) by reflexivity.
  destruct (getCSRFToken_never_throws (encoder := nat) c) as [_ Hund].
  destruct (Hund Hrows) as [Hnone Hreq].
  exact (conj Hrows (conj Hc (conj Hb (conj Hnone
           (Hreq p "blob:0"%string (VStr "stale") Hc Hb))))).
Defined.

(** ** The properties on the concrete page *)

Lemma artifact_length_holds :
  let p := dispatch (ClickStart 44100) (Demo.loaded (-60) "" ∅) in
  let started := dispatch (UserMedia 0 true) p in
  let es := [AudioProcess 0 Demo.square; IntervalTick 0; ClickStart 48000;
             AudioProcess 0 Demo.silence; ClickVoiceStart 48000;
             UserMedia 1 true; AudioProcess 1 Demo.square;
             WindowClick "modal"; AudioProcess 0 Demo.square] in
  awaited 0 p = Some Primary
  /\ audioContext (recorder p) = Some 44100
  /\ is_Some (document p !! "startBtn")
  /\ is_Some (document p !! "stopBtn")
  /\ Forall (fun e => is_stop Primary e = false
                      /\ resumes Primary e started = false) es
  /\ exists artifact,
       object_urls (dispatch (ClickStop Demo.march5) (run es started))
       = [artifact]
       /\ blob_size artifact = 6%nat.
Proof.
  intros p started es.
  assert (H1 : awaited 0 p = Some Primary) by (vm_compute; reflexivity).
  assert (H2 : audioContext (recorder p) = Some 44100) by (vm_compute; reflexivity).
  assert (H3 : is_Some (document p !! "startBtn")) by (vm_compute; eauto).
  assert (H4 : is_Some (document p !! "stopBtn")) by (vm_compute; eauto).
  assert (H5 : Forall (fun e => is_stop Primary e = false
                                /\ resumes Primary e started = false) es)
    by (repeat constructor; vm_compute; reflexivity).
  destruct (artifact_length 44100 0 es Demo.march5 p H1 H2 H3 H4 H5)
    as (_ & _ & artifact & Hurl & _ & Hsize).
  refine (conj H1 (conj H2 (conj H3 (conj H4 (conj H5
            (ex_intro _ artifact (conj Hurl _))))))).
  rewrite Hsize. vm_compute. reflexivity.
Defined.

Lemma failed_exchange_keeps_modal_holds :
  (Rejected = Rejected \/ Rejected = Responded None)
  /\ modal_display Demo.stopped = Some "block"%string
  /\ exists e,
       fetch_settled Primary Rejected Demo.stopped
       = Done tt (with_log (log Demo.stopped ++ [CallConsoleError e]) Demo.stopped)
       /\ modal_display (page_of (fetch_settled Primary Rejected Demo.stopped))
          = Some "block"%string.
Proof.
  assert (H : Rejected = Rejected \/ Rejected = Responded None) by (left; reflexivity).
  assert (Hm : modal_display Demo.stopped = Some "block"%string)
    by (vm_compute; reflexivity).
  destruct (failed_exchange_keeps_modal Primary Rejected Demo.stopped H)
    as (e & Hdone & _ & _ & Hmodal & _).
  refine (conj H (conj Hm (ex_intro _ e (conj Hdone _)))).
  rewrite Hmodal. exact Hm.
Defined.

Lemma to16BitPCM_scales_holds :
  let x := S754_finite false 8388608 (-24) in
  Number.is_float32 x = true
  /\ x <> S754_nan
  /\ to16BitPCM x
     = Qtruncate (Number.to_Q (clamp (Number.of_float32 x)) * 32767)
  /\ -32768 <= to16BitPCM x <= 32767.
Proof.
  intros x.
  assert (H1 : Number.is_float32 x = true) by reflexivity.
  assert (H2 : x <> S754_nan) by discriminate.
  destruct (to16BitPCM_scales x H1 H2) as (_ & _ & _ & _ & Hint & Hrange).
  exact (conj H1 (conj H2 (conj Hint Hrange))).
Defined.

(** * Further properties of the scripts *)

(** ** Running a handler on a page with known elements *)

(** Looking elements up in a document after the writes made so far. *)
Ltac lookups :=
  repeat first
    [ rewrite lookup_insert_eq
    | rewrite lookup_insert_ne by discriminate
    | rewrite lookup_delete_eq
    | rewrite lookup_delete_ne by discriminate
    | match goal with
      | H : ?m !! ?k = _ |- context [?m !! ?k] => rewrite H
      end ].

Ltac case_set id :=
  match goal with
  | |- context [bind (set_element id ?g) ?k ?q] =>
      let e := fresh "e" in
      let He := fresh "He" in
      destruct (document q !! id) as [e|] eqn:He;
      [ peel (set_element_Done id g q e He)
      | let Hr := fresh "Hraised" in
        assert (Hr : bind (set_element id g) k q = Raised (TypeError id) q)
          by (unfold bind at 1; unfold set_element at 1; rewrite He; reflexivity);
        rewrite Hr; cbn [page_of] ]
  end.

(** Identifying the elements the steps of a handler have read. *)
Ltac settle :=
  repeat match goal with
         | H : context [<[?k := _]> _ !! ?k] |- _ =>
             rewrite lookup_insert_eq in H
         | H : context [<[_ := _]> _ !! _] |- _ =>
             rewrite lookup_insert_ne in H by discriminate
         | H : ?m !! ?k = Some _, H' : ?m !! ?k = Some _ |- _ =>
             rewrite H in H'
         | H : Some _ = Some _ |- _ =>
             first [injection H as <- | injection H as ->]
         end.

(** ** Numerals and strings *)

Lemma Number_toString_inj a b : Number_toString a = Number_toString b -> a = b.
Proof.
  unfold Number_toString. intros H.
  assert (Hp : forall n, Z.to_int n <> Decimal.Pos Decimal.Nil
                         /\ Z.to_int n <> Decimal.Neg Decimal.Nil).
  { intros [|p|p]; cbn; split; try discriminate; intros [= Hn];
      exact (DecimalPos.Unsigned.to_uint_nonnil p Hn). }
  apply DecimalZ.to_int_inj.
  assert (Hs : Some (Z.to_int a) = Some (Z.to_int b)).
  { rewrite <- (NilZero.isi (Z.to_int a)) by apply Hp.
    rewrite <- (NilZero.isi (Z.to_int b)) by apply Hp.
    rewrite H. reflexivity. }
  congruence.
Qed.

Lemma digit_inj a b : 0 <= a < 10 -> 0 <= b < 10 -> digit a = digit b -> a = b.
Proof.
  unfold digit. intros Ha Hb H.
  apply (f_equal nat_of_ascii) in H.
  rewrite !nat_ascii_embedding in H by lia. lia.
Qed.

Lemma two_digits_app_inj x y r r' :
  0 <= x < 100 -> 0 <= y < 100 ->
  two_digits x +:+ r = two_digits y +:+ r' -> x = y /\ r = r'.
Proof.
  intros Hx Hy. unfold two_digits.
  change (String ?a (String ?b EmptyString) +:+ ?s) with (String a (String b s)).
  intros [= H1 H2 H3]. split; [|exact H3].
  apply digit_inj in H1; [|split; [apply Z.div_pos; lia | apply Z.div_lt_upper_bound; lia]..].
  apply digit_inj in H2; [|apply Z.mod_pos_bound; lia..].
  rewrite (Z.div_mod x 10), (Z.div_mod y 10) by lia. congruence.
Qed.

Lemma two_digits_inj x y :
  0 <= x < 100 -> 0 <= y < 100 -> two_digits x = two_digits y -> x = y.
Proof.
  intros Hx Hy H.
  apply (two_digits_app_inj x y "" ""); assumption.
Qed.

Lemma string_app_inj_tail (a a' b b' : string) :
  String.length b = String.length b' -> a +:+ b = a' +:+ b' -> a = a' /\ b = b'.
Proof.
  intros Hlen. revert a'. induction a as [|c a IH]; intros [|c' a'].
  - intros H. split; [reflexivity | exact H].
  - change ("" +:+ b) with b. intros H. apply (f_equal String.length) in H.
    rewrite string_length_app in H. cbn in H. lia.
  - change ("" +:+ b') with b'. intros H. apply (f_equal String.length) in H.
    rewrite string_length_app in H. cbn in H. lia.
  - change (String c a +:+ b) with (String c (a +:+ b)).
    change (String c' a' +:+ b') with (String c' (a' +:+ b')).
    intros [= -> H]. destruct (IH a' H) as [-> ->]. split; reflexivity.
Qed.

Lemma string_app_empty (s : string) : s +:+ "" = s.
Proof.
  induction s as [|c s IH]; [reflexivity|].
  change (String c s +:+ "") with (String c (s +:+ "")). rewrite IH. reflexivity.
Qed.

Lemma list_ascii_app (a b : string) :
  list_ascii_of_string (a +:+ b) = list_ascii_of_string a ++ list_ascii_of_string b.
Proof.
  induction a as [|c a IH]; [reflexivity|].
  change (String c a +:+ b) with (String c (a +:+ b)). cbn. rewrite IH. reflexivity.
Qed.

(** The minutes field determines the minutes. *)
Lemma padded_inj m m' :
  0 <= m -> 0 <= m' ->
  padStart 2 "0" (Number_toString m) = padStart 2 "0" (Number_toString m') -> m = m'.
Proof.
  intros Hm Hm' H.
  destruct (Z_lt_le_dec m 100) as [Hlt|Hge], (Z_lt_le_dec m' 100) as [Hlt'|Hge'].
  - rewrite !padStart_two_digits in H by lia. apply two_digits_inj in H; lia.
  - rewrite padStart_two_digits in H by lia.
    rewrite (padStart_long _ _ (Number_toString m')) in H
      by (pose proof (Number_toString_long m' Hge'); lia).
    apply (f_equal String.length) in H.
    pose proof (Number_toString_long m' Hge'). cbn in H. lia.
  - rewrite (padStart_two_digits m') in H by lia.
    rewrite (padStart_long _ _ (Number_toString m)) in H
      by (pose proof (Number_toString_long m Hge); lia).
    apply (f_equal String.length) in H.
    pose proof (Number_toString_long m Hge). cbn in H. lia.
  - rewrite !padStart_long in H
      by (pose proof (Number_toString_long m Hge);
          pose proof (Number_toString_long m' Hge'); lia).
    apply Number_toString_inj, H.
Qed.

(** X1.  Two different counts of seconds never show the same timer
    text: the text determines the count, also from 100 minutes on,
    where the minutes field grows beyond two digits. *)
Theorem formatTime_distinct a b :
  0 <= a -> 0 <= b -> a <> b -> formatTime a <> formatTime b.
Proof.
  intros Ha Hb Hne H. apply Hne.
  rewrite !formatTime_fields in H by assumption.
  apply string_app_inj_tail in H as [Hmin Hsec]; [| rewrite !string_length_app; reflexivity].
  apply padded_inj in Hmin; [| apply Z.div_pos; lia ..].
  change (":" +:+ ?s) with (String ":" s) in Hsec.
  remember (two_digits (a mod 60)) as u eqn:Hu.
  remember (two_digits (b mod 60)) as v eqn:Hv.
  injection Hsec as Hsec. subst u v.
  apply two_digits_inj in Hsec;
    [| pose proof (Z.mod_pos_bound a 60); pose proof (Z.mod_pos_bound b 60); lia ..].
  rewrite (Z.div_mod a 60), (Z.div_mod b 60) by lia. congruence.
Qed.

Lemma formatTime_distinct_holds :
  0 <= 59 /\ 0 <= 60 /\ 59 <> 60 /\ formatTime 59 <> formatTime 60.
Proof.
  assert (H1 : 0 <= 59) by lia. assert (H2 : 0 <= 60) by lia.
  assert (H3 : 59 <> 60) by lia.
  exact (conj H1 (conj H2 (conj H3 (formatTime_distinct 59 60 H1 H2 H3)))).
Defined.

(** The numeral of a year of four digits. *)
Lemma year_digits y :
  1000 <= y <= 9999 ->
  String.length (Number_toString y) = 4%nat
  /\ forallb is_digit (list_ascii_of_string (Number_toString y)) = true.
Proof.
  intros Hy.
  pose proof (all_below_spec (Z.to_nat 10000)
    (fun y => (y <? 1000)
              || ((String.length (Number_toString y) =? 4)%nat
                  && forallb is_digit (list_ascii_of_string (Number_toString y))))
    ltac:(vm_compute; reflexivity) y ltac:(rewrite Z2Nat.id; lia)) as H.
  cbv beta in H. replace (y <? 1000) with false in H by (symmetry; apply Z.ltb_ge; lia).
  cbn [orb] in H. apply andb_prop in H as [H1 H2].
  apply Nat.eqb_eq in H1. split; assumption.
Qed.

(** X2.  For a date whose fields lie in the ranges in which [Date]
    reports them, in a year that is not negative, [formattedDateTime]
    is the year written in full, then the month counted from 1, the
    day, the hours, the minutes and the seconds with two digits each.
    In a year of four digits that makes 14 characters, all of them
    digits.  Two such dates with the same text are the same date. *)
Theorem formattedDateTime_digits d :
  valid_date d ->
  formattedDateTime d
  = Number_toString (getFullYear d) +:+ two_digits (getMonth d + 1)
    +:+ two_digits (getDate d) +:+ two_digits (getHours d)
    +:+ two_digits (getMinutes d) +:+ two_digits (getSeconds d)
  /\ (1000 <= getFullYear d <= 9999 ->
      String.length (formattedDateTime d) = 14%nat
      /\ forallb is_digit (list_ascii_of_string (formattedDateTime d)) = true)
  /\ (forall d', valid_date d' -> formattedDateTime d' = formattedDateTime d -> d' = d).
Proof.
  assert (Hshape : forall d, valid_date d ->
    formattedDateTime d
    = Number_toString (getFullYear d) +:+ two_digits (getMonth d + 1)
      +:+ two_digits (getDate d) +:+ two_digits (getHours d)
      +:+ two_digits (getMinutes d) +:+ two_digits (getSeconds d)).
  { intros d0 (Hy & Hm & Hd & Hh & Hn & Hs). unfold formattedDateTime.
    rewrite !padStart_two_digits by lia. reflexivity. }
  intros Hv. split; [exact (Hshape d Hv)|]. split.
  - intros Hy. rewrite (Hshape d Hv).
    destruct Hv as (_ & Hm & Hd & Hh & Hn & Hs).
    destruct (year_digits _ Hy) as [Hlen Hdig].
    rewrite !string_length_app, Hlen. split; [reflexivity|].
    rewrite !list_ascii_app, !forallb_app, Hdig.
    repeat match goal with
           | |- context [forallb is_digit (list_ascii_of_string (two_digits ?x))] =>
               rewrite (proj1 (two_digits_shape x ltac:(lia)))
           end.
    reflexivity.
  - intros d' Hv' H. rewrite (Hshape d Hv), (Hshape d' Hv') in H.
    destruct Hv as (Hy & Hm & Hd & Hh & Hn & Hs).
    destruct Hv' as (Hy' & Hm' & Hd' & Hh' & Hn' & Hs').
    apply string_app_inj_tail in H as [Hyear H];
      [| rewrite !string_length_app; reflexivity].
    apply Number_toString_inj in Hyear.
    apply two_digits_app_inj in H as [H1 H]; [|lia..].
    apply two_digits_app_inj in H as [H2 H]; [|lia..].
    apply two_digits_app_inj in H as [H3 H]; [|lia..].
    apply two_digits_app_inj in H as [H4 H]; [|lia..].
    apply two_digits_inj in H; [|lia..].
    destruct d, d'; cbn in *. f_equal; lia.
Qed.

Lemma formattedDateTime_digits_holds :
  valid_date Demo.march5
  /\ 1000 <= getFullYear Demo.march5 <= 9999
  /\ formattedDateTime Demo.march5 = "20240305070809"%string
  /\ String.length (formattedDateTime Demo.march5) = 14%nat.
Proof.
  assert (H1 : valid_date Demo.march5) by (unfold valid_date; cbn; lia).
  assert (H2 : 1000 <= getFullYear Demo.march5 <= 9999) by (cbn; lia).
  destruct (formattedDateTime_digits Demo.march5 H1) as (Hshape & Hlen & _).
  destruct (Hlen H2) as [Hl _].
  exact (conj H1 (conj H2 (conj Hshape Hl))).
Defined.

(** ** The CSRF cookie, entry by entry *)

(** Scanning over a piece in which the separator cannot start. *)
Lemma split_go_piece c0 sep' piece : forall cur rest,
  free_of c0 piece ->
  split_go (String c0 sep') 0 cur (piece +:+ rest)
  = match rest with
    | EmptyString =>
        [string_of_list_ascii (rev cur ++ list_ascii_of_string piece)]
    | String _ _ =>
        split_go (String c0 sep') 0 (rev (list_ascii_of_string piece) ++ cur) rest
    end.
Proof.
  induction piece as [|c piece IH]; intros cur rest Hfree.
  - change ("" +:+ rest) with rest. destruct rest; [|reflexivity].
    cbn. rewrite app_nil_r. reflexivity.
  - change (String c piece +:+ rest) with (String c (piece +:+ rest)).
    cbn [split_go String.prefix].
    destruct (ascii_dec c0 c) as [->|Hne].
    { exfalso. apply Hfree. cbn. auto. }
    rewrite IH by (intros Hin; apply Hfree; cbn; auto).
    destruct rest.
    + cbn [rev list_ascii_of_string]. rewrite <- app_assoc. reflexivity.
    + cbn [rev list_ascii_of_string]. rewrite <- app_assoc. reflexivity.
Qed.

Lemma string_of_list_ascii_of_string' s :
  string_of_list_ascii (rev [] ++ list_ascii_of_string s) = s.
Proof. cbn. apply string_of_list_ascii_of_string. Qed.

(** Splitting the cookie gives back its entries. *)
Lemma split_cookie_of rows :
  rows <> [] ->
  Forall (free_of ";") rows ->
  split "; " (cookie_of rows) = rows.
Proof.
  unfold split. induction rows as [|row rows IH]; intros Hne Hall; [congruence|].
  inversion Hall as [|? ? Hrow Hrows]; subst.
  destruct rows as [|row' rows].
  - cbn [cookie_of].
    rewrite <- (string_app_empty row) at 1.
    rewrite (split_go_piece ";" " " row [] "" Hrow).
    rewrite string_of_list_ascii_of_string'. reflexivity.
  - change (cookie_of (row :: row' :: rows))
      with (row +:+ "; " +:+ cookie_of (row' :: rows)).
    rewrite (split_go_piece ";" " " row [] _ Hrow).
    change ("; " +:+ ?s) with (String ";" (String " " s)).
    cbn [split_go String.prefix String.length Nat.sub].
    destruct (ascii_dec ";" ";") as [_|Hn]; [|congruence].
    destruct (ascii_dec " " " ") as [_|Hn]; [|congruence].
    replace (String.prefix "" (cookie_of (row' :: rows))) with true
      by (destruct (cookie_of (row' :: rows)); reflexivity).
    rewrite app_nil_r, rev_involutive, string_of_list_ascii_of_string.
    f_equal. apply IH; [discriminate | exact Hrows].
Qed.

(** The second part of an entry [name=value...]: the value up to its
    first [=]. *)
Lemma split_entry name v tail :
  free_of "=" name -> free_of "=" v ->
  tail = ""%string \/ startsWith "=" tail = true ->
  split "=" (name +:+ "=" +:+ v +:+ tail) !! 1%nat = Some v.
Proof.
  intros Hname Hv Htail. unfold split.
  rewrite (split_go_piece "=" "" name [] _ Hname).
  change ("=" +:+ ?s) with (String "=" s).
  cbn [split_go String.prefix String.length Nat.sub].
  destruct (ascii_dec "=" "=") as [_|Hn]; [|congruence].
  replace (String.prefix "" (v +:+ tail)) with true
    by (destruct (v +:+ tail); reflexivity).
  cbn [lookup list_lookup].
  rewrite (split_go_piece "=" "" v [] _ Hv).
  destruct Htail as [->|Htail].
  - rewrite string_of_list_ascii_of_string'. reflexivity.
  - destruct tail as [|c tail]; [discriminate|].
    unfold startsWith in Htail. cbn [String.prefix] in Htail.
    destruct (ascii_dec "=" c) as [<-|]; [|discriminate].
    cbn [split_go String.prefix].
    destruct (ascii_dec "=" "=") as [_|Hn]; [|congruence].
    replace (String.prefix "" tail) with true by (destruct tail; reflexivity).
    rewrite app_nil_r, rev_involutive, string_of_list_ascii_of_string. reflexivity.
Qed.

Lemma find_first {A} (f : A -> bool) before x after :
  Forall (fun y => f y = false) before -> f x = true ->
  find f (before ++ x :: after) = Some x.
Proof.
  intros Hb Hx. induction Hb as [|y before Hy _ IH]; cbn.
  - rewrite Hx. reflexivity.
  - rewrite Hy. exact IH.
Qed.

Section TokenFacts.
Context {encoder : Type} `{!Lamejs encoder}.

(** X3.  For a cookie string whose entries hold no semicolon:
    [getCSRFToken] reads the first entry that starts with [csrftoken=],
    whatever comes before or after it, and returns the value of that
    entry up to the first [=] in it, so that a value with an [=] inside
    is cut there.  [fetchTranscription] sends what it returns as the
    [X-CSRFToken] header. *)
Theorem csrf_token_read before v tail after :
  let entry := "csrftoken=" +:+ v +:+ tail in
  let rows := before ++ entry :: after in
  Forall (free_of ";") rows ->
  Forall (fun row => startsWith "csrftoken=" row = false) before ->
  free_of "=" v ->
  tail = ""%string \/ startsWith "=" tail = true ->
  getCSRFToken (cookie_of rows) = Ok (Some v)
  /\ forall (p : page encoder) url body,
       cookie p = cookie_of rows ->
       resolve "formData" p = Done body p ->
       fetchTranscription url p
       = Done tt (with_log (log p ++ [CallFetch Primary
            {| req_url := url; req_method := "POST";
               req_headers := [("X-CSRFToken"%string, VStr v)];
               req_body := body |}]) p).
Proof.
  intros entry rows Hrows Hbefore Hv Htail.
  assert (Htoken : getCSRFToken (cookie_of rows) = Ok (Some v)).
  { unfold getCSRFToken, call_split. cbn [mbind completion_bind].
    rewrite split_cookie_of by (try exact Hrows; subst rows; destruct before; discriminate).
    subst rows. rewrite (find_first _ before entry after Hbefore)
      by (subst entry; apply startsWith_app).
    cbn [optional_chain mbind completion_bind]. f_equal.
    subst entry. change ("csrftoken=" +:+ ?s) with ("csrftoken" +:+ "=" +:+ s).
    apply split_entry; try assumption.
    unfold free_of. cbn. intros H.
    repeat (destruct H as [H|H]; [discriminate|]). exact H. }
  split; [exact Htoken|].
  intros p url body Hc Hbody.
  unfold fetchTranscription, bind, get, lift, record, modify.
  rewrite Hc, Htoken, Hbody. reflexivity.
Qed.

End TokenFacts.

Lemma csrf_token_read_holds :
  let rows := ["theme=dark"; "csrftoken=abc=="; "csrftoken=zzz"]%string in
  Forall (free_of ";") rows
  /\ Forall (fun row => startsWith "csrftoken=" row = false) ["theme=dark"%string]
  /\ free_of "=" "abc"
  /\ startsWith "=" "==" = true
  /\ cookie_of rows = "theme=dark; csrftoken=abc==; csrftoken=zzz"%string
  /\ getCSRFToken (cookie_of rows) = Ok (Some "abc"%string).
Proof.
  intros rows.
  assert (H1 : Forall (free_of ";") rows).
  { repeat constructor; unfold free_of; cbn; intros H;
      repeat (destruct H as [H|H]; [discriminate|]); exact H. }
  assert (H2 : Forall (fun row => startsWith "csrftoken=" row = false)
                 ["theme=dark"%string]) by (repeat constructor).
  assert (H3 : free_of "=" "abc").
  { unfold free_of; cbn; intros H;
      repeat (destruct H as [H|H]; [discriminate|]); exact H. }
  assert (H4 : startsWith "=" "==" = true) by reflexivity.
  destruct (csrf_token_read (encoder := nat) ["theme=dark"%string] "abc" "=="
              ["csrftoken=zzz"%string] H1 H2 H3 (or_intror H4)) as [Htoken _].
  exact (conj H1 (conj H2 (conj H3 (conj H4 (conj eq_refl Htoken))))).
Defined.

(** ** PCM conversion: order and sign *)

Lemma Qtruncate_le q r : (q <= r)%Q -> Qtruncate q <= Qtruncate r.
Proof.
  destruct q as [n1 d1], r as [n2 d2]. unfold Qle, Qtruncate. cbn [Qnum Qden].
  intros H.
  assert (Hneg : forall n d, n < 0 -> Z.quot n (Zpos d) = - ((- n) / Zpos d)).
  { intros n d Hn. replace n with (- - n) at 1 by lia.
    rewrite Z.quot_opp_l by lia. rewrite Z.quot_div_nonneg by lia. reflexivity. }
  destruct (Z_lt_le_dec n1 0) as [H1|H1], (Z_lt_le_dec n2 0) as [H2|H2].
  - rewrite !Hneg by assumption.
    enough (- n2 / Zpos d2 <= - n1 / Zpos d1) by lia.
    apply Z.div_le_lower_bound; [lia|].
    pose proof (Z.mul_div_le (- n2) (Zpos d2) ltac:(lia)). nia.
  - rewrite Hneg by assumption. rewrite Z.quot_div_nonneg by lia.
    pose proof (Z.div_pos (- n1) (Zpos d1) ltac:(lia) ltac:(lia)).
    pose proof (Z.div_pos n2 (Zpos d2) ltac:(lia) ltac:(lia)). lia.
  - nia.
  - rewrite !Z.quot_div_nonneg by lia.
    apply Z.div_le_lower_bound; [lia|].
    pose proof (Z.mul_div_le n1 (Zpos d1) ltac:(lia)). nia.
Qed.

Lemma scaled_le s t : (s <= t)%Q -> (scaled s <= scaled t)%Q.
Proof.
  unfold scaled. intros H.
  destruct (Qlt_le_dec s 0), (Qlt_le_dec t 0); lra.
Qed.

Lemma scaled_comp s t : (s == t)%Q -> (scaled s == scaled t)%Q.
Proof.
  intros H. apply Qle_antisym; apply scaled_le; rewrite H; apply Qle_refl.
Qed.

Lemma clamped_le x y :
  Number.is_finite x = true -> Number.is_finite y = true ->
  (Number.to_Q x <= Number.to_Q y)%Q -> (clamped x <= clamped y)%Q.
Proof.
  intros Hx Hy H.
  assert (Hc : forall z, Number.is_finite z = true ->
                 clamped z = Qmax (-1) (Qmin 1 (Number.to_Q z)))
    by (intros [| | |]; try discriminate; reflexivity).
  rewrite !Hc by assumption.
  apply Q.max_le_compat_l, Q.min_le_compat_l, H.
Qed.

(** What is stored for a sample that is not NaN: the integer part of
    its clamped value, scaled. *)
Lemma to16BitPCM_value x :
  Number.is_float32 x = true -> x <> S754_nan ->
  to16BitPCM x = Qtruncate (scaled (clamped x)).
Proof.
  intros Hv Hnan.
  destruct x as [b|b| |sg m e]; [| |congruence|].
  - destruct b; vm_compute; reflexivity.
  - destruct b; vm_compute; reflexivity.
  - unfold to16BitPCM.
    destruct (float32_bounds sg m e Hv) as [Hd He].
    pose proof (to_Q_of_float32 sg m e Hv) as HQ.
    rewrite (of_float32_finite sg m e Hv) in *. cbn zeta in *.
    set (d := 53 - Zpos (digits2_pos m)) in *.
    pose proof (of_float32_mantissa m Hd) as HM. cbn zeta in HM. fold d in HM.
    set (M := Z.to_pos (Zpos m * 2 ^ d)) in *.
    assert (HMz : Zpos M = Zpos m * 2 ^ d)
      by (subst M; rewrite Z2Pos.id; lia).
    rewrite <- HMz in HM.
    rewrite clamp_finite.
    assert (Hfactor : forall v,
              (Number.ltb v (Number.of_Z 0) = true <-> (Number.to_Q v < 0)%Q) ->
              (Number.to_Q v
               * (if Number.ltb v (Number.of_Z 0) then 32768 else 32767)
               == scaled (Number.to_Q v))%Q).
    { intros v Hlt. unfold scaled.
      destruct (Number.ltb v (Number.of_Z 0)), (Qlt_le_dec (Number.to_Q v) 0);
        try reflexivity.
      - exfalso. apply (Qlt_not_le _ _ (proj1 Hlt eq_refl)). assumption.
      - pose proof (proj2 Hlt ltac:(assumption)). discriminate. }
    destruct (over M (e - d)) eqn:Hover.
    + destruct (over_to_Q sg M (e - d) ltac:(lia) Hover) as [Hneg Hpos].
      rewrite HQ in Hneg, Hpos.
      assert (Hone : Zpos (Z.to_pos (Zpos 1 * 2 ^ 52)) <= 2 ^ (- -52))
        by (vm_compute; discriminate).
      destruct (clamped_sample sg 1 52 (-52) eq_refl ltac:(lia) ltac:(lia) Hone)
        as (_ & Hlt & Hint & _).
      change (Z.to_pos (Zpos 1 * 2 ^ 52)) with one in *.
      rewrite Hint. apply Qtruncate_comp. rewrite (Hfactor _ Hlt).
      apply scaled_comp. unfold clamped.
      destruct sg.
      * specialize (Hneg eq_refl).
        rewrite (Q.min_r 1)
          by (apply Qle_trans with (-1)%Q; [exact Hneg | discriminate]).
        rewrite Q.max_l by exact Hneg. reflexivity.
      * specialize (Hpos eq_refl).
        rewrite (Q.min_l 1) by exact Hpos.
        rewrite Q.max_r by discriminate. reflexivity.
    + assert (HE : e - d <= -52 /\ Zpos M <= 2 ^ (- (e - d))).
      { unfold over in Hover. apply orb_false_elim in Hover as [H1 H2].
        apply Z.ltb_ge in H1. split; [exact H1|].
        destruct (Z.eq_dec (e - d) (-52)) as [Heq|Hne].
        - rewrite Heq in H2 |- *. cbn [Z.eqb andb] in H2.
          apply Pos.ltb_ge in H2. change (2 ^ (- -52)) with (Zpos one).
          apply Pos2Z.pos_le_pos. exact H2.
        - assert (2 ^ 53 <= 2 ^ (- (e - d))) by (apply Z.pow_le_mono_r; lia).
          lia. }
      destruct HE as [HE HMle].
      assert (Hd1 : 29 <= d) by (subst d; lia).
      assert (Hd2 : -201 <= e - d <= -52) by (subst d; lia).
      assert (Hd3 : Zpos (digits2_pos m) + d = 53) by (subst d; lia).
      pose proof (clamped_sample sg m d (e - d) Hd3 Hd1 Hd2) as HC.
      fold M in HC.
      destruct (HC HMle) as ([Hlo Hhi] & Hlt & Hint & _).
      rewrite Hint. apply Qtruncate_comp. rewrite (Hfactor _ Hlt).
      apply scaled_comp. unfold clamped. rewrite <- HQ.
      rewrite (Q.min_r 1) by exact Hhi.
      rewrite Q.max_r by exact Hlo. reflexivity.
Qed.

(** X4.  The conversion keeps the order and the sign of samples.  For
    finite binary32 samples [x] and [y] with [x] at most [y], the
    16-bit value stored for [x] is at most the one stored for [y]; a
    sample that is not positive is never stored as a positive value,
    and a sample that is not negative never as a negative one. *)
Theorem to16BitPCM_monotone x y :
  Number.is_float32 x = true -> Number.is_float32 y = true ->
  Number.is_finite x = true -> Number.is_finite y = true ->
  (Number.to_Q x <= Number.to_Q y)%Q ->
  to16BitPCM x <= to16BitPCM y
  /\ ((Number.to_Q x <= 0)%Q -> to16BitPCM x <= 0)
  /\ ((0 <= Number.to_Q x)%Q -> 0 <= to16BitPCM x).
Proof.
  intros Hx Hy Fx Fy Hle.
  assert (Nx : x <> S754_nan) by (destruct x; discriminate).
  assert (Ny : y <> S754_nan) by (destruct y; discriminate).
  rewrite (to16BitPCM_value x Hx Nx), (to16BitPCM_value y Hy Ny).
  assert (Hzero : Qtruncate (scaled (clamped (S754_zero false))) = 0)
    by (vm_compute; reflexivity).
  assert (Hz : (Number.to_Q (S754_zero false) == 0)%Q) by reflexivity.
  splits.
  - apply Qtruncate_le, scaled_le, clamped_le; assumption.
  - intros H0. rewrite <- Hzero.
    apply Qtruncate_le, scaled_le, clamped_le; [assumption | reflexivity |].
    rewrite Hz. exact H0.
  - intros H0. rewrite <- Hzero.
    apply Qtruncate_le, scaled_le, clamped_le; [reflexivity | assumption |].
    rewrite Hz. exact H0.
Qed.

Lemma to16BitPCM_monotone_holds :
  let x := S754_finite true 8388608 (-24) in
  let y := S754_finite false 12582912 (-24) in
  Number.is_float32 x = true /\ Number.is_float32 y = true
  /\ Number.is_finite x = true /\ Number.is_finite y = true
  /\ (Number.to_Q x <= Number.to_Q y)%Q
  /\ to16BitPCM x <= to16BitPCM y.
Proof.
  intros x y.
  assert (H1 : Number.is_float32 x = true) by reflexivity.
  assert (H2 : Number.is_float32 y = true) by reflexivity.
  assert (H3 : Number.is_finite x = true) by reflexivity.
  assert (H4 : Number.is_finite y = true) by reflexivity.
  assert (H5 : (Number.to_Q x <= Number.to_Q y)%Q) by (vm_compute; discriminate).
  destruct (to16BitPCM_monotone x y H1 H2 H3 H4 H5) as (Hle & _).
  exact (conj H1 (conj H2 (conj H3 (conj H4 (conj H5 Hle))))).
Defined.

(** ** modal.js as a state machine *)

Section ModalMachine.
Context {encoder : Type} `{!Lamejs encoder}.
Implicit Types p q : page encoder.

(** What one call does on a page that has the modal and its content
    box. *)
Lemma modal_action_step c0 p m c :
  globals p !! "modal" = None ->
  document p !! "modal" = Some m ->
  document p !! modal_content = Some c ->
  exists q,
    modal_action c0 p = Done tt q
    /\ globals q !! "modal" = None
    /\ document q !! "modal" = Some (with_display (display_step c0 (display m)) m)
    /\ document q !! modal_content
       = Some (with_textContent (text_step c0 (textContent c)) c)
    /\ (forall k, k <> "modal"%string -> k <> modal_content ->
                  document q !! k = document p !! k)
    /\ log q = log p.
Proof.
  intros Hg Hm Hc. unfold modal_content in *.
  assert (Hsame : c = with_textContent (textContent c) c) by (destruct c; reflexivity).
  assert (Hsame' : m = with_display (display m) m) by (destruct m; reflexivity).
  destruct c0 as [content| | |target]; cbn [modal_action display_step text_step];
    [ unfold textModal, bind, set_element, getElementById, get, modify, modal_content
    | unfold staticModal, set_element
    | unfold closeModal, set_element
    | unfold window_onclick, bind, resolve, set_element; lookups;
      destruct (String.eqb target "modal") eqn:Ht;
      [apply String.eqb_eq in Ht; subst target|] ];
    repeat (psimpl; lookups);
    (eexists; split; [reflexivity|]); psimpl; lookups; splits;
    try reflexivity; try assumption; try congruence;
    try (intros k H1 H2; rewrite ?lookup_insert_ne by congruence; reflexivity).
Qed.

(** X5.  On a page that has the modal and its content box, every
    sequence of calls into modal.js runs to its end without an error.
    Afterwards the modal shows or hides as the last of the calls that
    touch it says ([textModal] and [staticModal] show it, [closeModal]
    and a click on the modal itself hide it, a click elsewhere changes
    nothing), the content box holds the text of the last [textModal]
    (closing does not clear it), and no other element has changed. *)
Theorem modal_calls_machine cs : forall p m c,
  globals p !! "modal" = None ->
  document p !! "modal" = Some m ->
  document p !! modal_content = Some c ->
  exists q,
    modal_calls cs p = Done tt q
    /\ modal_display q = Some (fold_left (fun d c0 => display_step c0 d) cs (display m))
    /\ textContent <$> document q !! modal_content
       = Some (fold_left (fun t c0 => text_step c0 t) cs (textContent c))
    /\ (forall k, k <> "modal"%string -> k <> modal_content ->
                  document q !! k = document p !! k)
    /\ log q = log p.
Proof.
  induction cs as [|c0 cs IH]; intros p m c Hg Hm Hc.
  - exists p. unfold modal_display. rewrite Hm, Hc. cbn. auto.
  - destruct (modal_action_step c0 p m c Hg Hm Hc)
      as (q1 & Hq1 & Hg1 & Hm1 & Hc1 & Hk1 & Hl1).
    destruct (IH q1 _ _ Hg1 Hm1 Hc1) as (q & Hq & Hd & Ht & Hk & Hl).
    exists q. cbn [modal_calls fold_left]. unfold bind. rewrite Hq1.
    split; [exact Hq|].
    split; [rewrite Hd; destruct m; reflexivity|].
    split; [rewrite Ht; destruct c; reflexivity|].
    split; [|congruence].
    intros k H1 H2. rewrite (Hk k H1 H2). apply Hk1; assumption.
Qed.

(** X6.  What modal.js does on a page that lacks a part of the modal.
    Without the modal element the three functions throw a TypeError
    and a click in the window a ReferenceError, and the page stays as
    it was.  With the modal but without a content box in it,
    [textModal] throws only after it has shown the modal: the modal
    is left on the screen, and the global [container] is undefined. *)
Theorem modal_missing_parts p content :
  (document p !! "modal" = None ->
     textModal content p = Raised (TypeError "modal") p
     /\ staticModal p = Raised (TypeError "modal") p
     /\ closeModal p = Raised (TypeError "modal") p
     /\ (globals p !! "modal" = None ->
         forall target, window_onclick target p = Raised (ReferenceError "modal") p))
  /\ (is_Some (document p !! "modal") ->
      document p !! modal_content = None ->
      exists q,
        textModal content p = Raised (TypeError modal_content) q
        /\ modal_display q = Some "block"%string
        /\ globals q !! "container" = Some VUndefined
        /\ log q = log p).
Proof.
  split.
  - intros Hm. unfold textModal, staticModal, closeModal, window_onclick, bind,
      set_element, resolve. rewrite Hm. splits; try reflexivity.
    intros -> target. reflexivity.
  - intros [m Hm] Hc. unfold modal_content in *.
    unfold textModal, bind, set_element, getElementById, get, modify, modal_content.
    repeat (psimpl; lookups).
    eexists. split; [reflexivity|]. unfold modal_display. psimpl. lookups.
    splits; reflexivity.
Qed.

End ModalMachine.

Lemma modal_calls_machine_holds :
  let p := Demo.served "" ∅ in
  let cs := [TextModal "wait"; ClickOn "startBtn"; CloseModal; StaticModal;
             ClickOn "modal"] in
  globals p !! "modal" = None
  /\ document p !! "modal" = Some (with_display "none" Demo.blank)
  /\ document p !! modal_content = Some Demo.blank
  /\ exists q,
       modal_calls cs p = Done tt q
       /\ modal_display q = Some "none"%string
       /\ textContent <$> document q !! modal_content = Some "wait"%string.
Proof.
  intros p cs.
  assert (H1 : globals p !! "modal" = None) by reflexivity.
  assert (H2 : document p !! "modal" = Some (with_display "none" Demo.blank))
    by (vm_compute; reflexivity).
  assert (H3 : document p !! modal_content = Some Demo.blank)
    by (vm_compute; reflexivity).
  destruct (modal_calls_machine cs p _ _ H1 H2 H3) as (q & Hq & Hd & Ht & _).
  exact (conj H1 (conj H2 (conj H3 (ex_intro _ q (conj Hq (conj Hd Ht)))))).
Defined.

Lemma modal_missing_parts_holds :
  let p := with_document (delete modal_content Demo.elements) (Demo.served "" ∅) in
  let q := with_document (delete "modal" Demo.elements) (Demo.served "" ∅) in
  document q !! "modal" = None
  /\ globals q !! "modal" = None
  /\ closeModal q = Raised (TypeError "modal") q
  /\ window_onclick "modal" q = Raised (ReferenceError "modal") q
  /\ is_Some (document p !! "modal")
  /\ document p !! modal_content = None
  /\ exists r,
       textModal "wait" p = Raised (TypeError modal_content) r
       /\ modal_display r = Some "block"%string.
Proof.
  intros p q.
  assert (H1 : document q !! "modal" = None) by (vm_compute; reflexivity).
  assert (H2 : globals q !! "modal" = None) by reflexivity.
  assert (H3 : is_Some (document p !! "modal")) by (vm_compute; eauto).
  assert (H4 : document p !! modal_content = None) by (vm_compute; reflexivity).
  destruct (modal_missing_parts q "wait") as [Ha _].
  destruct (modal_missing_parts p "wait") as [_ Hb].
  destruct (Ha H1) as (_ & _ & Hclose & Hclick).
  destruct (Hb H3 H4) as (r & Hr & Hd & _).
  exact (conj H1 (conj H2 (conj Hclose (conj (Hclick H2 _) (conj H3 (conj H4
           (ex_intro _ r (conj Hr Hd)))))))).
Defined.

(** ** Page load *)

Section LoadFacts.
Context {encoder : Type} `{!Lamejs encoder}.
Implicit Types p q : page encoder.

(** A stop click on a flow that was never started throws at the first
    statement. *)
Lemma stop_handlers_undefined p :
  (scriptProcessor (recorder p) = None ->
   forall d, stopBtn_onclick d p = Raised (TypeError "scriptProcessor") p)
  /\ (scriptProcessor (chat p) = None ->
      voiceChatStopBtn_onclick p = Raised (TypeError "scriptProcessor") p).
Proof.
  split; intros Hsp; [intros d|];
    unfold stopBtn_onclick, stop_recording, voiceChatStopBtn_onclick, finalize,
      disconnect;
    repeat (unfold bind at 1); unfold get at 1; cbn [vars]; rewrite Hsp; reflexivity.
Qed.

(** X7.  The [DOMContentLoaded] listener of recorder.js, on a page
    that has the download link, the hidden offset input and the four
    buttons.  It ends normally when the forms [edit_soap] and
    [edit_chat] exist, and with a TypeError at its last statements when
    one of them is missing.  Either way it leaves both flows with
    undefined variables, the counter at 0 and no timer, the download
    link hidden and the offset, negated, in the hidden input, and no
    other element changed.  On the page it leaves, a click on either
    stop button throws a TypeError at the first statement of the
    handler, [scriptProcessor] being undefined, and changes nothing. *)
Theorem page_load tz p link input :
  document p !! "downloadLink" = Some link ->
  document p !! "timezone_offset" = Some input ->
  is_Some (document p !! "startBtn") ->
  is_Some (document p !! "stopBtn") ->
  is_Some (document p !! "voiceChatStartBtn") ->
  is_Some (document p !! "voiceChatStopBtn") ->
  let q := page_of (DOMContentLoaded_listener tz p) in
  DOMContentLoaded_listener tz p
  = match document p !! "edit_soap", document p !! "edit_chat" with
    | Some _, Some _ => Done tt q
    | Some _, None => Raised (TypeError "edit_chat") q
    | None, _ => Raised (TypeError "edit_soap") q
    end
  /\ recorder q = undefined_capture /\ chat q = undefined_capture
  /\ seconds q = 0 /\ timerInterval q = None /\ timezoneOffset q = tz
  /\ document q
     = <["timezone_offset" := with_value (Number_toString (- tz)) input]>
         (<["downloadLink" := with_display "none" link]> (document p))
  /\ (nodes p = [] -> pristine q)
  /\ (forall d, stopBtn_onclick d q = Raised (TypeError "scriptProcessor") q)
  /\ voiceChatStopBtn_onclick q = Raised (TypeError "scriptProcessor") q
  /\ (forall f d, dispatch (stop_event f d) q = q).
Proof.
  intros H1 H2 [e3 H3] [e4 H4] [e5 H5] [e6 H6] q.
  set (q0 := with_document
               (<["timezone_offset" := with_value (Number_toString (- tz)) input]>
                  (<["downloadLink" := with_display "none" link]> (document p)))
               (with_timezoneOffset tz
                  (with_seconds 0
                     (with_timerInterval None
                        (with_chat undefined_capture
                           (with_recorder undefined_capture p)))))).
  assert (Hload : DOMContentLoaded tz p = Done tt q0).
  { unfold DOMContentLoaded, bind, set_element, get_element, modify, ret.
    repeat (psimpl; lookups). reflexivity. }
  assert (Hall : DOMContentLoaded_listener tz p
                 = match document p !! "edit_soap", document p !! "edit_chat" with
                   | Some _, Some _ => Done tt q0
                   | Some _, None => Raised (TypeError "edit_chat") q0
                   | None, _ => Raised (TypeError "edit_soap") q0
                   end).
  { unfold DOMContentLoaded_listener. unfold bind at 1. rewrite Hload.
    unfold bind, get_element, ret. subst q0.
    destruct (document p !! "edit_soap") eqn:Hsoap;
      destruct (document p !! "edit_chat") eqn:Hchat;
      repeat (psimpl; lookups); reflexivity. }
  assert (Hq : q = q0).
  { subst q. rewrite Hall.
    destruct (document p !! "edit_soap"); [|reflexivity].
    destruct (document p !! "edit_chat"); reflexivity. }
  rewrite Hq. split; [exact Hall|].
  do 6 (split; [reflexivity|]).
  split; [intros Hn; unfold pristine; subst q0; psimpl; auto|].
  split; [apply (proj1 (stop_handlers_undefined q0)); reflexivity|].
  split; [apply (proj2 (stop_handlers_undefined q0)); reflexivity|].
  intros f d. apply stop_undefined. destruct f; reflexivity.
Qed.

End LoadFacts.

Lemma page_load_holds :
  let p := Demo.served "" ∅ in
  document p !! "downloadLink" = Some Demo.blank
  /\ document p !! "timezone_offset" = Some Demo.blank
  /\ is_Some (document p !! "startBtn")
  /\ is_Some (document p !! "stopBtn")
  /\ is_Some (document p !! "voiceChatStartBtn")
  /\ is_Some (document p !! "voiceChatStopBtn")
  /\ nodes p = []
  /\ DOMContentLoaded_listener 300 p
     = Raised (TypeError "edit_soap") (page_of (DOMContentLoaded_listener 300 p))
  /\ value <$> document (page_of (DOMContentLoaded_listener 300 p)) !! "timezone_offset"
     = Some "-300"%string
  /\ pristine (page_of (DOMContentLoaded_listener 300 p))
  /\ dispatch (ClickStop Demo.march5) (page_of (DOMContentLoaded_listener 300 p))
     = page_of (DOMContentLoaded_listener 300 p).
Proof.
  intros p.
  assert (H1 : document p !! "downloadLink" = Some Demo.blank) by (vm_compute; reflexivity).
  assert (H2 : document p !! "timezone_offset" = Some Demo.blank)
    by (vm_compute; reflexivity).
  assert (H3 : is_Some (document p !! "startBtn")) by (vm_compute; eauto).
  assert (H4 : is_Some (document p !! "stopBtn")) by (vm_compute; eauto).
  assert (H5 : is_Some (document p !! "voiceChatStartBtn")) by (vm_compute; eauto).
  assert (H6 : is_Some (document p !! "voiceChatStopBtn")) by (vm_compute; eauto).
  assert (H7 : nodes p = []) by reflexivity.
  destruct (page_load 300 p _ _ H1 H2 H3 H4 H5 H6)
    as (Hq & _ & _ & _ & _ & _ & Hdoc & Hpristine & _ & _ & Hstop).
  assert (Hsoap : document p !! "edit_soap" = None) by (vm_compute; reflexivity).
  rewrite Hsoap in Hq.
  do 7 (split; [assumption|]).
  split; [exact Hq|].
  split; [rewrite Hdoc, lookup_insert_eq; reflexivity|].
  split; [exact (Hpristine H7) | exact (Hstop Primary Demo.march5)].
Defined.

(** ** The timer *)

Section TimerFacts.
Context {encoder : Type} `{!Lamejs encoder}.
Implicit Types p q : page encoder.

Lemma ticked_refl p : ticked p p.
Proof. unfold ticked. splits; reflexivity. Qed.

Lemma ticked_trans p q r : ticked p q -> ticked q r -> ticked p r.
Proof.
  unfold ticked. intros (A1 & A2 & A3 & A4 & A5 & A6 & A7 & A8 & A9 & A10)
    (B1 & B2 & B3 & B4 & B5 & B6 & B7 & B8 & B9 & B10).
  splits; try congruence. intros k Hk. rewrite B10, A10 by exact Hk. reflexivity.
Qed.

(** One tick of an active timer. *)
Lemma tick_step t p e :
  intervals p !! t = Some true ->
  document p !! "timerDisplay" = Some e ->
  let q := dispatch (IntervalTick t) p in
  seconds q = seconds p + 1
  /\ textContent <$> document q !! "timerDisplay"
     = Some ("Recording: " +:+ formatTime (seconds p + 1))
  /\ ticked p q.
Proof.
  intros Ht He. cbn [dispatch]. rewrite Ht.
  unfold interval_callback, bind, modify, get, set_element. psimpl. rewrite He.
  psimpl. lookups. unfold ticked. psimpl. splits; try reflexivity.
  intros k Hk. rewrite lookup_insert_ne by congruence. reflexivity.
Qed.

Lemma ticks t k : forall p e,
  intervals p !! t = Some true ->
  document p !! "timerDisplay" = Some e ->
  let q := run (repeat (IntervalTick t) k) p in
  seconds q = seconds p + Z.of_nat k
  /\ textContent <$> document q !! "timerDisplay"
     = Some (match k with
             | O => textContent e
             | S _ => "Recording: " +:+ formatTime (seconds p + Z.of_nat k)
             end)
  /\ ticked p q.
Proof.
  induction k as [|k IH] using nat_ind; intros p e Ht He.
  - cbn. rewrite He. splits; [lia | reflexivity | apply ticked_refl].
  - replace (S k) with (k + 1)%nat by lia. rewrite repeat_app. cbn [repeat].
    unfold run. rewrite fold_left_app. cbn [fold_left].
    destruct (IH p e Ht He) as (Hs & _ & Htk). cbn zeta in Hs, Htk. unfold run in Hs, Htk.
    set (q := fold_left _ (repeat _ k) p) in *.
    assert (Ht' : intervals q !! t = Some true).
    { destruct Htk as (_ & _ & _ & -> & _). exact Ht. }
    assert (He' : is_Some (document q !! "timerDisplay")).
    { destruct (IH p e Ht He) as (_ & Htext & _). cbn zeta in Htext.
      unfold run in Htext. fold q in Htext.
      destruct (document q !! "timerDisplay"); [eauto | discriminate]. }
    destruct He' as [e' He'].
    destruct (tick_step t q e' Ht' He') as (Hs1 & Htext1 & Htk1). cbn zeta in *.
    splits.
    + rewrite Hs1, Hs. lia.
    + rewrite Htext1, Hs. replace (k + 1)%nat with (S k) by lia.
      do 3 f_equal. lia.
    + exact (ticked_trans _ _ _ Htk Htk1).
Qed.

(** The page a start handler leaves when it resumes with the
    microphone granted, on a page that has the three elements the
    handler writes. *)
Lemma startBtn_onclick_page rate p e1 e2 e3 :
  audioContext (recorder p) = Some rate ->
  document p !! "startBtn" = Some e1 ->
  document p !! "stopBtn" = Some e2 ->
  document p !! "timerDisplay" = Some e3 ->
  exists q,
    startBtn_onclick_resumed true p = Done tt q
    /\ recorder q
       = Build_capture (Some rate) (Some (length (streams p)))
           (Some (length (nodes p))) (Some (Mp3Encoder 1 rate 128)) []
    /\ chat q = chat p
    /\ seconds q = 0
    /\ timerInterval q = Some (length (intervals p))
    /\ intervals q = intervals p ++ [true]
    /\ nodes q = nodes p ++ [Build_node (Some Primary) true true]
    /\ streams q = streams p ++ [true]
    /\ document q
       = <["timerDisplay" := with_textContent "Recording: 00:00" e3]>
           (<["stopBtn" := with_disabled false e2]>
              (<["startBtn" := with_disabled true e1]> (document p)))
    /\ object_urls q = object_urls p
    /\ log q = log p.
Proof.
  intros Hctx H1 H2 H3.
  unfold startBtn_onclick_resumed. unfold bind at 1.
  rewrite (start_capture_granted Primary rate p Hctx).
  unfold bind, set_element, modify, get. repeat (psimpl; lookups).
  eexists. split; [reflexivity|]. psimpl. splits; reflexivity.
Qed.

(** A click on start and, next, the resumption of the handler with the
    microphone granted. *)
Lemma start_page rate p e1 e2 e3 :
  clickable "startBtn" p = true ->
  document p !! "startBtn" = Some e1 ->
  document p !! "stopBtn" = Some e2 ->
  document p !! "timerDisplay" = Some e3 ->
  let q := run [ClickStart rate; UserMedia (length (awaits p)) true] p in
  recorder q
  = Build_capture (Some rate) (Some (length (streams p)))
      (Some (length (nodes p))) (Some (Mp3Encoder 1 rate 128)) []
  /\ chat q = chat p
  /\ seconds q = 0
  /\ timerInterval q = Some (length (intervals p))
  /\ intervals q = intervals p ++ [true]
  /\ nodes q = nodes p ++ [Build_node (Some Primary) true true]
  /\ streams q = streams p ++ [true]
  /\ document q
     = <["timerDisplay" := with_textContent "Recording: 00:00" e3]>
         (<["stopBtn" := with_disabled false e2]>
            (<["startBtn" := with_disabled true e1]> (document p)))
  /\ object_urls q = object_urls p
  /\ log q = log p.
Proof.
  intros Hc H1 H2 H3 q. subst q.
  unfold run. cbn [fold_left dispatch]. rewrite Hc.
  unfold startBtn_onclick. rewrite start_click_Done. cbn [page_of].
  set (q1 := with_awaits _ _).
  assert (Hk : awaited (length (awaits p)) q1 = Some Primary).
  { subst q1. unfold awaited. cbn [awaits with_awaits vars with_vars with_recorder].
    rewrite lookup_app_r by lia. rewrite Nat.sub_diag. reflexivity. }
  rewrite Hk. cbn [resumed].
  set (q2 := with_awaits _ q1).
  destruct (startBtn_onclick_page rate q2 e1 e2 e3 eq_refl H1 H2 H3)
    as (q & -> & Hq).
  exact Hq.
Qed.

(** The timer part of a stop click that finalizes. *)
Lemma stopBtn_onclick_timer d p n s enc t e :
  scriptProcessor (recorder p) = Some n ->
  micStream (recorder p) = Some s ->
  mp3Encoder (recorder p) = Some enc ->
  timerInterval p = Some t ->
  is_Some (document p !! "audioPlayback") ->
  is_Some (document p !! "downloadLink") ->
  is_Some (document p !! "startBtn") ->
  is_Some (document p !! "stopBtn") ->
  is_Some (document p !! "local_datetime") ->
  document p !! "timerDisplay" = Some e ->
  let q := page_of (stopBtn_onclick d p) in
  textContent <$> document q !! "timerDisplay"
  = Some (textContent e +:+ " (Stopped)")
  /\ intervals q = <[t := false]> (intervals p).
Proof.
  intros Hn Hs Henc Ht [e1 H1] [e2 H2] [e3 H3] [e4 H4] [e5 H5] H6 q. subst q.
  pose proof (finalize_Done Primary p n s enc Hn Hs Henc) as Hfin.
  cbn zeta in Hfin.
  set (g := fun q : page encoder =>
              (textContent <$> document q !! "timerDisplay", intervals q)).
  enough (Hg : g (page_of (stopBtn_onclick d p))
               = (Some (textContent e +:+ " (Stopped)"), <[t := false]> (intervals p))).
  { unfold g in Hg. injection Hg as -> ->. split; reflexivity. }
  transitivity (g (page_of (stop_recording d p))).
  { unfold stopBtn_onclick.
    apply (page_of_after (same g)).
    intros l. unfold fetchTranscription, record. 
    keeps_steps ltac:(intros; reflexivity). }
  unfold stop_recording.
  peel Hfin. peel_url.
  peel_set "audioPlayback"%string.
  peel_set "downloadLink"%string.
  peel_set "startBtn"%string.
  peel_set "stopBtn"%string.
  peel_set "downloadLink"%string.
  peel_set "local_datetime"%string.
  peel_set "downloadLink"%string.
  unfold bind at 1. unfold get at 1. psimpl. rewrite Ht.
  unfold bind at 1. unfold clearInterval at 1. unfold modify at 1.
  peel_set "timerDisplay"%string.
  match goal with |- g (page_of (?m ?q)) = _ =>
    transitivity (g q);
      [ apply (keeps_page_of (same g) m q) |]
  end.
  { unfold textModal, getElementById, modal_content.
    keeps_steps ltac:(intros; unfold same, g; psimpl;
                      rewrite ?lookup_insert_ne by discriminate; reflexivity). }
  unfold g. psimpl. rewrite lookup_insert_eq. 
  f_equal. f_equal.
  match goal with
  | H : <[_ := _]> _ !! "timerDisplay"%string = Some ?x |- _ =>
      rewrite !lookup_insert_ne in H by discriminate;
      rewrite H6 in H; injection H as <-
  end.
  reflexivity.
Qed.

(** X8.  After a click on start, the resumption of the handler with
    the microphone granted, and [k] ticks of the timer it started, the
    counter is [k] and the display reads [Recording: ] followed by
    [formatTime k].  When stop is then clicked, on a page
    that has the elements the handler writes before it reaches the
    timer, the display reads that text followed by [ (Stopped)], and
    the timer is cleared: a further tick changes nothing. *)
Theorem timer_counts rate k d p :
  clickable "startBtn" p = true ->
  is_Some (document p !! "stopBtn") ->
  is_Some (document p !! "timerDisplay") ->
  let t := length (intervals p) in
  let ticking := run (ClickStart rate :: UserMedia (length (awaits p)) true
                        :: repeat (IntervalTick t) k) p in
  seconds ticking = Z.of_nat k
  /\ textContent <$> document ticking !! "timerDisplay"
     = Some ("Recording: " +:+ formatTime (Z.of_nat k))
  /\ (is_Some (document p !! "audioPlayback") ->
      is_Some (document p !! "downloadLink") ->
      is_Some (document p !! "local_datetime") ->
      let stopped := dispatch (ClickStop d) ticking in
      textContent <$> document stopped !! "timerDisplay"
      = Some (("Recording: " +:+ formatTime (Z.of_nat k)) +:+ " (Stopped)")
      /\ dispatch (IntervalTick t) stopped = stopped).
Proof.
  intros Hstart [e2 H2] [e3 H3] t ticking.
  destruct (clickable_Some _ _ Hstart) as (e1 & H1 & _).
  pose proof (start_page rate p e1 e2 e3 Hstart H1 H2 H3) as Hpage.
  cbn zeta in Hpage.
  set (q := run [ClickStart rate; UserMedia (length (awaits p)) true] p) in *.
  destruct Hpage as (Hrec & _ & Hsec & Hti & Hint & _ & _ & Hdoc & _).
  assert (Hrun : ticking = run (repeat (IntervalTick t) k) q) by reflexivity.
  assert (Hactive : intervals q !! t = Some true).
  { rewrite Hint. subst t. rewrite lookup_app_r by lia.
    rewrite Nat.sub_diag. reflexivity. }
  assert (Hdisplay : document q !! "timerDisplay"
                     = Some (with_textContent "Recording: 00:00" e3)).
  { rewrite Hdoc. apply lookup_insert_eq. }
  destruct (ticks t k q _ Hactive Hdisplay) as (Hs & Htext & Htk).
  cbn zeta in Hs, Htext, Htk. rewrite <- Hrun in Hs, Htext, Htk.
  assert (Htext' : textContent <$> document ticking !! "timerDisplay"
                   = Some ("Recording: " +:+ formatTime (Z.of_nat k))).
  { rewrite Htext. destruct k; [reflexivity|]. rewrite Hsec. reflexivity. }
  split; [rewrite Hs, Hsec; lia|]. split; [exact Htext'|].
  intros [e4 H4] [e5 H5] [e6 H6] stopped.
  destruct Htk as (Kr & _ & Kt & Ki & _ & _ & _ & _ & _ & Kd).
  assert (Hel : forall k0 e0, k0 <> "timerDisplay"%string ->
                  document p !! k0 = Some e0 -> is_Some (document ticking !! k0)).
  { intros k0 e0 Hne He0. rewrite (Kd k0 Hne), Hdoc.
    rewrite lookup_insert_ne by congruence.
    destruct (decide (k0 = "stopBtn"%string)) as [->|Hn1];
      [rewrite lookup_insert_eq; eauto | rewrite lookup_insert_ne by congruence].
    destruct (decide (k0 = "startBtn"%string)) as [->|Hn2];
      [rewrite lookup_insert_eq; eauto | rewrite lookup_insert_ne by congruence].
    eauto. }
  destruct (document ticking !! "timerDisplay") as [e7|] eqn:H7; [|discriminate].
  cbn in Htext'. injection Htext' as Htext'.
  assert (Hstop : clickable "stopBtn" ticking = true).
  { unfold clickable. rewrite (Kd "stopBtn"%string) by discriminate. rewrite Hdoc.
    rewrite lookup_insert_ne by discriminate. rewrite lookup_insert_eq. reflexivity. }
  destruct (stopBtn_onclick_timer d ticking (length (nodes p)) (length (streams p))
              (Mp3Encoder 1 rate 128) t e7) as [Ha Hb];
    try (rewrite Kr, Hrec; reflexivity);
    try (eapply Hel; [discriminate | eassumption]).
  { rewrite Kt. exact Hti. }
  { exact H7. }
  subst stopped. cbn [dispatch]. rewrite Hstop. split.
  - rewrite Ha, Htext'. reflexivity.
  - rewrite Hb. rewrite list_lookup_insert_eq; [reflexivity|].
    rewrite Ki, Hint, length_app. cbn. lia.
Qed.

End TimerFacts.

Lemma timer_counts_holds :
  let p := Demo.loaded (-60) "" ∅ in
  let ticking := run (ClickStart 44100 :: UserMedia 0 true
                        :: repeat (IntervalTick 0) 3) p in
  let stopped := dispatch (ClickStop Demo.march5) ticking in
  clickable "startBtn" p = true
  /\ is_Some (document p !! "stopBtn")
  /\ is_Some (document p !! "timerDisplay")
  /\ is_Some (document p !! "audioPlayback")
  /\ is_Some (document p !! "downloadLink")
  /\ is_Some (document p !! "local_datetime")
  /\ textContent <$> document stopped !! "timerDisplay"
     = Some "Recording: 00:03 (Stopped)"%string
  /\ dispatch (IntervalTick 0) stopped = stopped.
Proof.
  intros p ticking stopped.
  assert (H1 : clickable "startBtn" p = true) by (vm_compute; reflexivity).
  assert (H2 : is_Some (document p !! "stopBtn")) by (vm_compute; eauto).
  assert (H3 : is_Some (document p !! "timerDisplay")) by (vm_compute; eauto).
  assert (H4 : is_Some (document p !! "audioPlayback")) by (vm_compute; eauto).
  assert (H5 : is_Some (document p !! "downloadLink")) by (vm_compute; eauto).
  assert (H6 : is_Some (document p !! "local_datetime")) by (vm_compute; eauto).
  destruct (timer_counts 44100 3 Demo.march5 p H1 H2 H3) as (_ & _ & Hstop).
  destruct (Hstop H4 H5 H6) as [Htext Hsilent].
  splits; assumption.
Defined.

(** ** The buttons *)

Section Buttons.
Context {encoder : Type} `{!Lamejs encoder}.
Implicit Types p q : page encoder.

#[local] Hint Resolve finalize_disabled finalize_appended
  start_capture_disabled : frames.
#[local] Hint Extern 1 (keeps (same (vars _)) (finalize _)) =>
  apply finalize_vars; discriminate : frames.

Ltac open_all :=
  unfold startBtn_onclick_resumed, voiceChatStartBtn_onclick_resumed,
    stopBtn_onclick, stop_recording, voiceChatStopBtn_onclick,
    interval_callback, fetch_settled, show_transcription, show_instruction,
    log_error, json, data_transcription, set_control, window_onclick,
    fetchTranscription, closeModal, textModal, staticModal, clearInterval,
    createObjectURL, update_node, record, getElementById.

(** The page a click on the start button of a flow leaves: the handler
    has made the context and waits for the microphone. *)
Lemma start_clicked f rate p :
  clickable (start_button f) p = true ->
  dispatch (start_event f rate) p
  = with_awaits (awaits p ++ [Some f])
      (with_vars f
         (Build_capture (Some rate) (micStream (vars f p))
            (scriptProcessor (vars f p)) (mp3Encoder (vars f p))
            (mp3Data (vars f p))) p).
Proof.
  intros Hc.
  destruct f; cbn [start_event dispatch start_button] in *; rewrite Hc;
    unfold startBtn_onclick, voiceChatStartBtn_onclick;
    rewrite start_click_Done; reflexivity.
Qed.

(** The settling of the call of [getUserMedia] a click has just made. *)
Lemma settle_clicked f rate granted p :
  clickable (start_button f) p = true ->
  let waiting := with_vars f
                   (Build_capture (Some rate) (micStream (vars f p))
                      (scriptProcessor (vars f p)) (mp3Encoder (vars f p))
                      (mp3Data (vars f p))) p in
  dispatch (UserMedia (length (awaits p)) granted) (dispatch (start_event f rate) p)
  = page_of (resumed f granted (with_awaits (awaits p ++ [None]) waiting)).
Proof.
  intros Hc waiting. rewrite (start_clicked f rate p Hc). fold waiting.
  cbn [dispatch]. unfold awaited. cbn [awaits with_awaits].
  replace (awaits waiting) with (awaits p) by (subst waiting; destruct f; reflexivity).
  rewrite lookup_app_r by lia. rewrite Nat.sub_diag. cbn [lookup list_lookup].
  replace (length (awaits p)) with (length (awaits p) + 0)%nat at 1 by lia.
  rewrite insert_app_r. reflexivity.
Qed.

(** X9.  When the microphone is refused, the start handler of a flow
    throws NotAllowedError at its [await], having made the audio
    context and nothing else, and nothing catches it.  The audio
    context aside, the page is as it was before the click: the other
    variables of the flow and those of the other flow, the elements,
    the nodes, streams and timers, the counter and the log; and the
    start button is still enabled. *)
Theorem refused_microphone f rate p :
  clickable (start_button f) p = true ->
  let clicked := dispatch (start_event f rate) p in
  let q := dispatch (UserMedia (length (awaits p)) false) clicked in
  resumed f false q = Raised NotAllowedError q
  /\ vars f q
     = Build_capture (Some rate) (micStream (vars f p))
         (scriptProcessor (vars f p)) (mp3Encoder (vars f p)) (mp3Data (vars f p))
  /\ (forall f', f' <> f -> vars f' q = vars f' p)
  /\ document q = document p /\ nodes q = nodes p /\ streams q = streams p
  /\ intervals q = intervals p /\ timerInterval q = timerInterval p
  /\ seconds q = seconds p /\ log q = log p
  /\ awaits q = awaits p ++ [None]
  /\ clickable (start_button f) q = true.
Proof.
  intros Hc clicked q. subst q clicked.
  rewrite (settle_clicked f rate false p Hc). cbn zeta.
  rewrite !resumed_refused. cbn [page_of].
  split; [reflexivity|].
  split; [destruct f; reflexivity|].
  split; [intros f' Hne; destruct f, f'; try congruence; reflexivity|].
  destruct f; splits; try reflexivity; exact Hc.
Qed.

(** Once a start handler has resumed with the microphone granted, the
    start button is disabled, however far the handler gets. *)
Lemma resumed_disables f p :
  audioContext (vars f p) <> None ->
  is_Some (document p !! start_button f) ->
  clickable (start_button f) (page_of (resumed f true p)) = false.
Proof.
  intros Hctx [e1 He1]. rewrite clickable_disabled_of.
  enough (Hd : disabled_of (start_button f) (page_of (resumed f true p))
               = Some true) by (rewrite Hd; reflexivity).
  destruct (audioContext (vars f p)) as [rate|] eqn:Hrate; [|congruence].
  pose proof (start_capture_granted f rate p Hrate) as Hcap.
  destruct f; cbn [resumed start_button vars] in *; open_all.
  - peel Hcap. peel_set "startBtn"%string.
    match goal with |- disabled_of _ (page_of (?m ?q)) = _ =>
      transitivity (disabled_of "startBtn" q);
        [ apply (keeps_page_of (same (disabled_of "startBtn")) m q); frames |]
    end.
    unfold disabled_of. psimpl. rewrite lookup_insert_eq. reflexivity.
  - peel Hcap. peel_set "voiceChatStartBtn"%string.
    match goal with |- disabled_of _ (page_of (?m ?q)) = _ =>
      transitivity (disabled_of "voiceChatStartBtn" q);
        [ apply (keeps_page_of (same (disabled_of "voiceChatStartBtn")) m q); frames |]
    end.
    unfold disabled_of. psimpl. rewrite lookup_insert_eq. reflexivity.
Qed.

(** X10.  Repeated clicks.  A click on the start button of a flow
    leaves the button enabled until the handler resumes: a second click
    before that is taken, and a second handler waits for the
    microphone.  Once the handler has resumed with the microphone
    granted, a further click on start does nothing, the button being
    disabled.  And when stop is clicked during a capture, on a page
    that has the elements the stop handler writes, a further click on
    stop does nothing. *)
Theorem repeated_clicks f :
  (forall rate rate' p,
     clickable (start_button f) p = true ->
     let clicked := dispatch (start_event f rate) p in
     let started := dispatch (UserMedia (length (awaits p)) true) clicked in
     clickable (start_button f) clicked = true
     /\ awaits (dispatch (start_event f rate') clicked)
        = awaits p ++ [Some f; Some f]
     /\ dispatch (start_event f rate') started = started)
  /\ (forall d d' p n s enc,
        scriptProcessor (vars f p) = Some n ->
        micStream (vars f p) = Some s ->
        mp3Encoder (vars f p) = Some enc ->
        clickable (stop_button f) p = true ->
        stop_ready f p ->
        dispatch (stop_event f d') (dispatch (stop_event f d) p)
        = dispatch (stop_event f d) p).
Proof.
  split.
  - intros rate rate' p Hc clicked started.
    assert (Hc1 : clickable (start_button f) clicked = true).
    { subst clicked. rewrite (start_clicked f rate p Hc).
      destruct f; exact Hc. }
    split; [exact Hc1|]. split.
    + rewrite (start_clicked f rate' clicked Hc1).
      subst clicked. rewrite (start_clicked f rate p Hc).
      destruct f; cbn [awaits with_awaits with_vars with_recorder with_chat];
        rewrite <- app_assoc; reflexivity.
    + apply start_not_taken. subst started clicked.
      rewrite (settle_clicked f rate true p Hc). cbn zeta.
      destruct (clickable_Some _ _ Hc) as (e1 & He1 & _).
      apply resumed_disables.
      * destruct f; discriminate.
      * exists e1. destruct f; exact He1.
  - intros d d' p n s enc Hn Hs Henc Hc Hready.
    apply stop_not_taken. exact (stop_disables f d p n s enc Hn Hs Henc Hc Hready).
Qed.

(** The two buttons of a flow after a click on its stop button: as
    they were, when the handler threw before it reached them; else the
    stop button is disabled. *)
Lemma stop_buttons f d p :
  clickable (stop_button f) p = true ->
  let q := dispatch (stop_event f d) p in
  (disabled_of (start_button f) q = disabled_of (start_button f) p
   /\ disabled_of (stop_button f) q = disabled_of (stop_button f) p)
  \/ disabled_of (stop_button f) q = Some true.
Proof.
  intros Hc q. subst q.
  destruct (clickable_Some _ _ Hc) as (e0 & He0 & _).
  destruct f; cbn [stop_event dispatch start_button stop_button] in *; rewrite Hc.
  - assert (Hrest : forall k, disabled_of k (page_of (stopBtn_onclick d p))
                              = disabled_of k (page_of (stop_recording d p))).
    { intros k. unfold stopBtn_onclick.
      apply (page_of_after (same (disabled_of k))).
      intros l. open_all. frames. }
    rewrite !Hrest. unfold stop_recording.
    pose proof (finalize_disabled "startBtn" Primary p) as D1.
    pose proof (finalize_disabled "stopBtn" Primary p) as D2.
    unfold same in D1, D2. rewrite page_of_bind.
    destruct (finalize Primary p) as [blob q1|e q1]; cbn [page_of] in *;
      [|left; split; assumption].
    peel_url.
    assert (He4 : exists e4, document q1 !! "stopBtn" = Some e4).
    { unfold disabled_of in D2. rewrite He0 in D2.
      destruct (document q1 !! "stopBtn"); [eauto | discriminate]. }
    destruct He4 as [e4 He4].
    case_set "audioPlayback"%string;
      [|left; split; unfold disabled_of in *; psimpl; assumption].
    case_set "downloadLink"%string;
      [|left; split; unfold disabled_of in *; psimpl;
        rewrite ?lookup_insert_ne by discriminate; assumption].
    case_set "startBtn"%string;
      [|left; split; unfold disabled_of in *; psimpl;
        rewrite ?lookup_insert_ne by discriminate; assumption].
    peel_set "stopBtn"%string.
    right.
    match goal with |- disabled_of _ (page_of (?m ?q)) = _ =>
      transitivity (disabled_of "stopBtn" q);
        [ apply (keeps_page_of (same (disabled_of "stopBtn")) m q); open_all; frames |]
    end.
    unfold disabled_of. psimpl. rewrite lookup_insert_eq. reflexivity.
  - unfold voiceChatStopBtn_onclick.
    pose proof (finalize_disabled "voiceChatStartBtn" VoiceChat p) as D1.
    pose proof (finalize_disabled "voiceChatStopBtn" VoiceChat p) as D2.
    unfold same in D1, D2. rewrite page_of_bind.
    destruct (finalize VoiceChat p) as [blob q1|e q1]; cbn [page_of] in *;
      [|left; split; assumption].
    peel_url.
    assert (He4 : exists e4, document q1 !! "voiceChatStopBtn" = Some e4).
    { unfold disabled_of in D2. rewrite He0 in D2.
      destruct (document q1 !! "voiceChatStopBtn"); [eauto | discriminate]. }
    destruct He4 as [e4 He4].
    case_set "voiceChatStartBtn"%string;
      [|left; split; unfold disabled_of in *; psimpl; assumption].
    peel_set "voiceChatStartBtn"%string.
    peel_set "voiceChatStopBtn"%string.
    right.
    match goal with |- disabled_of _ (page_of (?m ?q)) = _ =>
      transitivity (disabled_of "voiceChatStopBtn" q);
        [ apply (keeps_page_of (same (disabled_of "voiceChatStopBtn")) m q);
          open_all; frames |]
    end.
    unfold disabled_of. psimpl. rewrite lookup_insert_eq. reflexivity.
Qed.

(** The two buttons of a flow after its start handler has resumed: as
    they were, when the handler threw before it reached them; else the
    start button is disabled. *)
Lemma resumed_buttons f granted p :
  let q := page_of (resumed f granted p) in
  (disabled_of (start_button f) q = disabled_of (start_button f) p
   /\ disabled_of (stop_button f) q = disabled_of (stop_button f) p)
  \/ disabled_of (start_button f) q = Some true.
Proof.
  intros q. subst q.
  destruct granted; [|rewrite resumed_refused; left; split; reflexivity].
  destruct (audioContext (vars f p)) as [rate|] eqn:Hctx.
  - destruct (document p !! start_button f) as [e1|] eqn:He1.
    + right. pose proof (resumed_disables f p) as Hd.
      rewrite clickable_disabled_of in Hd.
      specialize (Hd ltac:(congruence) ltac:(eauto)).
      destruct (disabled_of (start_button f) (page_of (resumed f true p)))
        as [[]|] eqn:Hq; try discriminate; try reflexivity.
      exfalso. revert Hq.
      assert (Hk : is_Some (disabled_of (start_button f)
                              (page_of (resumed f true p)))).
      { pose proof (start_capture_granted f rate p Hctx) as Hcap.
        destruct f; cbn [resumed start_button vars] in *; open_all.
        - peel Hcap. peel_set "startBtn"%string.
          match goal with |- is_Some (disabled_of _ (page_of (?m ?q))) =>
            replace (disabled_of "startBtn" (page_of (m q)))
              with (disabled_of "startBtn" q)
              by (symmetry;
                  apply (keeps_page_of (same (disabled_of "startBtn")) m q); frames)
          end.
          unfold disabled_of. psimpl. rewrite lookup_insert_eq. cbn. eauto.
        - peel Hcap. peel_set "voiceChatStartBtn"%string.
          match goal with |- is_Some (disabled_of _ (page_of (?m ?q))) =>
            replace (disabled_of "voiceChatStartBtn" (page_of (m q)))
              with (disabled_of "voiceChatStartBtn" q)
              by (symmetry;
                  apply (keeps_page_of (same (disabled_of "voiceChatStartBtn")) m q);
                  frames)
          end.
          unfold disabled_of. psimpl. rewrite lookup_insert_eq. cbn. eauto. }
      intros Hq. rewrite Hq in Hk. destruct Hk as [? [=]].
    + left.
      pose proof (start_capture_granted f rate p Hctx) as Hcap.
      assert (Hraised : forall k, disabled_of k (page_of (resumed f true p))
                                  = disabled_of k p).
      { intros k.
        destruct f; cbn [resumed start_button vars] in *; open_all.
        - peel Hcap. unfold bind at 1. unfold set_element at 1. psimpl.
          rewrite He1. reflexivity.
        - peel Hcap. unfold bind at 1. unfold set_element at 1. psimpl.
          rewrite He1. reflexivity. }
      split; apply Hraised.
  - left.
    assert (Hsame : forall k, disabled_of k (page_of (resumed f true p))
                              = disabled_of k p).
    { intros k. destruct f; cbn [resumed]; open_all;
        rewrite page_of_bind, (start_capture_undefined _ p Hctx);
        reflexivity. }
    split; apply Hsame.
Qed.

Lemma exclusive_step f e p : exclusive f p -> exclusive f (dispatch e p).
Proof.
  intros Hex. unfold exclusive in *.
  destruct (is_stop f e) eqn:Hstop.
  { assert (He : exists d, e = stop_event f d)
      by (destruct f, e; try discriminate;
          [eexists; reflexivity | exists (Build_local_date 0 0 0 0 0 0); reflexivity]).
    destruct He as (d & ->).
    destruct (clickable (stop_button f) p) eqn:Hc.
    - rewrite !clickable_disabled_of.
      destruct (stop_buttons f d p Hc) as [[H1 H2] | H2].
      + rewrite H1, H2, <- !clickable_disabled_of, Hc.
        intros Hs. specialize (Hex Hs). discriminate.
      + rewrite H2. reflexivity.
    - rewrite (stop_not_taken f d p Hc). intros _. exact Hc. }
  destruct (resumes f e p) eqn:Hres.
  { destruct e as [| | | | | | | |k granted]; try discriminate.
    cbn [resumes] in Hres. apply andb_true_iff in Hres as [-> Hk].
    apply bool_decide_eq_true in Hk. cbn [dispatch]. rewrite Hk.
    set (p1 := with_awaits _ p).
    rewrite !clickable_disabled_of.
    destruct (resumed_buttons f true p1) as [[H1 H2] | H1]; cbn zeta in *.
    - rewrite H1, H2. rewrite <- !clickable_disabled_of. exact Hex.
    - rewrite H1. discriminate. }
  rewrite !clickable_disabled_of.
  rewrite (dispatch_disabled f (start_button f) e p Hstop Hres (or_introl eq_refl)).
  rewrite (dispatch_disabled f (stop_button f) e p Hstop Hres (or_intror eq_refl)).
  rewrite <- !clickable_disabled_of. exact Hex.
Qed.

(** X11.  If the start and the stop button of a flow are not both
    enabled, they are not both enabled after any sequence of events,
    whichever handlers throw on the way. *)
Theorem buttons_exclusive f es : forall p,
  exclusive f p -> exclusive f (run es p).
Proof.
  induction es as [|e es IH]; intros p Hex; [exact Hex|].
  apply (IH (dispatch e p)), exclusive_step, Hex.
Qed.

Lemma apart_step f p e e' :
  apart f p e -> apart f p e' -> apart f (dispatch e p) e'.
Proof.
  intros (Hstart & Hstop & Hres & Hnode) (Hstart' & Hstop' & Hres' & Hnode').
  unfold apart. splits; try assumption.
  - exact (resumes_le f e' p _ (dispatch_suspended f e p Hstart) Hres').
  - intros n input He' Hcb. apply (Hnode' n input He').
    apply (dispatch_carried f e p Hres), Hcb.
Qed.

(** X12.  The variables of a flow (its audio context, stream, node,
    encoder and chunk buffer) are changed by clicks on its own two
    buttons, by the resumption of its own start handler and by the
    callbacks of its own nodes only: any sequence of other events, such
    as a whole session of the other flow, timer ticks, settled
    exchanges and clicks in the window, leaves them as they are. *)
Theorem flow_undisturbed f es : forall p,
  Forall (apart f p) es ->
  vars f (run es p) = vars f p.
Proof.
  induction es as [|e es IH]; intros p Hes; [reflexivity|].
  inversion Hes as [|e' es' He Hes']; subst.
  assert (Hv : vars f (dispatch e p) = vars f p).
  { destruct He as (Hstart & Hstop & Hres & Hnode).
    apply dispatch_vars; assumption. }
  rewrite run_cons, IH; [exact Hv|].
  eapply Forall_impl; [exact Hes'|].
  intros e' He'. exact (apart_step f p e e' He He').
Qed.

End Buttons.

Lemma refused_microphone_holds :
  let p := Demo.loaded (-60) "" ∅ in
  let q := dispatch (UserMedia (length (awaits p)) false)
             (dispatch (start_event Primary 44100) p) in
  clickable (start_button Primary) p = true
  /\ resumed Primary false q = Raised NotAllowedError q
  /\ document q = document p
  /\ clickable (start_button Primary) q = true.
Proof.
  intros p q.
  assert (H1 : clickable (start_button Primary) p = true) by (vm_compute; reflexivity).
  destruct (refused_microphone Primary 44100 p H1)
    as (Hraised & _ & _ & Hdoc & _ & _ & _ & _ & _ & _ & _ & Hretry).
  exact (conj H1 (conj Hraised (conj Hdoc Hretry))).
Defined.

Lemma repeated_clicks_holds :
  let p := Demo.loaded (-60) "" ∅ in
  let clicked := dispatch (start_event Primary 44100) p in
  let started := dispatch (UserMedia (length (awaits p)) true) clicked in
  let r := Demo.recording in
  clickable (start_button Primary) p = true
  /\ scriptProcessor (vars Primary r) = Some 0%nat
  /\ micStream (vars Primary r) = Some 0%nat
  /\ mp3Encoder (vars Primary r) = Some 2%nat
  /\ clickable (stop_button Primary) r = true
  /\ stop_ready Primary r
  /\ clickable (start_button Primary) clicked = true
  /\ awaits (dispatch (start_event Primary 48000) clicked)
     = awaits p ++ [Some Primary; Some Primary]
  /\ dispatch (start_event Primary 48000) started = started
  /\ dispatch (stop_event Primary Demo.march5)
       (dispatch (stop_event Primary Demo.march5) r)
     = dispatch (stop_event Primary Demo.march5) r.
Proof.
  intros p clicked started r.
  assert (H1 : clickable (start_button Primary) p = true) by (vm_compute; reflexivity).
  assert (H2 : scriptProcessor (vars Primary r) = Some 0%nat) by (vm_compute; reflexivity).
  assert (H3 : micStream (vars Primary r) = Some 0%nat) by (vm_compute; reflexivity).
  assert (H4 : mp3Encoder (vars Primary r) = Some 2%nat) by (vm_compute; reflexivity).
  assert (H5 : clickable (stop_button Primary) r = true) by (vm_compute; reflexivity).
  assert (H6 : stop_ready Primary r) by (repeat split; vm_compute; eauto).
  destruct (repeated_clicks (encoder := nat) Primary) as [Hstart Hstop].
  destruct (Hstart 44100 48000 p H1) as (Ha & Hb & Hc).
  exact (conj H1 (conj H2 (conj H3 (conj H4 (conj H5 (conj H6
           (conj Ha (conj Hb (conj Hc
              (Hstop Demo.march5 Demo.march5 r _ _ _ H2 H3 H4 H5 H6)))))))))).
Defined.

Lemma buttons_exclusive_holds :
  let p := Demo.loaded (-60) "" ∅ in
  let es := [ClickStart 44100; ClickStart 44100; UserMedia 0 true;
             AudioProcess 0 Demo.square; ClickVoiceStart 48000;
             UserMedia 2 false; ClickStop Demo.march5; UserMedia 1 true;
             FetchSettled Primary Rejected; ClickStart 44100] in
  exclusive Primary p /\ exclusive Primary (run es p).
Proof.
  intros p es.
  assert (H1 : exclusive Primary p) by (intros _; vm_compute; reflexivity).
  exact (conj H1 (buttons_exclusive Primary es p H1)).
Defined.

Lemma flow_undisturbed_holds :
  let p := run [ClickStart 44100; UserMedia 0 true; AudioProcess 0 Demo.square]
               (Demo.loaded (-60) "" ∅) in
  let es := [ClickVoiceStart 48000; UserMedia 1 true; AudioProcess 1 Demo.square;
             IntervalTick 0; UserMedia 0 true; ClickVoiceStop;
             WindowClick "modal"; FetchSettled VoiceChat Rejected] in
  Forall (apart Primary p) es
  /\ vars Primary (run es p) = vars Primary p.
Proof.
  intros p es.
  assert (H1 : Forall (apart Primary p) es).
  { repeat constructor; try (intros m input [= <- _]; vm_compute; discriminate);
      try (intros m input; discriminate); vm_compute; reflexivity. }
  exact (conj H1 (flow_undisturbed Primary es p H1)).
Defined.

(** ** What a stop click leaves for the user *)

Section DownloadFacts.
Context {encoder : Type} `{!Lamejs encoder}.
Implicit Types p q : page encoder.

(** X13.  A stop click on a recording in progress, on a page that has
    the player, the download link, the start button and the hidden
    date input.  The recording is registered as a blob of the buffered
    chunks followed by what the flush puts out; the [src] of the player
    and the [href] of the link are its object URL; the link is shown
    and named by the date stamp with [.mp3]; the hidden input holds the
    stamp; start is enabled and stop disabled.  All of this holds
    whether or not the handler goes on to reach [fetch]. *)
Theorem stop_offers_download d p n s enc :
  scriptProcessor (recorder p) = Some n ->
  micStream (recorder p) = Some s ->
  mp3Encoder (recorder p) = Some enc ->
  clickable "stopBtn" p = true ->
  is_Some (document p !! "audioPlayback") ->
  is_Some (document p !! "downloadLink") ->
  is_Some (document p !! "startBtn") ->
  is_Some (document p !! "local_datetime") ->
  let q := dispatch (ClickStop d) p in
  let url := "blob:" +:+ Number_toString (Z.of_nat (length (object_urls p))) in
  object_urls q
  = object_urls p
    ++ [Blob (mp3Data (recorder p) ++ List.filter non_empty [snd (flush enc)])
          "audio/mp3"]
  /\ src <$> document q !! "audioPlayback" = Some url
  /\ href <$> document q !! "downloadLink" = Some url
  /\ download <$> document q !! "downloadLink" = Some (formattedDateTime d +:+ ".mp3")
  /\ display <$> document q !! "downloadLink" = Some "block"%string
  /\ value <$> document q !! "local_datetime" = Some (formattedDateTime d)
  /\ clickable "startBtn" q = true
  /\ clickable "stopBtn" q = false.
Proof.
  intros Hn Hs Henc Hc [e1 H1] [e2 H2] [e3 H3] [e5 H5] q url. subst q.
  destruct (clickable_Some _ _ Hc) as (e4 & H4 & _).
  cbn [dispatch]. rewrite Hc.
  split; [exact (stopBtn_onclick_blob d p n s enc Hn Hs Henc)|].
  pose proof (finalize_Done Primary p n s enc Hn Hs Henc) as Hfin.
  cbn zeta in Hfin.
  set (g := fun q : page encoder =>
              (src <$> document q !! "audioPlayback",
               href <$> document q !! "downloadLink",
               download <$> document q !! "downloadLink",
               display <$> document q !! "downloadLink",
               value <$> document q !! "local_datetime",
               disabled <$> document q !! "startBtn",
               disabled <$> document q !! "stopBtn")).
  enough (Hg : g (page_of (stopBtn_onclick d p))
               = (Some url, Some url, Some (formattedDateTime d +:+ ".mp3"),
                  Some "block"%string, Some (formattedDateTime d),
                  Some false, Some true)).
  { unfold g in Hg. injection Hg as G1 G2 G3 G4 G5 G6 G7.
    rewrite !clickable_disabled_of. unfold disabled_of. rewrite G6, G7.
    splits; try assumption; reflexivity. }
  transitivity (g (page_of (stop_recording d p))).
  { unfold stopBtn_onclick.
    apply (page_of_after (same g)).
    intros l. unfold fetchTranscription, record.
    keeps_steps ltac:(intros; reflexivity). }
  unfold stop_recording.
  peel Hfin. peel_url.
  peel_set "audioPlayback"%string.
  peel_set "downloadLink"%string.
  peel_set "startBtn"%string.
  peel_set "stopBtn"%string.
  peel_set "downloadLink"%string.
  peel_set "local_datetime"%string.
  peel_set "downloadLink"%string.
  match goal with |- g (page_of (?m ?q)) = _ =>
    transitivity (g q);
      [ apply (keeps_page_of (same g) m q) |]
  end.
  { unfold textModal, clearInterval, getElementById, modal_content.
    keeps_steps ltac:(intros; unfold same, g; psimpl;
                      rewrite ?lookup_insert_ne by discriminate; reflexivity). }
  psimpl. settle. unfold g. psimpl. lookups. reflexivity.
Qed.

End DownloadFacts.

Lemma stop_offers_download_holds :
  let p := Demo.recording in
  scriptProcessor (recorder p) = Some 0%nat
  /\ micStream (recorder p) = Some 0%nat
  /\ mp3Encoder (recorder p) = Some 2%nat
  /\ clickable "stopBtn" p = true
  /\ is_Some (document p !! "audioPlayback")
  /\ is_Some (document p !! "downloadLink")
  /\ is_Some (document p !! "startBtn")
  /\ is_Some (document p !! "local_datetime")
  /\ src <$> document (dispatch (ClickStop Demo.march5) p) !! "audioPlayback"
     = Some "blob:0"%string
  /\ download <$> document (dispatch (ClickStop Demo.march5) p) !! "downloadLink"
     = Some "20240305070809.mp3"%string
  /\ clickable "startBtn" (dispatch (ClickStop Demo.march5) p) = true.
Proof.
  intros p.
  assert (H1 : scriptProcessor (recorder p) = Some 0%nat) by (vm_compute; reflexivity).
  assert (H2 : micStream (recorder p) = Some 0%nat) by (vm_compute; reflexivity).
  assert (H3 : mp3Encoder (recorder p) = Some 2%nat) by (vm_compute; reflexivity).
  assert (H4 : clickable "stopBtn" p = true) by (vm_compute; reflexivity).
  assert (H5 : is_Some (document p !! "audioPlayback")) by (vm_compute; eauto).
  assert (H6 : is_Some (document p !! "downloadLink")) by (vm_compute; eauto).
  assert (H7 : is_Some (document p !! "startBtn")) by (vm_compute; eauto).
  assert (H8 : is_Some (document p !! "local_datetime")) by (vm_compute; eauto).
  destruct (stop_offers_download Demo.march5 p _ _ _ H1 H2 H3 H4 H5 H6 H7 H8)
    as (_ & Hsrc & _ & Hname & _ & _ & Hstart & _).
  splits; assumption.
Defined.

(** ** The voice instruction *)

Section VoiceFacts.
Context {encoder : Type} `{!Lamejs encoder}.
Implicit Types p q : page encoder.

Lemma voiceChatStartBtn_onclick_page rate p e1 e2 :
  audioContext (chat p) = Some rate ->
  document p !! "voiceChatStartBtn" = Some e1 ->
  document p !! "voiceChatStopBtn" = Some e2 ->
  exists q,
    voiceChatStartBtn_onclick_resumed true p = Done tt q
    /\ chat q
       = Build_capture (Some rate) (Some (length (streams p)))
           (Some (length (nodes p))) (Some (Mp3Encoder 1 rate 128)) []
    /\ callback_of (length (nodes p)) q = Some VoiceChat
    /\ document q
       = <["voiceChatStopBtn" := with_display "inline-flex" (with_disabled false e2)]>
           (<["voiceChatStopBtn" := with_disabled false e2]>
              (<["voiceChatStartBtn" := with_display "none" (with_disabled true e1)]>
                 (<["voiceChatStartBtn" := with_disabled true e1]> (document p))))
    /\ object_urls q = object_urls p
    /\ log q = log p.
Proof.
  intros Hctx H1 H2.
  unfold voiceChatStartBtn_onclick_resumed. unfold bind at 1.
  rewrite (start_capture_granted VoiceChat rate p Hctx).
  unfold bind, set_element, modify, get. repeat (psimpl; lookups).
  eexists. split; [reflexivity|]. psimpl. splits; try reflexivity.
  unfold callback_of. psimpl. rewrite lookup_app_r by lia.
  rewrite Nat.sub_diag. reflexivity.
Qed.

(** A click on the start button of the voice flow and, next, the
    resumption of the handler with the microphone granted. *)
Lemma voice_start_page rate p e1 e2 :
  clickable "voiceChatStartBtn" p = true ->
  document p !! "voiceChatStartBtn" = Some e1 ->
  document p !! "voiceChatStopBtn" = Some e2 ->
  let q := run [ClickVoiceStart rate; UserMedia (length (awaits p)) true] p in
  chat q
  = Build_capture (Some rate) (Some (length (streams p)))
      (Some (length (nodes p))) (Some (Mp3Encoder 1 rate 128)) []
  /\ callback_of (length (nodes p)) q = Some VoiceChat
  /\ document q
     = <["voiceChatStopBtn" := with_display "inline-flex" (with_disabled false e2)]>
         (<["voiceChatStopBtn" := with_disabled false e2]>
            (<["voiceChatStartBtn" := with_display "none" (with_disabled true e1)]>
               (<["voiceChatStartBtn" := with_disabled true e1]> (document p))))
  /\ object_urls q = object_urls p
  /\ log q = log p.
Proof.
  intros Hc H1 H2 q. subst q.
  unfold run. cbn [fold_left dispatch]. rewrite Hc.
  unfold voiceChatStartBtn_onclick. rewrite start_click_Done. cbn [page_of].
  set (q1 := with_awaits _ _).
  assert (Hk : awaited (length (awaits p)) q1 = Some VoiceChat).
  { subst q1. unfold awaited. cbn [awaits with_awaits vars with_vars with_chat].
    rewrite lookup_app_r by lia. rewrite Nat.sub_diag. reflexivity. }
  rewrite Hk. cbn [resumed].
  set (q2 := with_awaits _ q1).
  destruct (voiceChatStartBtn_onclick_page rate q2 e1 e2 eq_refl H1 H2)
    as (q & -> & Hq).
  exact Hq.
Qed.

(** The audio callbacks make no request. *)
Lemma audio_blocks_fetched n inputs : forall p,
  fetched (run (map (AudioProcess n) inputs) p) = fetched p.
Proof.
  induction inputs as [|input inputs IH]; intros p; [reflexivity|].
  unfold run in *. cbn [map fold_left]. rewrite IH. cbn [dispatch].
  destruct (callback_of n p) as [f|]; [|reflexivity].
  apply (keeps_page_of (same fetched)).
  unfold scriptProcessor_onaudioprocess, record.
  keeps_steps ltac:(intros; unfold same, fetched; psimpl;
                    rewrite ?log_with_vars; psimpl;
                    rewrite ?omap_app; cbn; rewrite ?app_nil_r; reflexivity).
Qed.

(** The stop handler of the voice flow, on a page that has the elements
    it writes. *)
Lemma voiceChatStopBtn_onclick_page p n s enc e1 e2 m c :
  scriptProcessor (chat p) = Some n ->
  micStream (chat p) = Some s ->
  mp3Encoder (chat p) = Some enc ->
  document p !! "voiceChatStartBtn" = Some e1 ->
  document p !! "voiceChatStopBtn" = Some e2 ->
  document p !! "modal" = Some m ->
  document p !! modal_content = Some c ->
  let artifact := Blob (mp3Data (chat p) ++ List.filter non_empty [snd (flush enc)])
                    "audio/mp3" in
  exists q,
    voiceChatStopBtn_onclick p
    = Done [("file"%string, FormFile artifact "instruction_audio.mp3");
            ("instruction_audio"%string, FormString "true")] q
    /\ object_urls q = object_urls p ++ [artifact]
    /\ log q = log p ++ [CallDisconnect n; CallTrackStop s; CallFlush VoiceChat;
                         CallFetch VoiceChat (instruction_request artifact)]
    /\ document q !! "voiceChatStartBtn"
       = Some (with_display "inline-flex" (with_disabled false e1))
    /\ document q !! "voiceChatStopBtn"
       = Some (with_display "none" (with_disabled true e2))
    /\ document q !! "modal" = Some (with_display "block" m)
    /\ document q !! modal_content
       = Some (with_textContent
                 "Please wait for voice instruction transcription to complete..." c).
Proof.
  intros Hn Hs Henc H1 H2 H3 H4 artifact. unfold modal_content in *.
  pose proof (finalize_Done VoiceChat p n s enc Hn Hs Henc) as Hfin.
  cbn zeta in Hfin.
  unfold voiceChatStopBtn_onclick. unfold bind at 1. rewrite Hfin.
  unfold textModal, createObjectURL, record, bind, set_element, getElementById,
    modify, get, ret, modal_content.
  repeat (psimpl; lookups).
  eexists. split; [reflexivity|]. psimpl. lookups.
  rewrite <- app_assoc. splits; reflexivity.
Qed.

Lemma concat_filter_non_empty (chunks : list (list Byte.byte)) :
  concat (List.filter non_empty chunks) = concat chunks.
Proof.
  induction chunks as [|c cs IH]; [reflexivity|].
  cbn. destruct c; cbn; rewrite IH; reflexivity.
Qed.

(** X14.  A voice instruction recorded from a click on start, with the
    handler resumed next and granted the microphone, to the stop click,
    on a page that has the two voice buttons and the modal with its
    content box.  The stop handler makes exactly one
    request: a POST whose body is a form with the recording as the
    file [instruction_audio.mp3] and the flag [instruction_audio]; the
    URL and the CSRF header are the template tags as the script spells
    them.  The recording is the chunks of the session followed by what
    the flush puts out.  The modal shows the waiting text, the start
    button is enabled again and the stop button disabled. *)
Theorem voice_instruction_posted rate inputs p m c :
  clickable "voiceChatStartBtn" p = true ->
  is_Some (document p !! "voiceChatStopBtn") ->
  document p !! "modal" = Some m ->
  document p !! modal_content = Some c ->
  let n := length (nodes p) in
  let stopped :=
    run (ClickVoiceStart rate :: UserMedia (length (awaits p)) true
           :: map (AudioProcess n) inputs ++ [ClickVoiceStop]) p in
  let chunks := snd (encode_all (Mp3Encoder 1 rate 128)
                       (map floatTo16BitPCM inputs)) in
  let final := snd (flush (fst (encode_all (Mp3Encoder 1 rate 128)
                                   (map floatTo16BitPCM inputs)))) in
  exists artifact,
    blob_bytes artifact = concat chunks ++ final
    /\ object_urls stopped = object_urls p ++ [artifact]
    /\ fetched stopped = fetched p ++ [instruction_request artifact]
    /\ modal_display stopped = Some "block"%string
    /\ textContent <$> document stopped !! modal_content
       = Some "Please wait for voice instruction transcription to complete..."%string
    /\ clickable "voiceChatStartBtn" stopped = true
    /\ clickable "voiceChatStopBtn" stopped = false.
Proof.
  intros Hstart [e2 H2] Hm Hc n stopped chunks final.
  destruct (clickable_Some _ _ Hstart) as (e1 & H1 & Hen).
  pose proof (voice_start_page rate p e1 e2 Hstart H1 H2) as Hpage.
  cbn zeta in Hpage.
  set (q := run [ClickVoiceStart rate; UserMedia (length (awaits p)) true] p) in *.
  destruct Hpage as (Hchat & Hfire & Hdoc & Hurls & Hlog).
  set (recording := run (map (AudioProcess n) inputs) q).
  assert (Hrun : stopped = dispatch ClickVoiceStop recording).
  { subst stopped recording.
    change (run (ClickVoiceStart rate :: UserMedia (length (awaits p)) true
                   :: map (AudioProcess n) inputs ++ [ClickVoiceStop]) p)
      with (run (map (AudioProcess n) inputs ++ [ClickVoiceStop]) q).
    rewrite run_app. reflexivity. }
  pose proof (audio_blocks VoiceChat n inputs q (Mp3Encoder 1 rate 128) Hfire) as Hblocks.
  cbn [vars] in Hblocks. rewrite Hchat in Hblocks. specialize (Hblocks eq_refl).
  cbn zeta in Hblocks. fold recording in Hblocks.
  pose proof (audio_blocks_fetched n inputs q) as Hfetched. fold recording in Hfetched.
  subst chunks final.
  destruct (encode_all (Mp3Encoder 1 rate 128) (map floatTo16BitPCM inputs))
    as [enc chunks].
  cbn [fst snd].
  destruct Hblocks as (Henc & Hdata & Hmic & Hsp & Hdocr & Hnodes & Hobj).
  cbn [mp3Data micStream scriptProcessor app] in Hdata, Hmic, Hsp.
  assert (Hstop : clickable "voiceChatStopBtn" recording = true).
  { unfold clickable. rewrite Hdocr, Hdoc. lookups. reflexivity. }
  destruct (voiceChatStopBtn_onclick_page recording _ _ _
              (with_display "none" (with_disabled true e1))
              (with_display "inline-flex" (with_disabled false e2)) m c
              Hsp Hmic Henc)
    as (r & Hr & Hrurls & Hrlog & Hb1 & Hb2 & Hrm & Hrc);
    try (rewrite Hdocr, Hdoc; unfold modal_content in *; lookups; reflexivity).
  assert (Hstopped : stopped = r).
  { rewrite Hrun. cbn [dispatch]. rewrite Hstop, Hr. reflexivity. }
  rewrite Hstopped.
  exists (Blob (mp3Data (chat recording) ++ List.filter non_empty [snd (flush enc)])
            "audio/mp3").
  splits.
  - cbn [Blob blob_bytes]. rewrite concat_app, Hdata, concat_filter_non_empty.
    f_equal. destruct (snd (flush enc)); cbn; rewrite ?app_nil_r; reflexivity.
  - rewrite Hrurls, Hobj, Hurls. reflexivity.
  - unfold fetched in *. rewrite Hrlog, omap_app, Hfetched, Hlog. reflexivity.
  - unfold modal_display. rewrite Hrm. reflexivity.
  - rewrite Hrc. reflexivity.
  - unfold clickable. rewrite Hb1. reflexivity.
  - unfold clickable. rewrite Hb2. reflexivity.
Qed.

End VoiceFacts.

Lemma voice_instruction_posted_holds :
  let p := Demo.loaded (-60) "" ∅ in
  let inputs := [Demo.square; Demo.silence; Demo.square] in
  let stopped :=
    run (ClickVoiceStart 48000 :: UserMedia 0 true
           :: map (AudioProcess 0%nat) inputs ++ [ClickVoiceStop]) p in
  clickable "voiceChatStartBtn" p = true
  /\ is_Some (document p !! "voiceChatStopBtn")
  /\ document p !! "modal" = Some (with_display "none" Demo.blank)
  /\ document p !! modal_content = Some Demo.blank
  /\ exists artifact,
       blob_size artifact = 6%nat
       /\ fetched stopped = [instruction_request artifact]
       /\ modal_display stopped = Some "block"%string.
Proof.
  intros p inputs stopped.
  assert (H1 : clickable "voiceChatStartBtn" p = true) by (vm_compute; reflexivity).
  assert (H2 : is_Some (document p !! "voiceChatStopBtn")) by (vm_compute; eauto).
  assert (H3 : document p !! "modal" = Some (with_display "none" Demo.blank))
    by (vm_compute; reflexivity).
  assert (H4 : document p !! modal_content = Some Demo.blank)
    by (vm_compute; reflexivity).
  destruct (voice_instruction_posted 48000 inputs p _ _ H1 H2 H3 H4)
    as (artifact & Hbytes & _ & Hfetched & Hmodal & _).
  splits; try assumption. exists artifact. splits; try assumption.
  unfold blob_size. rewrite Hbytes. vm_compute. reflexivity.
Defined.

(** ** Answers to the exchange *)

Section ExchangeMore.
Context {encoder : Type} `{!Lamejs encoder}.
Implicit Types p q : page encoder.

Ltac exec :=
  unfold fetch_settled, catch, json, show_transcription, show_instruction,
    data_transcription, set_control, closeModal, log_error, record,
    bind, ret, throw, defined, set_element, get_element, getElementById, get, modify,
    soap_iframe, submit_button in *;
  repeat (psimpl;
          cbn [data_context ctx_transcription ctx_transcript
               disabled display value textContent src href download controls
               with_disabled with_display with_value with_textContent with_src
               with_href with_download with_controls] in *;
          lookups).

(** X15.  When the transcription request is answered with JSON that
    has [context.transcription], on a page that has the message, the
    form [reformat] with its two fields, the editor and the modal: the
    chain fills the file name and the transcript into the form and the
    formatted text into the editor, hides the message, shows the form
    container if there is one, closes the modal, and writes nothing to
    the console. *)
Theorem transcription_shown t p msg form name text box frame m :
  document p !! "no-transcription-message" = Some msg ->
  document p !! "reformat" = Some form ->
  controls form !! "filename" = Some name ->
  controls form !! "transcript" = Some text ->
  document p !! "soap-text-container" = Some box ->
  document p !! soap_iframe = Some frame ->
  document p !! "modal" = Some m ->
  exists q,
    fetch_settled Primary (Responded (Some (transcribed t))) p = Done tt q
    /\ controls <$> document q !! "reformat"
       = Some (<["transcript" := transcript t]>
                 (<["filename" := filename t]> (controls form)))
    /\ textContent <$> document q !! soap_iframe = Some (formatted_text t)
    /\ display <$> document q !! "no-transcription-message" = Some "none"%string
    /\ display <$> document q !! "form-container"
       = (fun _ => "block"%string) <$> document p !! "form-container"
    /\ modal_hidden q
    /\ console q = console p.
Proof.
  intros H1 H2 H3 H4 H5 H6 H7.
  unfold modal_hidden, modal_display, console, transcribed.
  destruct (document p !! "form-container") as [fc|] eqn:H8; exec;
    (eexists; split; [reflexivity|]); exec; splits; reflexivity.
Qed.

(** X16.  The same answer on a page where the transcript form carries
    the id [reformat_edited].  With the button of that name present,
    form and button are renamed to [reformat] and the form is filled as
    before.  With the button missing, the form has already been renamed
    when the chain throws: the TypeError goes to the console, the
    fields and the editor stay as they were, and the modal stays as it
    was. *)
Theorem edited_form_renamed t p msg form name text button box frame m :
  document p !! "no-transcription-message" = Some msg ->
  document p !! "reformat" = None ->
  document p !! "reformat_edited" = Some form ->
  controls form !! "filename" = Some name ->
  controls form !! "transcript" = Some text ->
  document p !! "soap-text-container" = Some box ->
  document p !! soap_iframe = Some frame ->
  document p !! "modal" = Some m ->
  (document p !! submit_button "reformat_edited" = Some button ->
   exists q,
     fetch_settled Primary (Responded (Some (transcribed t))) p = Done tt q
     /\ controls <$> document q !! "reformat"
        = Some (<["transcript" := transcript t]>
                  (<["filename" := filename t]> (controls form)))
     /\ document q !! "reformat_edited" = None
     /\ document q !! submit_button "reformat" = Some button
     /\ document q !! submit_button "reformat_edited" = None
     /\ textContent <$> document q !! soap_iframe = Some (formatted_text t)
     /\ modal_hidden q
     /\ console q = console p)
  /\ (document p !! submit_button "reformat_edited" = None ->
      exists q,
        fetch_settled Primary (Responded (Some (transcribed t))) p = Done tt q
        /\ document q !! "reformat" = Some form
        /\ document q !! "reformat_edited" = None
        /\ textContent <$> document q !! soap_iframe = Some (textContent frame)
        /\ modal_display q = Some (display m)
        /\ console q = console p ++ [TypeError (submit_button "reformat_edited")]).
Proof.
  intros H1 H2 H3 H4 H5 H6 H7 H8.
  unfold modal_hidden, modal_display, console, transcribed.
  split; intros H9;
    (destruct (document p !! "form-container") as [fc|] eqn:H10; exec;
     (eexists; split; [reflexivity|]); exec; rewrite ?omap_app; splits; reflexivity).
Qed.

(** X17.  An answer that is JSON but has no [context] (or, for a
    transcription, no [context.transcription]) ends like a failed
    exchange: a TypeError is caught and written to the console, and the
    modal is not closed.  For a transcription the message has been
    hidden by then and the form is untouched; for a voice instruction
    nothing but the console has changed. *)
Theorem malformed_answer_stranded p data :
  (data_context data = None
   \/ exists c, data_context data = Some c /\ ctx_transcription c = None) ->
  (forall msg form,
     document p !! "no-transcription-message" = Some msg ->
     document p !! "reformat" = Some form ->
     exists q,
       fetch_settled Primary (Responded (Some data)) p = Done tt q
       /\ console q
          = console p ++ [TypeError (match data_context data with
                                     | None => "context"
                                     | Some _ => "transcription"
                                     end)]
       /\ display <$> document q !! "no-transcription-message" = Some "none"%string
       /\ document q !! "reformat" = Some form
       /\ modal_display q = modal_display p)
  /\ (data_context data = None ->
      forall form old,
        document p !! "edit_chat" = Some form ->
        controls form !! "input" = Some old ->
        fetch_settled VoiceChat (Responded (Some data)) p
        = Done tt (with_log (log p ++ [CallConsoleError (TypeError "context")]) p)).
Proof.
  intros Hdata. split.
  - intros msg form H1 H2.
    assert (Hm : "no-transcription-message" <> "modal"%string) by discriminate.
    unfold modal_display, console.
    destruct Hdata as [Hc | (c & Hc & Ht)];
      (destruct (document p !! "form-container") as [fc|] eqn:H10; exec;
       rewrite ?Hc; exec; rewrite ?Ht; exec;
       (eexists; split; [reflexivity|]); exec; rewrite ?omap_app;
       splits; reflexivity).
  - intros Hc form old H1 H2. exec. rewrite Hc. reflexivity.
Qed.

(** X18.  Each answer to a voice instruction appends a space and the
    transcript to the input of the form [edit_chat], and an answer
    without a transcript appends [ undefined].  After several answers
    the input holds them all, in the order they came; the modal is
    hidden once one has come, and nothing is written to the console. *)
Theorem instructions_accumulate ts : forall p form old m,
  document p !! "edit_chat" = Some form ->
  controls form !! "input" = Some old ->
  document p !! "modal" = Some m ->
  let q := run (map (fun t => FetchSettled VoiceChat (Responded (Some (heard t)))) ts) p in
  controls <$> document q !! "edit_chat"
  = Some (<["input" := fold_left (fun s t => s +:+ " " +:+ template t) ts old]>
            (controls form))
  /\ (ts <> [] -> modal_hidden q)
  /\ console q = console p.
Proof.
  induction ts as [|t ts IH]; intros p form old m H1 H2 H3 q.
  - subst q. cbn. rewrite H1. cbn. rewrite insert_id by exact H2.
    splits; [reflexivity | congruence | reflexivity].
  - subst q. unfold run in *. cbn [map fold_left dispatch].
    set (p1 := page_of (fetch_settled VoiceChat (Responded (Some (heard t))) p)).
    assert (Hp1 : document p1
                  = <["modal" := with_display "none" m]>
                      (<["edit_chat" := with_controls
                           (<["input" := old +:+ " " +:+ template t]> (controls form))
                           form]> (document p))
                    /\ log p1 = log p).
    { subst p1. unfold heard, template. exec. destruct t; split; reflexivity. }
    destruct Hp1 as [Hdoc Hlog].
    destruct (IH p1 (with_controls (<["input" := old +:+ " " +:+ template t]>
                                      (controls form)) form)
                 (old +:+ " " +:+ template t) (with_display "none" m))
      as (Ha & Hb & Hc).
    { rewrite Hdoc. lookups. reflexivity. }
    { cbn [controls with_controls]. apply lookup_insert_eq. }
    { rewrite Hdoc. lookups. reflexivity. }
    cbn zeta in Ha, Hb, Hc. splits.
    + rewrite Ha. cbn [controls with_controls]. rewrite insert_insert_eq. reflexivity.
    + intros _. destruct ts as [|t' ts]; [|apply Hb; discriminate].
      cbn [map fold_left]. unfold modal_hidden, modal_display.
      rewrite Hdoc. lookups. reflexivity.
    + rewrite Hc. unfold console. rewrite Hlog. reflexivity.
Qed.

End ExchangeMore.

Lemma transcription_shown_holds :
  let p := Demo.served "" ∅ in
  let form := with_controls (list_to_map [("filename", ""); ("transcript", "")])
                Demo.blank in
  document p !! "no-transcription-message" = Some Demo.blank
  /\ document p !! "reformat" = Some form
  /\ controls form !! "filename" = Some ""%string
  /\ controls form !! "transcript" = Some ""%string
  /\ document p !! "soap-text-container" = Some Demo.blank
  /\ document p !! soap_iframe = Some Demo.blank
  /\ document p !! "modal" = Some (with_display "none" Demo.blank)
  /\ exists q,
       fetch_settled Primary (Responded (Some (transcribed sample_note))) p = Done tt q
       /\ textContent <$> document q !! soap_iframe = Some "S: cough"%string
       /\ modal_hidden q.
Proof.
  intros p form.
  assert (H1 : document p !! "no-transcription-message" = Some Demo.blank)
    by (vm_compute; reflexivity).
  assert (H2 : document p !! "reformat" = Some form) by (vm_compute; reflexivity).
  assert (H3 : controls form !! "filename" = Some ""%string) by (vm_compute; reflexivity).
  assert (H4 : controls form !! "transcript" = Some ""%string) by (vm_compute; reflexivity).
  assert (H5 : document p !! "soap-text-container" = Some Demo.blank)
    by (vm_compute; reflexivity).
  assert (H6 : document p !! soap_iframe = Some Demo.blank) by (vm_compute; reflexivity).
  assert (H7 : document p !! "modal" = Some (with_display "none" Demo.blank))
    by (vm_compute; reflexivity).
  destruct (transcription_shown sample_note p _ _ _ _ _ _ _ H1 H2 H3 H4 H5 H6 H7)
    as (q & Hq & _ & Htext & _ & _ & Hhid & _).
  splits; try assumption. exists q. splits; assumption.
Defined.

Lemma edited_form_renamed_holds :
  let p := with_document edited_elements (Demo.served "" ∅) in
  let form := with_controls (list_to_map [("filename", "old.mp3"); ("transcript", "old")])
                Demo.blank in
  document p !! "no-transcription-message" = Some Demo.blank
  /\ document p !! "reformat" = None
  /\ document p !! "reformat_edited" = Some form
  /\ controls form !! "filename" = Some "old.mp3"%string
  /\ controls form !! "transcript" = Some "old"%string
  /\ document p !! "soap-text-container" = Some Demo.blank
  /\ document p !! soap_iframe = Some Demo.blank
  /\ document p !! "modal" = Some (with_display "none" Demo.blank)
  /\ document p !! submit_button "reformat_edited" = Some Demo.blank
  /\ exists q,
       fetch_settled Primary (Responded (Some (transcribed sample_note))) p = Done tt q
       /\ document q !! "reformat_edited" = None
       /\ document q !! submit_button "reformat" = Some Demo.blank
       /\ modal_hidden q.
Proof.
  intros p form.
  assert (H1 : document p !! "no-transcription-message" = Some Demo.blank)
    by (vm_compute; reflexivity).
  assert (H2 : document p !! "reformat" = None) by (vm_compute; reflexivity).
  assert (H3 : document p !! "reformat_edited" = Some form) by (vm_compute; reflexivity).
  assert (H4 : controls form !! "filename" = Some "old.mp3"%string)
    by (vm_compute; reflexivity).
  assert (H5 : controls form !! "transcript" = Some "old"%string)
    by (vm_compute; reflexivity).
  assert (H6 : document p !! "soap-text-container" = Some Demo.blank)
    by (vm_compute; reflexivity).
  assert (H7 : document p !! soap_iframe = Some Demo.blank) by (vm_compute; reflexivity).
  assert (H8 : document p !! "modal" = Some (with_display "none" Demo.blank))
    by (vm_compute; reflexivity).
  assert (H9 : document p !! submit_button "reformat_edited" = Some Demo.blank)
    by (vm_compute; reflexivity).
  destruct (edited_form_renamed sample_note p _ _ _ _ Demo.blank _ _ _ H1 H2 H3 H4 H5 H6 H7 H8)
    as [Hrenamed _].
  destruct (Hrenamed H9) as (q & Hq & _ & Hgone & Hbutton & _ & _ & Hhid & _).
  splits; try assumption. exists q. splits; assumption.
Defined.

Lemma malformed_answer_stranded_holds :
  let p := Demo.stopped in
  let data := {| data_context := None |} in
  (data_context data = None
   \/ exists c, data_context data = Some c /\ ctx_transcription c = None)
  /\ is_Some (document p !! "no-transcription-message")
  /\ is_Some (document p !! "reformat")
  /\ modal_display p = Some "block"%string
  /\ exists q,
       fetch_settled Primary (Responded (Some data)) p = Done tt q
       /\ console q = console p ++ [TypeError "context"]
       /\ modal_display q = modal_display p.
Proof.
  intros p data.
  assert (H0 : data_context data = None
               \/ exists c, data_context data = Some c /\ ctx_transcription c = None)
    by (left; reflexivity).
  assert (H1 : is_Some (document p !! "no-transcription-message"))
    by (vm_compute; eauto).
  assert (H2 : is_Some (document p !! "reformat")) by (vm_compute; eauto).
  assert (H3 : modal_display p = Some "block"%string) by (vm_compute; reflexivity).
  destruct H1 as [msg H1], H2 as [form H2].
  destruct (malformed_answer_stranded p data H0) as [Hprimary _].
  destruct (Hprimary msg form H1 H2) as (q & Hq & Hcon & _ & _ & Hmod).
  splits; eauto. 
Defined.

Lemma instructions_accumulate_holds :
  let p := Demo.served "" ∅ in
  let form := with_controls (list_to_map [("input", "")]) Demo.blank in
  let q := run (map (fun t => FetchSettled VoiceChat (Responded (Some (heard t))))
                    [Some "shorter"; None; Some "please"]%string) p in
  document p !! "edit_chat" = Some form
  /\ controls form !! "input" = Some ""%string
  /\ document p !! "modal" = Some (with_display "none" Demo.blank)
  /\ controls <$> document q !! "edit_chat"
     = Some (<["input" := " shorter undefined please"%string]> (controls form)).
Proof.
  intros p form q.
  assert (H1 : document p !! "edit_chat" = Some form) by (vm_compute; reflexivity).
  assert (H2 : controls form !! "input" = Some ""%string) by (vm_compute; reflexivity).
  assert (H3 : document p !! "modal" = Some (with_display "none" Demo.blank))
    by (vm_compute; reflexivity).
  destruct (instructions_accumulate [Some "shorter"; None; Some "please"]%string
              p form _ _ H1 H2 H3) as (Hin & _ & _).
  splits; assumption.
Defined.

(** ** Requests never sent, streams never reopened *)

Section RequestFacts.
Context {encoder : Type} `{!Lamejs encoder}.
Implicit Types p q : page encoder.

#[local] Instance unsent_preorder : PreOrder (@unsent encoder).
Proof.
  split.
  - intros p Hp. split; [exact Hp | reflexivity].
  - intros p q r H1 H2 Hp. destruct (H1 Hp) as [Hq E1].
    destruct (H2 Hq) as [Hr E2]. split; [exact Hr | congruence].
Qed.

#[local] Instance released_preorder : PreOrder (@released encoder).
Proof. split; [intros p s Hs; exact Hs | intros p q r H1 H2 s Hs; auto]. Qed.

Ltac unsent_side :=
  intros; unfold unsent, no_token, transcription_requests;
  psimpl; rewrite ?log_with_vars, ?document_with_vars;
  try match goal with |- context [globals (with_vars ?f ?c ?p)] =>
        replace (globals (with_vars f c p)) with (globals p) by (destruct f; reflexivity)
      end;
  psimpl; rewrite ?omap_app; cbn [omap list_omap]; rewrite ?app_nil_r;
  unfold modal_content, soap_iframe, submit_button;
  rewrite ?lookup_insert_ne, ?lookup_delete_ne by discriminate;
  intros [? ?]; repeat split; assumption.

Ltac open_every :=
  unfold startBtn_onclick, voiceChatStartBtn_onclick, start_click,
    resumed, startBtn_onclick_resumed, voiceChatStartBtn_onclick_resumed,
    start_capture,
    stopBtn_onclick, stop_recording, voiceChatStopBtn_onclick,
    scriptProcessor_onaudioprocess, finalize, disconnect, stop_tracks,
    flush_encoder,
    interval_callback, fetch_settled, show_transcription, show_instruction,
    log_error, json, data_transcription, set_control, window_onclick,
    closeModal, textModal, staticModal, clearInterval,
    createObjectURL, update_node, record, getElementById.

(** With nothing called [token], the last statement of the stop handler
    throws before [fetchTranscription] is entered. *)
Lemma token_unsent {A} (k : jsval -> action A) :
  keeps (encoder := encoder) unsent (bind (resolve "token") k).
Proof.
  intros p [Hg Hd]. unfold bind, resolve. rewrite Hg, Hd. cbn [page_of].
  split; [split; assumption | reflexivity].
Qed.

Lemma set_element_unsent id (g : element -> element) :
  keeps (encoder := encoder) unsent (set_element id g).
Proof.
  apply keeps_set_element; [typeclasses eauto|].
  intros p e He [Hg Hd]. unfold no_token, transcription_requests. psimpl.
  destruct (decide (id = "token"%string)) as [->|Hne]; [congruence|].
  rewrite lookup_insert_ne by exact Hne. auto.
Qed.

#[local] Hint Resolve set_element_unsent : frames.

Lemma dispatch_unsent e p : unsent p (dispatch e p).
Proof.
  destruct e as [rate|d|rate| |n input|t|f' o|target|k g]; cbn [dispatch].
  - destruct (clickable "startBtn" p); [|reflexivity].
    apply (keeps_page_of unsent). open_every. keeps_steps unsent_side.
  - destruct (clickable "stopBtn" p); [|reflexivity].
    apply (keeps_page_of unsent). unfold stopBtn_onclick.
    apply keeps_bind; [typeclasses eauto | | intros l; apply token_unsent].
    open_every. keeps_steps unsent_side.
  - destruct (clickable "voiceChatStartBtn" p); [|reflexivity].
    apply (keeps_page_of unsent). open_every. keeps_steps unsent_side.
  - destruct (clickable "voiceChatStopBtn" p); [|reflexivity].
    apply (keeps_page_of unsent). open_every. keeps_steps unsent_side.
  - destruct (callback_of n p) as [f|]; [|reflexivity].
    apply (keeps_page_of unsent). open_every. keeps_steps unsent_side.
  - destruct (intervals p !! t) as [[]|]; try reflexivity.
    apply (keeps_page_of unsent). open_every. keeps_steps unsent_side.
  - apply (keeps_page_of unsent). open_every. keeps_steps unsent_side.
  - apply (keeps_page_of unsent). open_every. keeps_steps unsent_side.
  - destruct (awaited k p) as [f|]; [|reflexivity].
    transitivity (with_awaits (<[k := None]> (awaits p)) p); [unsent_side|].
    apply (keeps_page_of unsent). destruct f; open_every; keeps_steps unsent_side.
Qed.

(** X19.  While no global variable and no element of the page is called
    [token], no sequence of clicks on the buttons or the window, audio
    callbacks, timer ticks and settled requests makes the page request a
    transcription: no handler defines [token], so every stop click
    throws at the argument [token] of its last statement, before
    [fetchTranscription] is entered. *)
Theorem transcription_never_requested es : forall p,
  no_token p ->
  transcription_requests (run es p) = transcription_requests p
  /\ no_token (run es p).
Proof.
  induction es as [|e es IH]; intros p Hp; [split; [reflexivity | exact Hp]|].
  destruct (dispatch_unsent e p Hp) as [Hq Heq].
  destruct (IH (dispatch e p) Hq) as [Hrun Hr].
  change (run (e :: es) p) with (run es (dispatch e p)).
  split; [congruence | exact Hr].
Qed.

Ltac released_side :=
  intros; unfold released; psimpl;
  repeat match goal with
         | |- context [streams (with_vars ?f ?c ?p)] =>
             replace (streams (with_vars f c p)) with (streams p)
               by (destruct f; reflexivity)
         end;
  intros s0 Hs0;
  first
    [ exact Hs0
    | apply lookup_app_l_Some; exact Hs0
    | match goal with
      | |- <[?i := false]> _ !! _ = _ =>
          destruct (decide (i = s0)) as [->|];
          [ apply list_lookup_insert_eq; apply lookup_lt_Some in Hs0; exact Hs0
          | rewrite list_lookup_insert_ne by assumption; exact Hs0 ]
      end ].

Lemma dispatch_released e p : released p (dispatch e p).
Proof.
  destruct e as [rate|d|rate| |n input|t|f' o|target|k g]; cbn [dispatch].
  - destruct (clickable "startBtn" p); [|reflexivity].
    apply (keeps_page_of released). unfold fetchTranscription. open_every.
    keeps_steps released_side.
  - destruct (clickable "stopBtn" p); [|reflexivity].
    apply (keeps_page_of released). unfold fetchTranscription. open_every.
    keeps_steps released_side.
  - destruct (clickable "voiceChatStartBtn" p); [|reflexivity].
    apply (keeps_page_of released). open_every. keeps_steps released_side.
  - destruct (clickable "voiceChatStopBtn" p); [|reflexivity].
    apply (keeps_page_of released). open_every. keeps_steps released_side.
  - destruct (callback_of n p) as [f|]; [|reflexivity].
    apply (keeps_page_of released). open_every. keeps_steps released_side.
  - destruct (intervals p !! t) as [[]|]; try reflexivity.
    apply (keeps_page_of released). open_every. keeps_steps released_side.
  - apply (keeps_page_of released). open_every. keeps_steps released_side.
  - apply (keeps_page_of released). open_every. keeps_steps released_side.
  - destruct (awaited k p) as [f|]; [|reflexivity].
    transitivity (with_awaits (<[k := None]> (awaits p)) p); [released_side|].
    apply (keeps_page_of released). destruct f; open_every; keeps_steps released_side.
Qed.

Lemma run_released es : forall p, released p (run es p).
Proof.
  induction es as [|e es IH]; intros p; [reflexivity|].
  change (run (e :: es) p) with (run es (dispatch e p)).
  transitivity (dispatch e p); [apply dispatch_released | apply IH].
Qed.

(** X20.  A click on the stop button of a flow that is capturing stops
    the tracks of the microphone stream of that capture, and no event
    that follows starts them again: a later capture asks for a stream of
    its own. *)
Theorem microphone_released f d p n s enc :
  scriptProcessor (vars f p) = Some n ->
  micStream (vars f p) = Some s ->
  mp3Encoder (vars f p) = Some enc ->
  clickable (stop_button f) p = true ->
  streams p !! s = Some true ->
  let q := dispatch (stop_event f d) p in
  streams q !! s = Some false
  /\ forall es, streams (run es q) !! s = Some false.
Proof.
  intros Hn Hs Henc Hc Hlive q.
  pose proof (finalize_Done f p n s enc Hn Hs Henc) as Hfin. cbn zeta in Hfin.
  assert (Hq : streams q = <[s := false]> (streams p)).
  { subst q. destruct f; cbn [stop_event dispatch stop_button] in *; rewrite Hc.
    - transitivity (streams (page_of (stop_recording d p))).
      { unfold stopBtn_onclick. apply (page_of_after (same streams)).
        intros l. unfold fetchTranscription, record.
        keeps_steps ltac:(intros; reflexivity). }
      unfold stop_recording. rewrite (page_of_bind_Done _ _ _ _ _ Hfin).
      match goal with |- streams (page_of (?m ?q0)) = _ =>
        transitivity (streams q0);
          [ apply (keeps_page_of (same streams) m q0); open_every;
            keeps_steps ltac:(intros; reflexivity)
          | reflexivity ]
      end.
    - unfold voiceChatStopBtn_onclick. rewrite (page_of_bind_Done _ _ _ _ _ Hfin).
      match goal with |- streams (page_of (?m ?q0)) = _ =>
        transitivity (streams q0);
          [ apply (keeps_page_of (same streams) m q0); open_every;
            keeps_steps ltac:(intros; reflexivity)
          | reflexivity ]
      end. }
  assert (Hoff : streams q !! s = Some false).
  { rewrite Hq. apply list_lookup_insert_eq. apply lookup_lt_Some in Hlive. exact Hlive. }
  split; [exact Hoff|].
  intros es. exact (run_released es q s Hoff).
Qed.

End RequestFacts.

Lemma transcription_never_requested_holds :
  let p := Demo.loaded (-60) "" ∅ in
  let es := [ClickStart 44100; UserMedia 0 true; AudioProcess 0 Demo.square;
             ClickStop Demo.march5; FetchSettled Primary Rejected;
             ClickVoiceStart 48000; UserMedia 1 true; ClickVoiceStop] in
  no_token p
  /\ transcription_requests (run es p) = []
  /\ length (fetched (run es p)) = 1%nat.
Proof.
  intros p es.
  assert (H1 : no_token p) by (split; vm_compute; reflexivity).
  destruct (transcription_never_requested es p H1) as [Hnone _].
  split; [exact H1|]. split; [exact Hnone | vm_compute; reflexivity].
Defined.

Lemma microphone_released_holds :
  let p := Demo.recording in
  scriptProcessor (vars Primary p) = Some 0%nat
  /\ micStream (vars Primary p) = Some 0%nat
  /\ mp3Encoder (vars Primary p) = Some 2%nat
  /\ clickable (stop_button Primary) p = true
  /\ streams p !! 0%nat = Some true
  /\ streams (dispatch (stop_event Primary Demo.march5) p) !! 0%nat = Some false
  /\ streams (run [ClickStart 48000; UserMedia 1 true; AudioProcess 1 Demo.square]
                 (dispatch (stop_event Primary Demo.march5) p)) !! 0%nat
     = Some false.
Proof.
  intros p.
  assert (H1 : scriptProcessor (vars Primary p) = Some 0%nat) by (vm_compute; reflexivity).
  assert (H2 : micStream (vars Primary p) = Some 0%nat) by (vm_compute; reflexivity).
  assert (H3 : mp3Encoder (vars Primary p) = Some 2%nat) by (vm_compute; reflexivity).
  assert (H4 : clickable (stop_button Primary) p = true) by (vm_compute; reflexivity).
  assert (H5 : streams p !! 0%nat = Some true) by (vm_compute; reflexivity).
  destruct (microphone_released Primary Demo.march5 p _ _ _ H1 H2 H3 H4 H5)
    as [Hoff Hstays].
  exact (conj H1 (conj H2 (conj H3 (conj H4 (conj H5 (conj Hoff (Hstays _))))))).
Defined.
